(* ===== verification/_CoqProject ===== *)
-Q . S2P
Prelude.v
PyStr.v
Frame.v
Cleaner.v
Loader.v
Filter.v
Stats.v
Corr.v
Streamlit.v
Presentation.v
Charts.v
App.v
