(* ===== verification/Prelude.v ===== *)
(** * NBA Player Statistics Explorer: a verification development for [src/eda.py]

    ** The program

    [src/eda.py] is a Streamlit script.  Streamlit re-runs the whole script
    from top to bottom on every user interaction; the widgets return the
    values the user chose.  One run of the script
    - emits the page chrome (lines 9-28),
    - reads the season from a select box over the years 2023 down to 1950
      (line 29),
    - loads the per-game table of that season through [load_data]
      (lines 31-41): it fetches the page with [pd.read_html], takes the first
      table, drops the repeated header rows (rows whose [Age] cell is the
      text "Age"), replaces missing values by 0 and drops the column [Rk];
      the function is memoised per year by [st.cache_data],
    - normalises the column names and turns the [team] column into text
      (lines 44-45),
    - offers the teams and the five positions as multi-selects and keeps the
      rows whose team and position are both selected (lines 47-52),
    - shows the dimension of the filtered table, the table, and a download
      link that carries the CSV text of the table in base64 (lines 54-64),
    - and renders the chart chosen with the radio button (lines 66-153).

    ** The model

    The script is embedded as functions.  A table is a [Frame.DataFrame]: a
    list of row labels and an ordered list of named columns, each a dtype
    and a list of cells ([CStr], [CInt], [CFloat], [CNaN]).  A pandas call
    that can raise returns a [result] ([Ok] or [Raise] of an [exn]); code
    that calls several of them is written with the bind of this monad, so a
    definition reads like the lines it models.  A run of the script is a
    value of [Streamlit.app]: the list of page elements the [st.*] calls
    showed, and the value returned or the exception that stopped the run.
    The cache of [st.cache_data] is a finite map from years to tables,
    passed in and out of a run.

    What lies outside the program is a parameter: the web ([read_html],
    from a URL to the tables of the page or the exception of the fetch), how
    Python prints a float ([Frame.FloatRepr]), how pandas reads a number
    from text ([Stats.NumParser]).  The theorems hold for every value of
    these parameters; [decimal_repr], [decimal_parse] and [sample_web] are
    instances for the examples.  The choices of the user are the record
    [App.inputs].

    ** Layout: file, part of the program, theorems

    - [Prelude] (this file): the exceptions ([exn]), the monad [result],
      selection by a boolean mask ([select], written [l ⋉ m]: boolean
      indexing on one column), [unique] ([Series.unique]), generic lemmas on
      lists and sorted lists, the hint database [frame].
    - [PyStr]: [str.strip], [str.lower], [str.replace] of one character, on
      byte strings (line 44).  Lemmas: [strip] removes exactly the blanks at
      both ends, the three functions are idempotent and commute as needed.
    - [Frame]: the pandas data model and the calls of lines 34-52: item and
      attribute access, [==] with a scalar, boolean indexing, [drop] of rows
      and of columns, [fillna], [astype(str)], [isin], [select_dtypes],
      [shape], [empty].  The invariant [frame_wf] (every column has one cell
      per row and cells that fit its dtype, labels and column names are
      distinct) is decidable and preserved by every operation.
    - [Cleaner]: lines 36-38 ([clean_raw]) and lines 44-45 ([prepare]).
      Theorems: the cleaned table has no header row, no missing cell, no
      [Rk] column and is well formed; the drop by label of line 36 is a row
      filter ([clean_raw_closed_form]); the exact error cases; the
      normalised names.
    - [Loader]: line 29 ([selected_year]), lines 31-41 ([load_data],
      [load_data_cached]).  Theorems: what [load_data] returns is clean, how
      it fails, the memoised function refines [load_data] on a sound cache
      and never fetches a stored year again.
    - [Filter]: lines 47-52 ([sorted_unique_team], [multiselect],
      [filter_rows], [filter_stage]).  Theorems: a row is kept exactly when
      its team and its position are selected; order, columns and cells are
      kept; empty selections give an empty table; the default selection is
      the identity exactly when every position is one of the five codes.
    - [Stats]: the pandas calls of the chart branches: [to_numeric] (line
      93), [nlargest] and the column selection (line 107), [groupby_mean]
      (line 132).  Theorems: [nlargest] keeps the largest rows in
      descending order, first row first among equals, and fails only on a
      missing or non-numeric column; [to_numeric] is total, returns a typed
      numeric column, gives a text cell the value it parses to and makes it
      missing when it does not parse; [groupby_mean] returns one row per
      key, the keys strictly ascending, the groups a partition of the rows
      with a key, and beside each key the mean of its group.
    - [Corr]: [corr] (line 78) and the mask of the heat map (lines 79-80).
      The mask is built as numpy builds it: [zeros_like], the index pairs
      of [triu_indices_from] (through [tri] and [nonzero]) and an
      assignment at these pairs that raises [IndexError] outside the
      array.  Theorems: the matrix of [corr] is symmetric with 1 or a
      missing entry on the diagonal, every entry is a correlation
      (Cauchy-Schwarz on rationals) whose sign and square are those of the
      textbook formula [n Σxy - Σx Σy]; two columns related by
      [y = a x + b] have the coefficient 1 or -1 with the sign of [a]
      ([pearson_affine]); the two lines of the mask never raise on a
      matrix and build the upper triangle ([triu_mask_spec]).
    - [Streamlit]: page elements, figures (the arguments of the matplotlib
      and seaborn calls), the monad [app] of runs, the loop [for_each], and
      the two preconditions of seaborn the script relies on ([sns_xy],
      [sns_heatmap]).
    - [Presentation]: lines 54-64 ([dimension_text], [to_csv],
      [b64encode], [filedownload], [presentation]).  Theorems: a CSV reader
      run on the text of [to_csv] returns the names and cells of the table
      ([csv_roundtrip]); a base64 decoder returns the encoded text, which
      is written in the base64 alphabet and has the length of RFC 4648
      ([b64_roundtrip]); what a click on the link saves reads back as the
      table ([download_roundtrip]).
    - [Charts]: lines 66-153 ([radio], [chart], one definition per branch).
      Every branch but the box plots refines [guarded_plot]: a header, then
      a figure if the guard holds and a line of text if not.  Theorems: the
      fallback texts, the exact page of each branch on the data it needs,
      the table the box-plot loop leaves (the metric columns converted in
      place, line 93), the branches that raise on an object column, the
      dispatch, and that the chart stage never raises when the points
      column is numeric.
    - [App]: the script ([page_chrome], [body], [script]), sessions and the
      caches they reach.  Theorems: the invariant of the table every
      later stage receives ([pipeline_invariant]), the page of a successful
      run, the runs that complete and the runs that stop at the load or at
      the team column, soundness of every reachable cache, a re-run shows
      the same page without fetching.

    ** Bounds and idealisations

    - A float cell holds a rational and an integer cell an unbounded
      integer: rounding and overflow are not modelled, and the bounds and
      the exact values 1 and -1 proved of [corr] are those of the exact
      coefficient.  A correlation coefficient is kept exactly as a sign and
      the square of the coefficient ([Corr.rcell]).
    - Strings are byte strings; [strip], [lower] and [replace] act on ASCII,
      as they do on the column names of the pages.
    - Every function is structurally recursive or a composition of list
      functions: there is no fuel.  The only bound is in the example
      instance [decimal_repr], which prints at most 17 fractional digits
      (more than a double carries); no theorem depends on it.
    - Row labels are natural numbers, as the labels of a table read by
      [pd.read_html] are.
    - The exceptions are those of pandas 2.1 and later: [nlargest] raises
      [TypeError] on a column of dtype object; the mean of a group of an
      object column raises [TypeError] when the group holds text and is
      computed when its cells are numbers.
    - [to_csv] quotes as the [csv] writer of CPython before 3.13 does with
      the line feed as terminator: a field is quoted for a comma, a quote
      or a line feed (from 3.13 on also for a carriage return).  The CSV
      reader of the round trip ends a record at a line feed only.
    - Column names are distinct ([Frame.frame_wf]).  Line 44 can make two
      names equal; for a duplicated label pandas returns a table instead
      of a column, which the script does not expect (with two columns that
      normalise to [team], [.unique()] at line 47 raises).  The theorems
      on the whole run carry the hypothesis that the normalised names are
      distinct.

    ** Not modelled

    The network fetch and the HTML parser (the parameter [read_html]); the
    rendering of figures, tables and widgets (a figure is the record of the
    calls that build it); the statistics seaborn computes inside a box plot
    and the errors seaborn raises on data it cannot plot (an empty table, a
    column of text): a run that "completes" is a run in which neither
    pandas nor the script raises; tables with duplicated column names;
    boolean and datetime dtypes; Streamlit's session state other than the
    cache of [load_data]. *)

From stdpp Require Export base tactics option list strings sorting pretty gmap.
From Stdlib Require Export QArith.
Global Close Scope Q_scope.

Declare Scope py_scope.
Delimit Scope py_scope with py.
Open Scope py_scope.

(** ** Python exceptions

    The exceptions the script can raise, as values.  [LoadError] stands for
    whatever [pd.read_html] raises when the page cannot be fetched or holds
    no table ([URLError], [HTTPError], [ValueError]). *)
Inductive exn : Type :=
| KeyError (key : string)
| AttributeError (name : string)
| IndexError
| TypeError (msg : string)
| ValueError (msg : string)
| LoadError (url : string).

#[global] Instance exn_eq_dec : EqDecision exn.
Proof. solve_decision. Defined.

(** ** The error monad *)
Inductive result (A : Type) : Type :=
| Ok (a : A)
| Raise (e : exn).
Arguments Ok {A} a.
Arguments Raise {A} e.

#[global] Instance result_eq_dec `{EqDecision A} : EqDecision (result A).
Proof. solve_decision. Defined.

#[global] Instance result_ret : MRet result := λ A a, Ok a.
#[global] Instance result_bind : MBind result := λ A B f m,
  match m with Ok a => f a | Raise e => Raise e end.
#[global] Instance result_fmap : FMap result := λ A B f m,
  match m with Ok a => Ok (f a) | Raise e => Raise e end.

Definition is_Ok {A} (m : result A) : Prop := ∃ a, m = Ok a.
Definition raises {A} (m : result A) : Prop := ∃ e, m = Raise e.

#[global] Instance is_Ok_dec {A} (m : result A) : Decision (is_Ok m).
Proof.
  refine (match m with Ok a => left _ | Raise e => right _ end);
    [by eexists | by intros [? ?]].
Defined.

(** [from_option e o]: the value of [o], or the exception [e]. *)
Definition or_raise {A} (e : exn) (o : option A) : result A :=
  match o with Some a => Ok a | None => Raise e end.

(** ** Boolean-mask selection

    [select l m] keeps the elements of [l] whose position holds [true] in
    [m]: what [series[mask]] does when [mask] has the index of [series]. *)
Fixpoint select {A} (l : list A) (m : list bool) : list A :=
  match l, m with
  | x :: l, b :: m => if b then x :: select l m else select l m
  | _, _ => []
  end.

Infix "⋉" := select (at level 36, left associativity) : py_scope.

(** [unique l]: the distinct elements of [l] in order of first appearance
    (pandas' [Series.unique]). *)
Fixpoint unique `{EqDecision A} (l : list A) : list A :=
  match l with
  | [] => []
  | x :: l => x :: filter (λ y, y ≠ x) (unique l)
  end.

(** Number of [true] entries of a mask. *)
Definition mask_count (m : list bool) : nat := length (filter (λ b, b = true) m).

(** [Q] has decidable equality (structural: [1#2] and [2#4] differ). *)
#[global] Instance Q_eq_dec : EqDecision Q.
Proof. solve_decision. Defined.

Create HintDb frame discriminated.

(** ** The monad laws and inversion *)
Section result_laws.
Context {A B C : Type}.
Implicit Types (m : result A) (f : A → result B) (g : B → result C).

Lemma result_bind_ret_l (a : A) f : mret a ≫= f = f a.
Proof. done. Qed.

Lemma result_bind_ret_r m : m ≫= mret = m.
Proof. by destruct m. Qed.

Lemma result_bind_assoc m f g : (m ≫= f) ≫= g = m ≫= (λ a, f a ≫= g).
Proof. by destruct m. Qed.

Lemma bind_Ok m f (b : B) : m ≫= f = Ok b ↔ ∃ a, m = Ok a ∧ f a = Ok b.
Proof. destruct m; naive_solver. Qed.

Lemma bind_Raise m f e :
  m ≫= f = Raise e ↔ m = Raise e ∨ ∃ a, m = Ok a ∧ f a = Raise e.
Proof. destruct m; naive_solver. Qed.

Lemma fmap_Ok (h : A → B) m (b : B) : h <$> m = Ok b ↔ ∃ a, m = Ok a ∧ b = h a.
Proof. destruct m; naive_solver. Qed.

Lemma or_raise_Ok e (o : option A) a : or_raise e o = Ok a ↔ o = Some a.
Proof. destruct o; naive_solver. Qed.

Lemma or_raise_Raise e e' (o : option A) :
  or_raise e o = Raise e' ↔ o = None ∧ e' = e.
Proof. destruct o; naive_solver. Qed.

Lemma is_Ok_not_raises m : is_Ok m ↔ ¬ raises m.
Proof. destruct m; unfold is_Ok, raises; naive_solver. Qed.
End result_laws.

(** [inv_result]: break every hypothesis [_ ≫= _ = Ok _], [or_raise _ _ = Ok _]
    into its parts. *)
Ltac inv_result :=
  repeat match goal with
  | H : _ ≫= _ = Ok _ |- _ => apply bind_Ok in H as (? & ? & H)
  | H : _ <$> _ = Ok _ |- _ => apply fmap_Ok in H as (? & ? & H)
  | H : or_raise _ _ = Ok _ |- _ => apply or_raise_Ok in H
  | H : or_raise _ _ = Raise _ |- _ => apply or_raise_Raise in H as [H ?]
  | H : mret _ = Ok _ |- _ => injection H as H
  | H : Ok _ = Ok _ |- _ => injection H as H
  | H : Raise _ = Ok _ |- _ => discriminate H
  | H : Ok _ = Raise _ |- _ => discriminate H
  end; simplify_eq.

(** ** Lists *)

(** A constant map gives a constant list. *)
Lemma fmap_const_replicate {A B} (f : A → B) (b : B) (l : list A) :
  (∀ x, f x = b) → f <$> l = replicate (length l) b.
Proof. intros Hf. induction l; csimpl; [done|]. by rewrite Hf, IHl. Qed.

(** A map that fixes every element of a list fixes the list. *)
Lemma list_fmap_id_on {A} (f : A → A) (l : list A) :
  Forall (λ x, f x = x) l → f <$> l = l.
Proof. induction 1; csimpl; congruence. Qed.

(** [filter] commutes with a map; the two decision procedures are separate
    arguments so that the lemma applies whatever instances were inferred. *)
Lemma filter_fmap_comm {A B} (f : A → B) (P : B → Prop)
    `{H1 : ∀ x, Decision (P (f x))} `{H2 : ∀ y, Decision (P y)} (l : list A) :
  f <$> filter (λ x, P (f x)) l = filter P (f <$> l).
Proof.
  induction l as [|x l IH]; [done|]. csimpl. destruct (decide (P (f x))).
  - rewrite !filter_cons_True by done. csimpl. by rewrite IH.
  - by rewrite !filter_cons_False by done.
Qed.

Lemma Forall_sublist {A} (Q : A → Prop) (l k : list A) :
  l `sublist_of` k → Forall Q k → Forall Q l.
Proof.
  rewrite !Forall_forall. intros Hs Hk x Hx. eapply Hk, elem_of_sublist; eauto.
Qed.

Lemma Forall_filter {A} (Q P : A → Prop) `{∀ x, Decision (P x)} (l : list A) :
  Forall Q l → Forall Q (filter P l).
Proof. apply Forall_sublist, sublist_filter. Qed.

Lemma filter_id_Forall {A} (P : A → Prop) `{∀ x, Decision (P x)} (l : list A) :
  Forall P l → filter P l = l.
Proof.
  induction 1 as [|x l Hx _ IH]; [done|].
  by rewrite filter_cons_True, IH by done.
Qed.

Lemma filter_nil_Forall {A} (P : A → Prop) `{∀ x, Decision (P x)} (l : list A) :
  Forall (λ x, ¬ P x) l → filter P l = [].
Proof.
  induction 1 as [|x l Hx _ IH]; [done|].
  by rewrite filter_cons_False, IH by done.
Qed.

(** Removing one element of a duplicate-free list shortens it by one. *)
Lemma length_filter_remove `{EqDecision A} (x : A) (l : list A) :
  NoDup l → x ∈ l → length (filter (λ y, y ∉ [x]) l) = length l - 1.
Proof.
  intros Hnd Hin. induction Hnd as [|y l Hy Hnd IH]; [by apply elem_of_nil in Hin|].
  apply elem_of_cons in Hin as [<-|Hin].
  - rewrite filter_cons_False by (intros Hx; apply Hx; left). simpl.
    rewrite Nat.sub_0_r. f_equal. apply filter_id_Forall, Forall_forall.
    intros z Hz ->%list_elem_of_singleton. done.
  - rewrite filter_cons_True by (intros ->%list_elem_of_singleton; done).
    simpl. rewrite IH by done. destruct l; [by apply elem_of_nil in Hin|simpl; lia].
Qed.

(** ** Lemmas on [select] *)
Section select.
Context {A : Type}.
Implicit Types (l k : list A) (m : list bool) (n : nat).

Lemma select_nil_r l : l ⋉ [] = [].
Proof. by destruct l. Qed.

Lemma select_sublist l m : l ⋉ m `sublist_of` l.
Proof.
  revert m; induction l as [|x l IH]; intros [|[] m]; simpl;
    try constructor; auto using sublist_nil_l.
Qed.

Lemma select_length_le l m : length (l ⋉ m) ≤ length l.
Proof. apply sublist_length, select_sublist. Qed.

(** The length of a selection is the number of [true]s of the mask: every
    column of a frame keeps the same number of rows. *)
Lemma select_length l m :
  length l = length m → length (l ⋉ m) = mask_count m.
Proof.
  unfold mask_count. revert m; induction l as [|x l IH]; intros [|[] m] Hlen;
    simplify_eq/=; rewrite ?filter_cons_True, ?filter_cons_False by done;
    simpl; auto.
Qed.

Lemma select_all l n : length l ≤ n → l ⋉ replicate n true = l.
Proof.
  revert n; induction l as [|x l IH]; intros [|n] ?; simpl in *;
    try done; try lia. f_equal. apply IH. lia.
Qed.

Lemma select_none l n : l ⋉ replicate n false = [].
Proof. revert n; induction l as [|x l IH]; intros [|n]; simpl; auto. Qed.

Lemma select_fmap {B} (f : A → B) l m : (f <$> l) ⋉ m = f <$> (l ⋉ m).
Proof.
  revert m; induction l as [|x l IH]; intros [|[] m]; simpl; f_equal; auto.
Qed.

(** A mask computed from the elements is a [filter]. *)
Lemma select_fmap_mask (p : A → bool) l :
  l ⋉ (p <$> l) = filter (λ x, p x = true) l.
Proof.
  induction l as [|x l IH]; [done|]. simpl. destruct (p x) eqn:Hp.
  - rewrite filter_cons_True by done. by f_equal.
  - rewrite filter_cons_False by (by rewrite Hp). done.
Qed.

(** Selecting by a conjunction is selecting twice. *)
Lemma select_and l m (m' : list bool) : l ⋉ (m &&* m') = (l ⋉ m) ⋉ (m' ⋉ m).
Proof.
  revert m m'; induction l as [|x l IH]; intros [|[] m] [|[] m']; simpl;
    rewrite ?select_nil_r; try done; try (f_equal; by auto); apply IH.
Qed.

Lemma elem_of_select x l m :
  x ∈ l ⋉ m ↔ ∃ i, l !! i = Some x ∧ m !! i = Some true.
Proof.
  revert m; induction l as [|y l IH]; intros [|b m]; simpl.
  - rewrite elem_of_nil. naive_solver.
  - rewrite elem_of_nil. naive_solver.
  - rewrite elem_of_nil. naive_solver.
  - destruct b; rewrite ?elem_of_cons, IH; split.
    + intros [->|(i & ? & ?)]; [by exists 0|by exists (S i)].
    + intros ([|i] & ? & ?); simplify_eq/=; eauto.
    + intros (i & ? & ?); by exists (S i).
    + intros ([|i] & ? & ?); simplify_eq/=; eauto.
Qed.

(** Two columns of one length stay of one length under any mask. *)
Lemma select_length_eq {B} l (k : list B) m :
  length l = length k → length (l ⋉ m) = length (k ⋉ m).
Proof.
  revert k m; induction l as [|x l IH]; intros [|y k] [|[] m] ?;
    simplify_eq/=; auto.
Qed.

Lemma select_lookup_total l m i x :
  (l ⋉ m) !! i = Some x → x ∈ l.
Proof.
  intros ?%list_elem_of_lookup_2.
  eapply elem_of_sublist; eauto using select_sublist.
Qed.

(** Dropping by label what a mask selects is selecting by the negated mask,
    when the labels are distinct: [df.drop(df[m].index)] is [df[~m]]. *)
Lemma select_complement `{EqDecision A} l m :
  NoDup l → length m = length l →
  (λ x, bool_decide (x ∉ l ⋉ m)) <$> l = negb <$> m.
Proof.
  revert m; induction l as [|x l IH]; intros [|b m] Hnd Hlen;
    simplify_eq/=; [done|].
  apply NoDup_cons in Hnd as [Hx Hnd]. f_equal.
  - destruct b; simpl.
    + apply bool_decide_eq_false. rewrite elem_of_cons. naive_solver.
    + apply bool_decide_eq_true. intros ?%(elem_of_sublist _ l); auto using select_sublist.
  - rewrite <-IH by done. apply list_fmap_ext. intros i y Hy.
    apply list_elem_of_lookup_2 in Hy. apply bool_decide_ext.
    destruct b; [|done]. rewrite not_elem_of_cons. naive_solver.
Qed.

Lemma select_NoDup l m : NoDup l → NoDup (l ⋉ m).
Proof. intros; eapply sublist_NoDup; eauto using select_sublist. Qed.

Lemma select_Forall (P : A → Prop) l m : Forall P l → Forall P (l ⋉ m).
Proof. apply Forall_sublist, select_sublist. Qed.

(** What holds of every element the mask keeps holds of the selection. *)
Lemma Forall_select (P : A → Prop) l m :
  (∀ i x, l !! i = Some x → m !! i = Some true → P x) → Forall P (l ⋉ m).
Proof.
  intros HP. apply Forall_forall. intros x (i & ? & ?)%elem_of_select. eauto.
Qed.
End select.

(** ** Sorted lists *)
Lemma StronglySorted_lookup {A} (R : relation A) (l : list A) i j x y :
  StronglySorted R l → i < j → l !! i = Some x → l !! j = Some y → R x y.
Proof.
  intros Hs. revert i j. induction Hs as [|z l _ IH Hz]; intros i j Hij Hi Hj; [done|].
  destruct j as [|j]; [lia|]. destruct i as [|i]; simplify_eq/=.
  - rewrite Forall_forall in Hz. eapply Hz, list_elem_of_lookup_2, Hj.
  - apply (IH i j); [lia|done..].
Qed.

Lemma StronglySorted_sublist {A} (R : relation A) (l k : list A) :
  k `sublist_of` l → StronglySorted R l → StronglySorted R k.
Proof.
  induction 1 as [|x k l Hs IH|x k l Hs IH]; intros Hl; [done|..].
  - apply StronglySorted_cons in Hl as [Hx Hl]. constructor; [by apply IH|].
    by eapply Forall_sublist.
  - apply StronglySorted_cons in Hl as [_ Hl]. by apply IH.
Qed.

(** For a symmetric relation, being pairwise related does not depend on the
    order of the list. *)
Lemma StronglySorted_Permutation {A} (R : relation A) `{!Symmetric R} (l k : list A) :
  l ≡ₚ k → StronglySorted R l → StronglySorted R k.
Proof.
  induction 1 as [|x l k Hp IH|x y l|l k m _ IH1 _ IH2]; [done|..].
  - rewrite !StronglySorted_cons. intros [Hx Hl]. split; [by rewrite <-Hp|by apply IH].
  - rewrite !StronglySorted_cons, !Forall_cons. intros ([? ?] & ? & ?).
    split_and!; [by symmetry|done..].
  - auto.
Qed.

Lemma StronglySorted_and {A} (R S : relation A) (l : list A) :
  StronglySorted R l → StronglySorted S l → StronglySorted (λ x y, R x y ∧ S x y) l.
Proof.
  induction 1 as [|x l _ IH Hx]; intros HS; [constructor|].
  apply StronglySorted_cons in HS as [Hy HS]. constructor; [by apply IH|].
  rewrite Forall_forall in *. auto.
Qed.

(** ** Lemmas on [unique] *)
Section unique.
Context `{EqDecision A}.
Implicit Types (l : list A) (x : A).

Lemma elem_of_unique l x : x ∈ unique l ↔ x ∈ l.
Proof.
  induction l as [|y l IH]; simpl; [done|].
  rewrite !elem_of_cons, list_elem_of_filter, IH.
  destruct (decide (x = y)); naive_solver.
Qed.

Lemma NoDup_unique l : NoDup (unique l).
Proof.
  induction l as [|y l IH]; simpl; constructor.
  - rewrite list_elem_of_filter. naive_solver.
  - by apply NoDup_filter.
Qed.

Lemma unique_NoDup_id l : NoDup l → unique l = l.
Proof.
  induction 1 as [|x l Hx _ IH]; simpl; [done|]. rewrite IH. f_equal.
  apply filter_id_Forall, Forall_forall. by intros y Hy ->.
Qed.

Lemma unique_idemp l : unique (unique l) = unique l.
Proof. apply unique_NoDup_id, NoDup_unique. Qed.
End unique.

Lemma mask_count_replicate_true n : mask_count (replicate n true) = n.
Proof.
  unfold mask_count. induction n as [|n IH]; [done|]. cbn [replicate].
  rewrite filter_cons_True by done. cbn [length]. by rewrite IH.
Qed.

Lemma mask_count_le m : mask_count m ≤ length m.
Proof. unfold mask_count. apply length_filter. Qed.

#[export] Hint Resolve select_sublist select_NoDup select_Forall : frame.
#[export] Hint Rewrite @select_nil_r @select_none @select_fmap : frame.
