(* ===== verification/PyStr.v ===== *)
(** * PyStr: the Python string methods the script calls

    A Python [str] is modelled by the byte string of its UTF-8 encoding
    (Rocq's [string]).  [str.strip()], [str.lower()] and
    [str.replace(' ', '_')] are called on the column names at line 44 of
    [src/eda.py]; they are modelled on the ASCII range: [py_isspace] is
    [str.isspace] on code points below 128, [ascii_lower] maps [A-Z] to
    [a-z].  Bytes above 127 are left alone (Python would also lower-case
    non-ASCII capitals and strip non-ASCII blanks such as U+00A0).

    [str(n)] for an integer is stdpp's [pretty]. *)

From S2P Require Import Prelude.
From Stdlib Require Import Ascii.

(** ** Characters *)

(** [str.isspace] below 128: TAB, LF, VT, FF, CR, FS, GS, RS, US and space. *)
Definition py_isspace (c : ascii) : bool :=
  let n := N_of_ascii c in
  bool_decide (9 ≤ n ≤ 13)%N || bool_decide (28 ≤ n ≤ 32)%N.

Definition is_upper (c : ascii) : bool :=
  let n := N_of_ascii c in bool_decide (65 ≤ n ≤ 90)%N.

Definition ascii_lower (c : ascii) : ascii :=
  if is_upper c then ascii_of_N (N_of_ascii c + 32) else c.

(** One step of [s.replace(a, b)] for one-character [a] and [b]. *)
Definition subst_char (a b c : ascii) : ascii :=
  if decide (c = a) then b else c.

(** ** Strings *)

Fixpoint string_map (f : ascii → ascii) (s : string) : string :=
  match s with
  | "" => ""
  | String c s => String (f c) (string_map f s)
  end.

Fixpoint str_all (p : ascii → bool) (s : string) : bool :=
  match s with
  | "" => true
  | String c s => p c && str_all p s
  end.

(** [s.lower()] *)
Definition lower (s : string) : string := string_map ascii_lower s.

(** [s.replace(a, b)] for one-character [a] and [b] *)
Definition replace_char (a b : ascii) (s : string) : string :=
  string_map (subst_char a b) s.

(** [s.lstrip()] *)
Fixpoint lstrip (s : string) : string :=
  match s with
  | "" => ""
  | String c s' => if py_isspace c then lstrip s' else s
  end.

(** [s.rstrip()]: a character is kept when something is kept after it or
    when it is not a blank. *)
Fixpoint rstrip (s : string) : string :=
  match s with
  | "" => ""
  | String c s' =>
      match rstrip s' with
      | "" => if py_isspace c then "" else String c ""
      | r => String c r
      end
  end.

(** [s.strip()] *)
Definition strip (s : string) : string := lstrip (rstrip s).

(** The first and the last character of a string. *)
Definition first_char (s : string) : option ascii :=
  match s with "" => None | String c _ => Some c end.

Fixpoint last_char (s : string) : option ascii :=
  match s with
  | "" => None
  | String c s' => match last_char s' with None => Some c | o => o end
  end.

(** A string is [trimmed] when neither end is a blank. *)
Definition no_blank (o : option ascii) : Prop :=
  match o with Some c => py_isspace c = false | None => True end.

Definition trimmed (s : string) : Prop :=
  no_blank (first_char s) ∧ no_blank (last_char s).

#[global] Instance no_blank_dec o : Decision (no_blank o).
Proof. destruct o; simpl; apply _. Defined.
#[global] Instance trimmed_dec s : Decision (trimmed s).
Proof. unfold trimmed; apply _. Defined.

(** ** Characters: lemmas *)

Lemma ascii_lower_not_upper c : is_upper (ascii_lower c) = false.
Proof.
  unfold ascii_lower. destruct (is_upper c) eqn:Hc; [|done].
  revert Hc. unfold is_upper.
  destruct c as [[] [] [] [] [] [] [] []]; by vm_compute.
Qed.

Lemma ascii_lower_idemp c : ascii_lower (ascii_lower c) = ascii_lower c.
Proof.
  unfold ascii_lower at 1. by rewrite ascii_lower_not_upper.
Qed.

Lemma ascii_lower_isspace c : py_isspace (ascii_lower c) = py_isspace c.
Proof. destruct c as [[] [] [] [] [] [] [] []]; by vm_compute. Qed.

Lemma ascii_lower_fix c : is_upper c = false → ascii_lower c = c.
Proof. unfold ascii_lower. by intros ->. Qed.

Lemma subst_char_ne a b c : b ≠ a → subst_char a b c ≠ a.
Proof. unfold subst_char. case_decide; congruence. Qed.

Lemma subst_char_fix a b c : c ≠ a → subst_char a b c = c.
Proof. unfold subst_char. case_decide; congruence. Qed.

(** ** [string_map] and [str_all] *)

Lemma string_map_compose f g s :
  string_map f (string_map g s) = string_map (f ∘ g) s.
Proof. induction s; simpl; congruence. Qed.

Lemma string_map_ext f g s :
  (∀ c, f c = g c) → string_map f s = string_map g s.
Proof. intros Hfg. induction s; simpl; congruence. Qed.

Lemma string_map_id_on (p : ascii → bool) f s :
  (∀ c, p c = true → f c = c) → str_all p s = true → string_map f s = s.
Proof.
  intros Hf. induction s as [|c s IH]; simpl; [done|].
  intros [? ?]%andb_prop. rewrite Hf, IH by done. done.
Qed.

Lemma string_map_length f s : String.length (string_map f s) = String.length s.
Proof. induction s; simpl; congruence. Qed.

Lemma app_String c s t : String c s +:+ t = String c (s +:+ t).
Proof. done. Qed.

Lemma app_empty_l s : "" +:+ s = s.
Proof. done. Qed.

Lemma app_empty_r s : s +:+ "" = s.
Proof. induction s as [|c s IH]; [done|]. by rewrite app_String, IH. Qed.

Lemma string_map_app f s t :
  string_map f (s +:+ t) = string_map f s +:+ string_map f t.
Proof.
  induction s as [|c s IH]; [done|]. simpl. by rewrite !app_String, <-IH.
Qed.

Lemma str_all_map (p : ascii → bool) f s :
  (∀ c, p (f c) = true) → str_all p (string_map f s) = true.
Proof. intros Hp. induction s; simpl; [done|]. by rewrite Hp. Qed.

Lemma str_all_app p s t : str_all p (s +:+ t) = str_all p s && str_all p t.
Proof.
  induction s as [|c s IH]; [done|]. rewrite app_String. simpl.
  by rewrite IH, andb_assoc.
Qed.

Lemma str_all_impl (p q : ascii → bool) s :
  (∀ c, p c = true → q c = true) → str_all p s = true → str_all q s = true.
Proof.
  intros Hpq. induction s as [|c s IH]; simpl; [done|].
  intros [? ?]%andb_prop. rewrite Hpq, IH by done. done.
Qed.

#[export] Hint Rewrite string_map_compose string_map_length str_all_app : frame.

(** ** [lstrip], [rstrip], [strip] *)

Lemma lstrip_blanks a t : str_all py_isspace a = true → lstrip (a +:+ t) = lstrip t.
Proof.
  induction a as [|c a IH]; [done|]. rewrite app_String. simpl.
  intros [-> ?]%andb_prop. auto.
Qed.

Lemma lstrip_fix t : no_blank (first_char t) → lstrip t = t.
Proof. destruct t as [|c t]; simpl; [done|]. by intros ->. Qed.

Lemma first_char_lstrip s : no_blank (first_char (lstrip s)).
Proof.
  induction s as [|c s IH]; simpl; [done|].
  by destruct (py_isspace c) eqn:?.
Qed.

Lemma rstrip_empty s : rstrip s = "" ↔ str_all py_isspace s = true.
Proof.
  induction s as [|c s IH]; simpl; [done|].
  destruct (rstrip s) eqn:Hr, (py_isspace c); simpl; naive_solver.
Qed.

Lemma rstrip_blanks t b : str_all py_isspace b = true → rstrip (t +:+ b) = rstrip t.
Proof.
  intros Hb. induction t as [|c t IH].
  - rewrite app_empty_l. by apply rstrip_empty.
  - rewrite app_String. simpl. by rewrite IH.
Qed.

Lemma last_char_None s : last_char s = None ↔ s = "".
Proof. destruct s as [|c s]; simpl; [done|]. by destruct (last_char s). Qed.

Lemma last_char_app s t : t ≠ "" → last_char (s +:+ t) = last_char t.
Proof.
  intros Ht. induction s as [|c s IH]; [done|]. rewrite app_String. simpl.
  rewrite IH. destruct (last_char t) eqn:Hl; [done|].
  by apply last_char_None in Hl.
Qed.

Lemma rstrip_fix t : no_blank (last_char t) → rstrip t = t.
Proof.
  induction t as [|c t IH]; simpl; [done|].
  destruct (last_char t) eqn:Hl; simpl; intros Hc.
  - rewrite IH by done. destruct t; [done|done].
  - apply last_char_None in Hl as ->. simpl. by rewrite Hc.
Qed.

Lemma last_char_rstrip s : no_blank (last_char (rstrip s)).
Proof.
  induction s as [|c s IH]; simpl; [done|].
  destruct (rstrip s) as [|c' r] eqn:Hr.
  - by destruct (py_isspace c) eqn:?.
  - simpl in *. by destruct (last_char r).
Qed.

(** [lstrip s] is a suffix of [s]: it keeps the last character. *)
Lemma last_char_lstrip s : lstrip s = "" ∨ last_char (lstrip s) = last_char s.
Proof.
  induction s as [|c s IH]; simpl; [by left|].
  destruct (py_isspace c); [|by right].
  destruct IH as [?|IH]; [by left|].
  destruct (last_char s) eqn:Hl; [by right|left].
  by apply last_char_None in Hl as ->.
Qed.

(** [strip] returns a string with no blank at either end. *)
Lemma strip_trimmed s : trimmed (strip s).
Proof.
  split; [apply first_char_lstrip|]. unfold strip.
  destruct (last_char_lstrip (rstrip s)) as [->| ->]; [done|].
  apply last_char_rstrip.
Qed.

(** [strip] removes exactly the blanks around the trimmed core. *)
Lemma strip_blanks a t b :
  str_all py_isspace a = true → str_all py_isspace b = true → trimmed t →
  strip (a +:+ t +:+ b) = t.
Proof.
  intros Ha Hb [Hf Hl]. unfold strip. destruct (decide (t = "")) as [->|Ht].
  - rewrite app_empty_l.
    assert (rstrip (a +:+ b) = "") as -> by (apply rstrip_empty; rewrite str_all_app; by rewrite Ha, Hb).
    done.
  - replace (a +:+ t +:+ b) with ((a +:+ t) +:+ b)
      by (clear; induction a; [done|]; rewrite !app_String; congruence).
    rewrite rstrip_blanks, rstrip_fix by (by rewrite ?last_char_app).
    by rewrite lstrip_blanks, lstrip_fix.
Qed.

Lemma strip_fix t : trimmed t → strip t = t.
Proof.
  intros Ht. rewrite <-(strip_blanks "" t "") at 2 by done.
  by rewrite app_empty_l, app_empty_r.
Qed.

Lemma strip_idemp s : strip (strip s) = strip s.
Proof. apply strip_fix, strip_trimmed. Qed.

(** A character map that preserves blanks and non-blanks commutes with the
    trimmed-ness of a string. *)
Lemma first_char_map f s : first_char (string_map f s) = f <$> first_char s.
Proof. by destruct s. Qed.

Lemma last_char_map f s : last_char (string_map f s) = f <$> last_char s.
Proof.
  induction s as [|c s IH]; simpl; [done|]. rewrite IH.
  by destruct (last_char s).
Qed.

Lemma trimmed_map f s :
  (∀ c, py_isspace c = false → py_isspace (f c) = false) →
  trimmed s → trimmed (string_map f s).
Proof.
  intros Hf [H1 H2]. split; rewrite ?first_char_map, ?last_char_map.
  - destruct (first_char s); simpl in *; auto.
  - destruct (last_char s); simpl in *; auto.
Qed.

#[export] Hint Resolve strip_trimmed first_char_lstrip last_char_rstrip : frame.
#[export] Hint Rewrite strip_idemp : frame.

(** ** Decomposition: [strip] only removes blanks *)

Lemma app_assoc_s s t u : (s +:+ t) +:+ u = s +:+ (t +:+ u).
Proof. induction s as [|c s IH]; [done|]. by rewrite !app_String, IH. Qed.

Lemma lstrip_decompose s :
  ∃ a, s = a +:+ lstrip s ∧ str_all py_isspace a = true.
Proof.
  induction s as [|c s (a & Hs & Ha)]; [by exists ""|]. simpl.
  destruct (py_isspace c) eqn:Hc; [|by exists ""].
  exists (String c a). rewrite app_String, <-Hs. simpl. by rewrite Hc, Ha.
Qed.

Lemma rstrip_decompose s :
  ∃ b, s = rstrip s +:+ b ∧ str_all py_isspace b = true.
Proof.
  induction s as [|c s (b & Hs & Hb)]; [by exists ""|]. simpl.
  destruct (rstrip s) as [|c' r] eqn:Hr.
  - rewrite app_empty_l in Hs. subst b.
    destruct (py_isspace c) eqn:Hc.
    + exists (String c s). simpl. by rewrite Hc, Hb.
    + exists s. by rewrite !app_String, app_empty_l.
  - exists b. by rewrite app_String, <-Hs.
Qed.

Lemma strip_decompose s :
  ∃ a b, s = a +:+ strip s +:+ b ∧
         str_all py_isspace a = true ∧ str_all py_isspace b = true.
Proof.
  destruct (rstrip_decompose s) as (b & Hs & Hb).
  destruct (lstrip_decompose (rstrip s)) as (a & Hr & Ha).
  exists a, b. split; [|done]. unfold strip.
  by rewrite <-app_assoc_s, <-Hr.
Qed.

(** ** Concatenation is injective on each side *)

Lemma app_length_s s t :
  String.length (s +:+ t) = String.length s + String.length t.
Proof. induction s as [|c s IH]; [done|]. rewrite app_String. simpl. by rewrite IH. Qed.

Lemma app_inj_length s1 s2 t1 t2 :
  String.length s1 = String.length s2 → s1 +:+ t1 = s2 +:+ t2 →
  s1 = s2 ∧ t1 = t2.
Proof.
  revert s2. induction s1 as [|c s1 IH]; intros [|c' s2] Hlen; simplify_eq/=.
  - by rewrite !app_empty_l.
  - rewrite !app_String. intros [= -> H]. by destruct (IH _ Hlen H) as [-> ->].
Qed.

Lemma app_inj_r_s s1 s2 t : s1 +:+ t = s2 +:+ t → s1 = s2.
Proof.
  intros H. apply (app_inj_length s1 s2 t t); [|done].
  apply (f_equal String.length) in H. rewrite !app_length_s in H. lia.
Qed.
