(* ===== verification/Frame.v ===== *)
(** * Frame: the pandas data model of [src/eda.py]

    A [DataFrame] is an index of row labels and an ordered list of named
    columns; a column ([Series]) has a dtype and one cell per row.  The
    operations are the pandas calls of [load_data] and of the filter stage:
    attribute and item access, comparison with a scalar, boolean indexing,
    [drop] of rows by label and of columns by name, [fillna], [astype(str)],
    [isin], [unique], [select_dtypes] and [shape].  Each is modelled at the
    level of pandas' documented behaviour and mapped to the line of
    [src/eda.py] that calls it.

    Floating-point cells carry a rational; how a float prints ([repr]) is a
    parameter of the model ([FloatRepr]).  Boolean and datetime dtypes, which
    the per-game tables do not have, are not modelled. *)

From S2P Require Import Prelude PyStr.

(** ** Cells, dtypes, series, frames *)

(** The Python objects a cell of the scraped table can hold: [str], [int],
    [float] and the missing-value marker [nan]. *)
Inductive cell : Type :=
| CStr (s : string)
| CInt (z : Z)
| CFloat (q : Q)
| CNaN.

Inductive dtype : Type := DObject | DInt64 | DFloat64.

#[global] Instance cell_eq_dec : EqDecision cell.
Proof. solve_decision. Defined.
#[global] Instance dtype_eq_dec : EqDecision dtype.
Proof. solve_decision. Defined.
#[global] Instance CStr_inj : Inj (=) (=) CStr.
Proof. by intros ?? [= ->]. Qed.

(** The cells a column of a dtype may hold: anything in an [object] column,
    integers in [int64], floats and [nan] in [float64]. *)
Definition cell_ok (d : dtype) (c : cell) : bool :=
  match d, c with
  | DObject, _ => true
  | DInt64, CInt _ => true
  | DFloat64, (CFloat _ | CNaN) => true
  | _, _ => false
  end.

Record Series : Type := mkSeries {
  s_dtype : dtype;
  s_values : list cell
}.

Record DataFrame : Type := mkFrame {
  df_index : list nat;                 (* row labels *)
  df_cols : list (string * Series)     (* columns, in order *)
}.

#[global] Instance Series_eq_dec : EqDecision Series.
Proof. solve_decision. Defined.
#[global] Instance DataFrame_eq_dec : EqDecision DataFrame.
Proof. solve_decision. Defined.

(** [df.columns] *)
Definition columns (df : DataFrame) : list string := (df_cols df).*1.

(** [df.shape] *)
Definition shape (df : DataFrame) : nat * nat :=
  (length (df_index df), length (df_cols df)).

(** [df.empty]: no row or no column. *)
Definition frame_empty (df : DataFrame) : bool :=
  bool_decide (length (df_index df) = 0) || bool_decide (length (df_cols df) = 0).

(** ** Well-formed frames

    What pandas guarantees of a frame that [pd.read_html] returns: every
    column has one cell per row, cells fit the column's dtype, row labels
    are distinct (a [RangeIndex]) and so are the column names (the parser
    renames duplicates). *)
Definition series_ok (n : nat) (s : Series) : Prop :=
  length (s_values s) = n ∧ Forall (λ c, cell_ok (s_dtype s) c) (s_values s).

Record frame_wf (df : DataFrame) : Prop := mk_frame_wf {
  wf_series : Forall (λ c, series_ok (length (df_index df)) c.2) (df_cols df);
  wf_index : NoDup (df_index df);
  wf_names : NoDup (columns df)
}.

#[global] Instance series_ok_dec n s : Decision (series_ok n s).
Proof. unfold series_ok; apply _. Defined.

#[global] Instance frame_wf_dec df : Decision (frame_wf df).
Proof.
  destruct (decide
    (Forall (λ c, series_ok (length (df_index df)) c.2) (df_cols df)
     ∧ NoDup (df_index df) ∧ NoDup (columns df))) as [H|H]; [left|right].
  - by destruct H as (?&?&?).
  - intros []. by apply H.
Defined.

(** ** Column access *)

Fixpoint col_lookup (name : string) (cols : list (string * Series))
  : option Series :=
  match cols with
  | [] => None
  | (n, s) :: cols => if decide (n = name) then Some s else col_lookup name cols
  end.

(** [df[name]]: [KeyError] when there is no such column.  The model is
    that of a table with distinct column names ([wf_names]): for a
    duplicated label pandas returns a table instead of a column, which the
    script does not expect (with two columns named [team], line 47 would
    raise); the theorems on the whole run assume that the names stay
    distinct after line 44. *)
Definition getitem (name : string) (df : DataFrame) : result Series :=
  or_raise (KeyError name) (col_lookup name (df_cols df)).

(** [df.name]: [AttributeError] when there is no such column. *)
Definition getattr (name : string) (df : DataFrame) : result Series :=
  or_raise (AttributeError name) (col_lookup name (df_cols df)).

(** [name in df.columns] *)
Definition has_column (name : string) (df : DataFrame) : bool :=
  bool_decide (name ∈ columns df).

(** [df[name] = s]: replaces the column of that name, or appends one. *)
Fixpoint col_update (name : string) (s : Series) (cols : list (string * Series))
  : list (string * Series) :=
  match cols with
  | [] => [(name, s)]
  | (n, s') :: cols =>
      if decide (n = name) then (n, s) :: cols
      else (n, s') :: col_update name s cols
  end.

Definition setitem (name : string) (s : Series) (df : DataFrame) : DataFrame :=
  mkFrame (df_index df) (col_update name s (df_cols df)).

(** ** Masks and boolean indexing *)

(** [series == v] for a string [v]: true on the cells that are that text. *)
Definition series_eq_str (s : Series) (v : string) : list bool :=
  (λ c, bool_decide (c = CStr v)) <$> s_values s.

(** [series.isin(vs)] for a list of strings. *)
Definition cell_isin (vs : list string) (c : cell) : bool :=
  match c with CStr s => bool_decide (s ∈ vs) | _ => false end.

Definition isin (s : Series) (vs : list string) : list bool :=
  cell_isin vs <$> s_values s.

Definition series_select (m : list bool) (s : Series) : Series :=
  mkSeries (s_dtype s) (s_values s ⋉ m).

(** [df[mask]]: the rows at which the mask holds, with their labels. *)
Definition frame_select (df : DataFrame) (m : list bool) : DataFrame :=
  mkFrame (df_index df ⋉ m) (prod_map id (series_select m) <$> df_cols df).

(** ** Dropping rows and columns *)

(** [df.drop(labels)]: removes the rows with these labels; [KeyError] when a
    label is not in the index. *)
Definition drop_rows (labels : list nat) (df : DataFrame) : result DataFrame :=
  match list_find (λ l, l ∉ df_index df) labels with
  | Some (_, l) => Raise (KeyError (pretty l))
  | None =>
      Ok (frame_select df ((λ l, bool_decide (l ∉ labels)) <$> df_index df))
  end.

(** The frame without the columns of these names. *)
Definition remove_columns (names : list string) (df : DataFrame) : DataFrame :=
  mkFrame (df_index df) (filter (λ c, c.1 ∉ names) (df_cols df)).

(** [df.drop(names, axis=1)]: removes the columns with these names;
    [KeyError] when a name is not a column. *)
Definition drop_columns (names : list string) (df : DataFrame) : result DataFrame :=
  match list_find (λ n, n ∉ columns df) names with
  | Some (_, n) => Raise (KeyError n)
  | None => Ok (remove_columns names df)
  end.

(** ** Missing values *)

(** [fillna(v)] on one cell: an integer in an object column, a float in a
    float column. *)
Definition fill_cell (d : dtype) (v : Z) (c : cell) : cell :=
  match c with
  | CNaN => match d with DFloat64 => CFloat (inject_Z v) | _ => CInt v end
  | _ => c
  end.

Definition series_fillna (v : Z) (s : Series) : Series :=
  mkSeries (s_dtype s) (fill_cell (s_dtype s) v <$> s_values s).

(** [df.fillna(v)] *)
Definition fillna (v : Z) (df : DataFrame) : DataFrame :=
  mkFrame (df_index df) (prod_map id (series_fillna v) <$> df_cols df).

(** No cell of the frame is the missing-value marker. *)
Definition no_nan (df : DataFrame) : Prop :=
  Forall (λ c, CNaN ∉ s_values c.2) (df_cols df).

#[global] Instance no_nan_dec df : Decision (no_nan df).
Proof. unfold no_nan; apply _. Defined.

(** ** Column names *)

(** [df.columns = f(df.columns)] *)
Definition rename_columns (f : string → string) (df : DataFrame) : DataFrame :=
  mkFrame (df_index df) (prod_map f id <$> df_cols df).

(** ** Numeric columns *)

Definition is_numeric (d : dtype) : bool :=
  match d with DObject => false | _ => true end.

(** [df.select_dtypes(include=[np.number])] *)
Definition select_dtypes_number (df : DataFrame) : DataFrame :=
  mkFrame (df_index df) (filter (λ c, is_numeric (s_dtype c.2) = true) (df_cols df)).

(** ** Rows

    Row [i] of a frame: the cells of the columns at position [i]. *)
Definition frame_row (df : DataFrame) (i : nat) : list cell :=
  omap (λ c, s_values c.2 !! i) (df_cols df).

Definition frame_rows (df : DataFrame) : list (list cell) :=
  frame_row df <$> seq 0 (length (df_index df)).

(** The cell of column [name] in row [i]. *)
Definition frame_cell (df : DataFrame) (name : string) (i : nat) : option cell :=
  col_lookup name (df_cols df) ≫= λ s, s_values s !! i.

(** ** Text of a cell

    How Python prints a float ([repr], the shortest decimal that reads back
    as the same double) is a parameter of the model. *)
Class FloatRepr := float_repr : Q → string.

Section text.
Context {fr : FloatRepr}.

(** [str(x)] *)
Definition py_str (c : cell) : string :=
  match c with
  | CStr s => s
  | CInt z => pretty z
  | CFloat q => float_repr q
  | CNaN => "nan"
  end.

(** [series.astype(str)]: every cell becomes its text, in an object column. *)
Definition astype_str (s : Series) : Series :=
  mkSeries DObject (CStr ∘ py_str <$> s_values s).
End text.

(** The instance used in the examples.  It prints the decimal expansion of
    the rational, cut after 17 fractional digits, with at least one
    fractional digit: what Python prints for a float whose shortest decimal
    form has no exponent (magnitude between 1e-4 and 1e16) and at most 15
    significant digits, e.g. [0.0], [25.3], [-0.5]; not what Python prints
    for other values. *)
Fixpoint frac_digits (fuel : nat) (n d : Z) : string :=
  match fuel with
  | 0 => ""
  | S fuel =>
      if decide (n = 0)%Z then ""
      else pretty ((10 * n) / d)%Z +:+ frac_digits fuel ((10 * n) `mod` d)%Z d
  end.

Definition decimal_repr : FloatRepr := λ q,
  let d := Z.pos (Qden q) in
  let a := Z.abs (Qnum q) in
  (if decide (Qnum q < 0)%Z then "-" else "") +:+ pretty (a / d)%Z +:+ "." +:+
  (if decide (a `mod` d = 0)%Z then "0" else frac_digits 17 (a `mod` d)%Z d).

(** The cells of a series are all text. *)
Definition all_str (s : Series) : Prop :=
  Forall (λ c, ∃ t, c = CStr t) (s_values s).

(** ** A sample table

    A raw table in the shape [pd.read_html] returns for a per-game page: all
    columns of dtype object, one repeated header row (label 2), a missing
    cell in the last row. *)
Definition obj (l : list cell) : Series := mkSeries DObject l.

Definition sample_age : Series :=
  obj [CStr "25"; CStr "31"; CStr "Age"; CStr "22"; CStr "25"].

Definition sample_raw : DataFrame :=
  mkFrame [0; 1; 2; 3; 4]
    [("Rk", obj [CStr "1"; CStr "2"; CStr "Rk"; CStr "3"; CStr "4"]);
     ("Player", obj [CStr "A"; CStr "B"; CStr "Player"; CStr "C"; CStr "D"]);
     ("Age", sample_age);
     ("Team", obj [CStr "BOS"; CStr "LAL"; CStr "Team"; CStr "BOS"; CStr "DEN"]);
     ("Pos", obj [CStr "PG"; CStr "SF"; CStr "Pos"; CStr "C"; CStr "SG-PG"]);
     ("PTS", obj [CStr "30.1"; CStr "10.0"; CStr "PTS"; CStr "4.5"; CNaN])].

(** * Lemmas *)

(** ** Column access: lemmas *)
Section access.
Implicit Types (df : DataFrame) (s : Series) (cols : list (string * Series)).

Lemma col_lookup_Some name cols s :
  col_lookup name cols = Some s → (name, s) ∈ cols.
Proof.
  induction cols as [|[n s'] cols IH]; simpl; [done|].
  case_decide; intros; simplify_eq; [left|right; auto].
Qed.

Lemma col_lookup_None name cols : col_lookup name cols = None ↔ name ∉ cols.*1.
Proof.
  induction cols as [|[n s'] cols IH]; simpl.
  - split; [intros _; apply not_elem_of_nil|done].
  - rewrite not_elem_of_cons. case_decide; naive_solver.
Qed.

Lemma col_lookup_is_Some name cols :
  is_Some (col_lookup name cols) ↔ name ∈ cols.*1.
Proof.
  rewrite <-not_eq_None_Some, col_lookup_None.
  destruct (decide (name ∈ cols.*1)); naive_solver.
Qed.

(** With distinct names, lookup finds any column of the list. *)
Lemma col_lookup_NoDup name cols s :
  NoDup cols.*1 → (name, s) ∈ cols → col_lookup name cols = Some s.
Proof.
  induction cols as [|[n s'] cols IH]; simpl; [by intros _ ?%elem_of_nil|].
  intros [Hn Hnd]%NoDup_cons [?|Hin]%elem_of_cons; simplify_eq.
  - by rewrite decide_True.
  - rewrite decide_False; [auto|]. intros ->. apply Hn.
    apply list_elem_of_fmap. by exists (name, s).
Qed.

Lemma col_lookup_fmap (g : Series → Series) name cols :
  col_lookup name (prod_map id g <$> cols) = g <$> col_lookup name cols.
Proof.
  induction cols as [|[n s'] cols IH]; simpl; [done|]. by case_decide.
Qed.

Lemma col_lookup_rename (f : string → string) name cols s :
  col_lookup name cols = Some s → NoDup (f <$> cols.*1) →
  col_lookup (f name) (prod_map f id <$> cols) = Some s.
Proof.
  induction cols as [|[n s'] cols IH]; simpl; [done|].
  intros Hl [Hn Hnd]%NoDup_cons. case_decide; simplify_eq.
  - by rewrite decide_True.
  - rewrite decide_False; [auto|]. intros Hf. apply Hn. rewrite Hf.
    apply list_elem_of_fmap. exists name. split; [done|].
    apply col_lookup_is_Some. eauto.
Qed.

Lemma col_lookup_filter (P : string → Prop)
    `{H1 : ∀ c : string * Series, Decision (P c.1)}
    `{H2 : ∀ n, Decision (P n)} name cols :
  col_lookup name (filter (λ c, P c.1) cols) =
  if decide (P name) then col_lookup name cols else None.
Proof.
  induction cols as [|[n s'] cols IH]; simpl; [by case_decide|].
  destruct (decide (P n)) as [Hn|Hn].
  - rewrite filter_cons_True by done. simpl.
    repeat case_decide; simplify_eq; done.
  - rewrite filter_cons_False by done. rewrite IH.
    repeat case_decide; simplify_eq; done.
Qed.

Lemma col_lookup_update name name' s cols :
  col_lookup name' (col_update name s cols) =
  if decide (name = name') then Some s else col_lookup name' cols.
Proof.
  induction cols as [|[n s'] cols IH]; simpl; [done|].
  destruct (decide (n = name)) as [->|Hn]; simpl; [|rewrite IH];
    repeat case_decide; by simplify_eq.
Qed.

Lemma col_update_names name s cols :
  (col_update name s cols).*1 =
  if decide (name ∈ cols.*1) then cols.*1 else cols.*1 ++ [name].
Proof.
  induction cols as [|[n s'] cols IH]; [done|]. csimpl.
  - destruct (decide (n = name)) as [->|Hn]; csimpl.
    + by rewrite decide_True by left.
    + rewrite IH. destruct (decide (name ∈ cols.*1)).
      * by rewrite decide_True by (by right).
      * by rewrite decide_False by (rewrite elem_of_cons; naive_solver).
Qed.

Lemma has_column_getitem name df :
  has_column name df = true ↔ is_Ok (getitem name df).
Proof.
  unfold has_column, getitem, is_Ok, columns.
  rewrite bool_decide_eq_true, <-col_lookup_is_Some.
  destruct (col_lookup _ _); simpl; split; intros [? ?]; by eauto.
Qed.

Lemma getitem_Raise name df e :
  getitem name df = Raise e ↔ name ∉ columns df ∧ e = KeyError name.
Proof.
  unfold getitem, columns. rewrite or_raise_Raise, col_lookup_None. done.
Qed.

Lemma getattr_Raise name df e :
  getattr name df = Raise e ↔ name ∉ columns df ∧ e = AttributeError name.
Proof.
  unfold getattr, columns. rewrite or_raise_Raise, col_lookup_None. done.
Qed.
End access.

(** ** Boolean indexing: lemmas *)
Section select_ops.
Implicit Types (df : DataFrame) (s : Series) (m : list bool).

Lemma frame_select_columns df m : columns (frame_select df m) = columns df.
Proof.
  unfold columns, frame_select. simpl. rewrite <-list_fmap_compose.
  by apply list_fmap_ext; intros ? [].
Qed.

Lemma frame_select_index df m : df_index (frame_select df m) = df_index df ⋉ m.
Proof. done. Qed.

Lemma frame_select_lookup df m name :
  col_lookup name (df_cols (frame_select df m)) =
  series_select m <$> col_lookup name (df_cols df).
Proof. apply col_lookup_fmap. Qed.

(** Boolean indexing keeps a frame well formed, whatever the mask. *)
Lemma frame_select_wf df m : frame_wf df → frame_wf (frame_select df m).
Proof.
  intros [Hs Hi Hn]. split.
  - simpl. rewrite Forall_fmap. eapply Forall_impl; [exact Hs|].
    intros [n s] [Hlen Hok]; simpl in *. split; simpl.
    + by apply select_length_eq.
    + by apply select_Forall.
  - by apply select_NoDup.
  - by rewrite frame_select_columns.
Qed.

(** The shape after boolean indexing with a mask as long as the index. *)
Lemma frame_select_shape df m :
  length m = length (df_index df) →
  shape (frame_select df m) = (mask_count m, (shape df).2).
Proof.
  intros Hm. unfold shape. simpl.
  by rewrite select_length, length_fmap.
Qed.

(** The all-true mask selects the whole frame. *)
Lemma frame_select_all df :
  frame_wf df → frame_select df (replicate (length (df_index df)) true) = df.
Proof.
  intros [Hs _ _]. destruct df as [idx cols]; simpl in *.
  unfold frame_select; simpl. f_equal; [by apply select_all|].
  apply list_fmap_id_on. eapply Forall_impl; [exact Hs|].
  intros [n [d v]] [Hlen _]; simpl in *.
  unfold series_select; simpl. do 2 f_equal. apply select_all. lia.
Qed.

(** The all-false mask selects no row and keeps the columns. *)
Lemma frame_select_none df n :
  df_index (frame_select df (replicate n false)) = [] ∧
  columns (frame_select df (replicate n false)) = columns df.
Proof. split; [apply select_none|apply frame_select_columns]. Qed.

(** Selecting by a conjunction of two masks is selecting twice. *)
Lemma frame_select_and df m1 m2 :
  frame_select df (m1 &&* m2) = frame_select (frame_select df m1) (m2 ⋉ m1).
Proof.
  unfold frame_select; simpl. f_equal; [apply select_and|].
  rewrite <-list_fmap_compose. apply list_fmap_ext. intros _ [n [d v]] _.
  unfold series_select; simpl. by rewrite select_and.
Qed.
End select_ops.

(** ** [fillna]: lemmas *)
Section fillna.
Implicit Types (df : DataFrame) (s : Series) (v : Z).

Lemma fill_cell_ok d v c : cell_ok d c → cell_ok d (fill_cell d v c).
Proof. by destruct d, c. Qed.

Lemma fill_cell_not_nan d v c : fill_cell d v c ≠ CNaN.
Proof. by destruct d, c. Qed.

Lemma fill_cell_id d v c : c ≠ CNaN → fill_cell d v c = c.
Proof. by destruct c. Qed.

Lemma fillna_columns v df : columns (fillna v df) = columns df.
Proof.
  unfold columns, fillna. simpl. rewrite <-list_fmap_compose.
  by apply list_fmap_ext; intros ? [].
Qed.

Lemma fillna_lookup v df name :
  col_lookup name (df_cols (fillna v df)) =
  series_fillna v <$> col_lookup name (df_cols df).
Proof. apply col_lookup_fmap. Qed.

Lemma fillna_shape v df : shape (fillna v df) = shape df.
Proof. unfold shape, fillna. simpl. by rewrite length_fmap. Qed.

Lemma fillna_wf v df : frame_wf df → frame_wf (fillna v df).
Proof.
  intros [Hs Hi Hn]. split; [|done|by rewrite fillna_columns].
  simpl. rewrite Forall_fmap. eapply Forall_impl; [exact Hs|].
  intros [n s] [Hlen Hok]; simpl in *. split; simpl.
  - by rewrite length_fmap.
  - rewrite Forall_fmap. eapply Forall_impl; [exact Hok|].
    intros c. apply fill_cell_ok.
Qed.

(** After [fillna] no cell is missing. *)
Lemma fillna_no_nan v df : no_nan (fillna v df).
Proof.
  unfold no_nan, fillna. simpl. rewrite Forall_fmap. apply Forall_true.
  intros [n s]; simpl. intros (c & Hc & _)%list_elem_of_fmap.
  by eapply fill_cell_not_nan.
Qed.

(** [fillna] changes nothing on a frame without missing cells. *)
Lemma fillna_id v df : no_nan df → fillna v df = df.
Proof.
  destruct df as [idx cols]. unfold no_nan, fillna; simpl. intros Hn.
  f_equal. apply list_fmap_id_on. eapply Forall_impl; [exact Hn|].
  intros [n [d vs]]; simpl. intros Hc.
  unfold series_fillna; simpl. do 2 f_equal.
  apply list_fmap_id_on, Forall_forall. intros c Hi.
  apply fill_cell_id. by intros ->.
Qed.

Lemma fillna_idemp v w df : fillna w (fillna v df) = fillna v df.
Proof. apply fillna_id, fillna_no_nan. Qed.

(** [fillna] does not touch the cells that are present. *)
Lemma fillna_cell v df name i c :
  frame_cell df name i = Some c → c ≠ CNaN →
  frame_cell (fillna v df) name i = Some c.
Proof.
  unfold frame_cell. rewrite fillna_lookup.
  destruct (col_lookup name (df_cols df)) as [s|]; simpl; [|done].
  intros Hc ?. rewrite list_lookup_fmap, Hc. simpl. by rewrite fill_cell_id.
Qed.
End fillna.

(** ** [drop] of columns: lemmas *)
Section drop_columns_lemmas.
Implicit Types (df : DataFrame) (s : Series) (names : list string).

Lemma remove_columns_columns names df :
  columns (remove_columns names df) = filter (λ n, n ∉ names) (columns df).
Proof. apply (filter_fmap_comm fst (λ n, n ∉ names)). Qed.

(** A removed column is gone; the others keep their cells. *)
Lemma remove_columns_lookup names df name :
  col_lookup name (df_cols (remove_columns names df)) =
  if decide (name ∈ names) then None else col_lookup name (df_cols df).
Proof.
  unfold remove_columns; simpl. rewrite (col_lookup_filter (λ n, n ∉ names)).
  by destruct (decide (name ∈ names));
    [rewrite decide_False by auto|rewrite decide_True].
Qed.

Lemma remove_columns_wf names df : frame_wf df → frame_wf (remove_columns names df).
Proof.
  intros [Hs Hi Hn]. split; [by apply Forall_filter|done|].
  rewrite remove_columns_columns. by apply NoDup_filter.
Qed.

Lemma remove_columns_no_nan names df : no_nan df → no_nan (remove_columns names df).
Proof. apply Forall_filter. Qed.

(** Removing one column that is there leaves one column less. *)
Lemma remove_column_shape name df :
  frame_wf df → name ∈ columns df →
  shape (remove_columns [name] df) = ((shape df).1, (shape df).2 - 1).
Proof.
  intros [_ _ Hn] Hin. unfold shape. f_equal.
  rewrite <-(length_fmap fst (df_cols (remove_columns _ _))).
  rewrite <-(length_fmap fst (df_cols df)).
  fold (columns (remove_columns [name] df)) (columns df).
  rewrite remove_columns_columns. by apply length_filter_remove.
Qed.

(** [drop] of columns: the two outcomes. *)
Lemma drop_columns_Ok names df :
  names ⊆ columns df → drop_columns names df = Ok (remove_columns names df).
Proof.
  intros Hsub. unfold drop_columns.
  destruct (list_find _ names) as [[i n]|] eqn:Hf; [|done].
  apply list_find_Some in Hf as (Hi & Hn & _).
  destruct Hn. by apply Hsub, list_elem_of_lookup_2 with i.
Qed.

Lemma drop_columns_Raise names df e :
  drop_columns names df = Raise e →
  ∃ n, e = KeyError n ∧ n ∈ names ∧ n ∉ columns df.
Proof.
  unfold drop_columns.
  destruct (list_find _ names) as [[i n]|] eqn:Hf; [|done].
  apply list_find_Some in Hf as (Hi & Hn & _). intros [= <-].
  exists n. eauto using list_elem_of_lookup_2.
Qed.

Lemma drop_columns_inv names df df' :
  drop_columns names df = Ok df' →
  names ⊆ columns df ∧ df' = remove_columns names df.
Proof.
  unfold drop_columns.
  destruct (list_find _ names) as [[i n]|] eqn:Hf; [done|].
  intros [= <-]. split; [|done].
  apply list_find_None in Hf. intros n Hn.
  rewrite Forall_forall in Hf. specialize (Hf n Hn).
  by destruct (decide (n ∈ columns df)).
Qed.

Lemma drop_columns_wf names df df' :
  drop_columns names df = Ok df' → frame_wf df → frame_wf df'.
Proof. intros (_ & ->)%drop_columns_inv. apply remove_columns_wf. Qed.
End drop_columns_lemmas.

(** ** [drop] of rows: lemmas *)
Section drop_rows_lemmas.
Implicit Types (df : DataFrame) (s : Series) (labels : list nat) (m : list bool).

Lemma drop_rows_Ok labels df :
  labels ⊆ df_index df →
  drop_rows labels df =
    Ok (frame_select df ((λ l, bool_decide (l ∉ labels)) <$> df_index df)).
Proof.
  intros Hsub. unfold drop_rows.
  destruct (list_find _ labels) as [[i n]|] eqn:Hf; [|done].
  apply list_find_Some in Hf as (Hi & Hn & _).
  destruct Hn. by apply Hsub, list_elem_of_lookup_2 with i.
Qed.

Lemma drop_rows_inv labels df df' :
  drop_rows labels df = Ok df' →
  labels ⊆ df_index df ∧
  df' = frame_select df ((λ l, bool_decide (l ∉ labels)) <$> df_index df).
Proof.
  unfold drop_rows.
  destruct (list_find _ labels) as [[i n]|] eqn:Hf; [done|].
  intros [= <-]. split; [|done].
  apply list_find_None in Hf. intros n Hn.
  rewrite Forall_forall in Hf. specialize (Hf n Hn).
  by destruct (decide (n ∈ df_index df)).
Qed.

Lemma drop_rows_wf labels df df' :
  drop_rows labels df = Ok df' → frame_wf df → frame_wf df'.
Proof. intros (_ & ->)%drop_rows_inv. apply frame_select_wf. Qed.

(** The labels that remain are those that were not dropped, in order. *)
Lemma drop_rows_index labels df df' :
  drop_rows labels df = Ok df' →
  df_index df' = filter (λ l, l ∉ labels) (df_index df).
Proof.
  intros (_ & ->)%drop_rows_inv. simpl.
  rewrite (select_fmap_mask (λ l, bool_decide (l ∉ labels))).
  apply list_filter_iff. intros l. by rewrite bool_decide_eq_true.
Qed.

(** The idiom of line 36: dropping the labels of the rows a mask selects is
    selecting by the negated mask. *)
Lemma drop_selected_rows df m :
  NoDup (df_index df) → length m = length (df_index df) →
  drop_rows (df_index (frame_select df m)) df = Ok (frame_select df (negb <$> m)).
Proof.
  intros Hnd Hm. rewrite drop_rows_Ok.
  - simpl. by rewrite select_complement.
  - intros l Hl. eapply elem_of_sublist; [exact Hl|apply select_sublist].
Qed.
End drop_rows_lemmas.

(** ** Renaming and assigning columns: lemmas *)
Section columns_ops.
Implicit Types (df : DataFrame) (s : Series).

Lemma rename_columns_columns f df : columns (rename_columns f df) = f <$> columns df.
Proof.
  unfold columns, rename_columns. simpl. rewrite <-!list_fmap_compose.
  by apply list_fmap_ext; intros ? [].
Qed.

Lemma rename_columns_shape f df : shape (rename_columns f df) = shape df.
Proof. unfold shape, rename_columns. simpl. by rewrite length_fmap. Qed.

(** Renaming keeps a frame well formed when the new names are distinct. *)
Lemma rename_columns_wf f df :
  frame_wf df → NoDup (f <$> columns df) → frame_wf (rename_columns f df).
Proof.
  intros [Hs Hi _] Hn. split; [|done|by rewrite rename_columns_columns].
  simpl. rewrite Forall_fmap. eapply Forall_impl; [exact Hs|]. by intros [].
Qed.

(** A column is found under its new name. *)
Lemma rename_columns_lookup f df name s :
  col_lookup name (df_cols df) = Some s → NoDup (f <$> columns df) →
  col_lookup (f name) (df_cols (rename_columns f df)) = Some s.
Proof. apply col_lookup_rename. Qed.

Lemma rename_columns_id f df :
  Forall (λ n, f n = n) (columns df) → rename_columns f df = df.
Proof.
  destruct df as [idx cols]. unfold rename_columns, columns; simpl.
  rewrite Forall_fmap. intros Hf. f_equal. apply list_fmap_id_on.
  eapply Forall_impl; [exact Hf|]. intros [n s]; simpl. by intros ->.
Qed.

Lemma rename_columns_compose f g df :
  rename_columns f (rename_columns g df) = rename_columns (f ∘ g) df.
Proof.
  unfold rename_columns; simpl. f_equal. rewrite <-list_fmap_compose.
  by apply list_fmap_ext; intros ? [].
Qed.

Lemma setitem_columns name s df :
  name ∈ columns df → columns (setitem name s df) = columns df.
Proof.
  intros Hin. unfold columns, setitem. simpl.
  by rewrite col_update_names, decide_True.
Qed.

Lemma setitem_lookup name name' s df :
  col_lookup name' (df_cols (setitem name s df)) =
  if decide (name = name') then Some s else col_lookup name' (df_cols df).
Proof. apply col_lookup_update. Qed.

Lemma col_update_Forall (P : Series → Prop) name s cols :
  P s → Forall (λ c, P c.2) cols → Forall (λ c, P c.2) (col_update name s cols).
Proof.
  intros Hs. induction 1 as [|[n s'] cols Hc Hcols IH]; simpl.
  - by repeat constructor.
  - case_decide; constructor; simpl; auto.
Qed.

(** Assigning a series of the right length keeps the frame well formed. *)
Lemma setitem_wf name s df :
  frame_wf df → name ∈ columns df → series_ok (length (df_index df)) s →
  frame_wf (setitem name s df).
Proof.
  intros [Hs Hi Hn] Hin Hok. split; [|done|by rewrite setitem_columns].
  simpl. by apply (col_update_Forall (series_ok _)).
Qed.

Lemma setitem_shape name s df :
  name ∈ columns df → shape (setitem name s df) = shape df.
Proof.
  intros Hin. unfold shape. simpl. f_equal.
  rewrite <-(length_fmap fst), col_update_names, decide_True by done.
  by rewrite length_fmap.
Qed.
End columns_ops.

(** ** [astype(str)], [isin]: lemmas *)
Section text_lemmas.
Context {fr : FloatRepr}.
Implicit Types (df : DataFrame) (s : Series).

Lemma astype_str_ok n s : length (s_values s) = n → series_ok n (astype_str s).
Proof.
  intros Hn. split; simpl; [by rewrite length_fmap|].
  by apply Forall_fmap, Forall_true.
Qed.

Lemma astype_str_all_str s : all_str (astype_str s).
Proof.
  unfold all_str. simpl. apply Forall_fmap, Forall_true. intros c. by eexists.
Qed.

(** Text cells are left as they are. *)
Lemma astype_str_id s : all_str s → s_values (astype_str s) = s_values s.
Proof.
  unfold all_str. simpl. intros Hs. apply list_fmap_id_on.
  eapply Forall_impl; [exact Hs|]. by intros c [t ->].
Qed.

Lemma all_str_select s m : all_str s → all_str (series_select m s).
Proof. apply select_Forall. Qed.

Lemma all_str_no_nan s : all_str s → CNaN ∉ s_values s.
Proof.
  unfold all_str. rewrite Forall_forall. intros Hs Hin.
  by destruct (Hs _ Hin).
Qed.

(** On a text column [isin] is membership of the text. *)
Lemma isin_cell vs c : cell_isin vs c = true ↔ ∃ t, c = CStr t ∧ t ∈ vs.
Proof.
  destruct c; simpl; rewrite ?bool_decide_eq_true; naive_solver.
Qed.

Lemma isin_length s vs : length (isin s vs) = length (s_values s).
Proof. unfold isin. by rewrite length_fmap. Qed.

Lemma isin_nil s : isin s [] = replicate (length (s_values s)) false.
Proof.
  unfold isin. induction (s_values s) as [|c l IH]; [done|]. csimpl.
  rewrite IH. f_equal. by destruct c.
Qed.

(** When every value of the column is selected, [isin] is the all-true mask. *)
Lemma isin_all s vs :
  Forall (λ c, ∃ t, c = CStr t ∧ t ∈ vs) (s_values s) →
  isin s vs = replicate (length (s_values s)) true.
Proof.
  unfold isin. induction 1 as [|c l (t & -> & Ht) _ IH]; [done|]. csimpl.
  rewrite IH. f_equal. by apply bool_decide_eq_true.
Qed.
End text_lemmas.

(** ** Masks and well-formed columns *)
Section masks.
Implicit Types (df : DataFrame) (s : Series).

Lemma series_eq_str_length s v : length (series_eq_str s v) = length (s_values s).
Proof. unfold series_eq_str. by rewrite length_fmap. Qed.

(** The column found by a lookup in a well-formed frame has one cell per row. *)
Lemma lookup_series_ok df name s :
  frame_wf df → col_lookup name (df_cols df) = Some s →
  series_ok (length (df_index df)) s.
Proof.
  intros [Hs _ _] Hl%col_lookup_Some. rewrite Forall_forall in Hs.
  apply (Hs _ Hl).
Qed.
End masks.

(** ** Rows of a well-formed frame *)
Section rows.
Implicit Types (df : DataFrame).

Lemma frame_row_length df i :
  frame_wf df → i < length (df_index df) →
  length (frame_row df i) = length (df_cols df).
Proof.
  intros [Hs _ _] Hi. unfold frame_row.
  induction Hs as [|[n s] cols [Hl _] _ IH]; [done|]. csimpl in *.
  destruct (lookup_lt_is_Some_2 (s_values s) i) as [c ->]; [lia|].
  simpl. by rewrite IH.
Qed.

Lemma frame_rows_length df : length (frame_rows df) = length (df_index df).
Proof. unfold frame_rows. by rewrite length_fmap, length_seq. Qed.

Lemma frame_rows_width df :
  frame_wf df → Forall (λ r, length r = length (df_cols df)) (frame_rows df).
Proof.
  intros Hwf. unfold frame_rows. apply Forall_fmap, Forall_forall.
  intros i [_ Hi]%elem_of_seq. by apply frame_row_length.
Qed.
End rows.
