(* ===== verification/Cleaner.v ===== *)
(** * Cleaner: the cleaning steps of [load_data] and the column normalisation

    Lines 36-38 of [src/eda.py] (inside [load_data]): the repeated header
    rows are dropped by label, missing values are replaced by 0, the rank
    column [Rk] is dropped.  Line 44: the column names are stripped,
    lower-cased and their spaces replaced by underscores.  Line 45: the
    [team] column becomes text. *)

From S2P Require Import Prelude PyStr Frame.
From Stdlib Require Import Ascii.

(** ** Definitions *)

(** [df[df.Age == 'Age'].index]: the labels of the repeated header rows. *)
Definition header_rows (df : DataFrame) : result (list nat) :=
  age ← getattr "Age" df;
  mret (df_index (frame_select df (series_eq_str age "Age"))).

(** Line 36: [raw = df.drop(df[df.Age == 'Age'].index)] *)
Definition drop_header_rows (df : DataFrame) : result DataFrame :=
  labels ← header_rows df;
  drop_rows labels df.

(** Lines 36-39: the cleaning part of [load_data]. *)
Definition clean_raw (df : DataFrame) : result DataFrame :=
  raw ← drop_header_rows df;
  let raw := fillna 0 raw in
  playerstats ← drop_columns ["Rk"] raw;
  mret playerstats.

(** Line 44 on one name: [name.strip().lower().replace(' ', '_')] *)
Definition normalize_name (name : string) : string :=
  replace_char " "%char "_"%char (lower (strip name)).

(** Line 44: [playerstats.columns = playerstats.columns.str.strip()...] *)
Definition normalize_columns (df : DataFrame) : DataFrame :=
  rename_columns normalize_name df.

Section team_text.
Context {fr : FloatRepr}.

(** Line 45: [playerstats['team'] = playerstats['team'].astype(str)] *)
Definition team_as_text (df : DataFrame) : result DataFrame :=
  team ← getitem "team" df;
  mret (setitem "team" (astype_str team) df).

(** Lines 44-45. *)
Definition prepare (df : DataFrame) : result DataFrame :=
  team_as_text (normalize_columns df).
End team_text.

(** The mask of the rows that are not repeated headers. *)
Definition data_rows (age : Series) : list bool :=
  negb <$> series_eq_str age "Age".

(** The frame [clean_raw] returns, in closed form: the data rows, with the
    missing cells filled, without the rank column. *)
Definition cleaned (df : DataFrame) (age : Series) : DataFrame :=
  remove_columns ["Rk"] (fillna 0 (frame_select df (data_rows age))).

(** What [clean_raw] returns on the sample table. *)
Definition sample_clean : DataFrame :=
  mkFrame [0; 1; 3; 4]
    [("Player", obj [CStr "A"; CStr "B"; CStr "C"; CStr "D"]);
     ("Age", obj [CStr "25"; CStr "31"; CStr "22"; CStr "25"]);
     ("Team", obj [CStr "BOS"; CStr "LAL"; CStr "BOS"; CStr "DEN"]);
     ("Pos", obj [CStr "PG"; CStr "SF"; CStr "C"; CStr "SG-PG"]);
     ("PTS", obj [CStr "30.1"; CStr "10.0"; CStr "4.5"; CInt 0])].

(** The sample table after lines 44-45. *)
Definition sample_stats : DataFrame :=
  mkFrame [0; 1; 3; 4]
    [("player", obj [CStr "A"; CStr "B"; CStr "C"; CStr "D"]);
     ("age", obj [CStr "25"; CStr "31"; CStr "22"; CStr "25"]);
     ("team", obj [CStr "BOS"; CStr "LAL"; CStr "BOS"; CStr "DEN"]);
     ("pos", obj [CStr "PG"; CStr "SF"; CStr "C"; CStr "SG-PG"]);
     ("pts", obj [CStr "30.1"; CStr "10.0"; CStr "4.5"; CInt 0])].

(** A name is [normal] when [normalize_name] has nothing to do on it: no
    blank at either end, no ASCII capital, no space. *)
Definition normal_char (c : ascii) : bool :=
  negb (is_upper c) && negb (bool_decide (c = " "%char)).

Definition normal_name (name : string) : Prop :=
  trimmed name ∧ str_all normal_char name = true.

#[global] Instance normal_name_dec name : Decision (normal_name name).
Proof. unfold normal_name; apply _. Defined.

(** ** Dropping the header rows *)
Section header.
Implicit Types (df : DataFrame) (age : Series).

(** Line 36 is a row filter: on a frame with distinct labels, dropping the
    labels of the header rows keeps exactly the rows whose [Age] cell is not
    the text "Age". *)
Lemma drop_header_rows_select df age :
  frame_wf df → col_lookup "Age" (df_cols df) = Some age →
  drop_header_rows df = Ok (frame_select df (data_rows age)).
Proof.
  intros Hwf Hage. unfold drop_header_rows, header_rows, getattr.
  rewrite Hage. simpl. apply drop_selected_rows; [apply Hwf|].
  rewrite series_eq_str_length. by apply (lookup_series_ok df "Age").
Qed.

Lemma drop_header_rows_Raise df e :
  drop_header_rows df = Raise e → frame_wf df →
  "Age" ∉ columns df ∧ e = AttributeError "Age".
Proof.
  intros He Hwf. destruct (col_lookup "Age" (df_cols df)) as [age|] eqn:Hage.
  - by rewrite (drop_header_rows_select df age) in He.
  - unfold drop_header_rows, header_rows, getattr in He. rewrite Hage in He.
    simpl in He. apply col_lookup_None in Hage. by simplify_eq.
Qed.

(** The values a column keeps under the mask of the data rows of itself:
    those that are not the text "Age". *)
Lemma data_rows_self age :
  s_values age ⋉ data_rows age = filter (λ c, c ≠ CStr "Age") (s_values age).
Proof.
  unfold data_rows, series_eq_str. rewrite <-list_fmap_compose.
  rewrite select_fmap_mask. apply list_filter_iff. intros c. simpl.
  by rewrite negb_true_iff, bool_decide_eq_false.
Qed.
End header.

(** ** [clean_raw] *)
Section clean.
Implicit Types (df : DataFrame) (age : Series).

(** The outcomes of [clean_raw] on a well-formed frame: the attribute [Age]
    is missing, the column [Rk] is missing, or the cleaned frame. *)
Lemma clean_raw_cases df :
  frame_wf df →
  match col_lookup "Age" (df_cols df) with
  | None => clean_raw df = Raise (AttributeError "Age")
  | Some age =>
      if decide ("Rk" ∈ columns df) then clean_raw df = Ok (cleaned df age)
      else clean_raw df = Raise (KeyError "Rk")
  end.
Proof.
  intros Hwf. unfold clean_raw.
  destruct (col_lookup "Age" (df_cols df)) as [age|] eqn:Hage.
  - rewrite (drop_header_rows_select df age) by done. simpl.
    set (raw := fillna 0 _).
    assert (columns raw = columns df) as Hc
      by (unfold raw; by rewrite fillna_columns, frame_select_columns).
    case_decide as HRk.
    + rewrite drop_columns_Ok; [done|].
      intros n ->%list_elem_of_singleton. by rewrite Hc.
    + destruct (drop_columns ["Rk"] raw) as [df'|e] eqn:Hd.
      * apply drop_columns_inv in Hd as (Hsub & _). destruct HRk.
        rewrite <-Hc. apply Hsub. left.
      * apply drop_columns_Raise in Hd as (n & -> & ->%list_elem_of_singleton & _).
        done.
  - unfold drop_header_rows, header_rows, getattr. by rewrite Hage.
Qed.

Lemma clean_raw_inv df df' :
  frame_wf df → clean_raw df = Ok df' →
  ∃ age, col_lookup "Age" (df_cols df) = Some age ∧ "Rk" ∈ columns df ∧
         df' = cleaned df age.
Proof.
  intros Hwf Hc. pose proof (clean_raw_cases df Hwf) as H.
  destruct (col_lookup "Age" (df_cols df)) as [age|]; [|congruence].
  case_decide; [|congruence]. exists age. split_and!; congruence.
Qed.

Lemma cleaned_wf df age : frame_wf df → frame_wf (cleaned df age).
Proof. intros. by apply remove_columns_wf, fillna_wf, frame_select_wf. Qed.

Lemma cleaned_no_nan df age : no_nan (cleaned df age).
Proof. apply remove_columns_no_nan, fillna_no_nan. Qed.

Lemma cleaned_columns df age :
  columns (cleaned df age) = filter (λ n, n ∉ ["Rk"]) (columns df).
Proof.
  unfold cleaned.
  by rewrite remove_columns_columns, fillna_columns, frame_select_columns.
Qed.

Lemma cleaned_lookup df age name :
  col_lookup name (df_cols (cleaned df age)) =
  if decide (name ∈ ["Rk"]) then None
  else series_fillna 0 <$> (series_select (data_rows age) <$> col_lookup name (df_cols df)).
Proof.
  unfold cleaned. rewrite remove_columns_lookup, fillna_lookup, frame_select_lookup.
  done.
Qed.

(** The [Age] column of the cleaned frame: the cells of the raw column that
    are not the header text, with the missing ones filled. *)
Lemma cleaned_age df age :
  col_lookup "Age" (df_cols df) = Some age →
  col_lookup "Age" (df_cols (cleaned df age)) =
  Some (mkSeries (s_dtype age)
          (fill_cell (s_dtype age) 0 <$> filter (λ c, c ≠ CStr "Age") (s_values age))).
Proof.
  intros Hage. rewrite cleaned_lookup, Hage. simpl.
  unfold series_fillna, series_select; simpl. by rewrite data_rows_self.
Qed.

Lemma cleaned_index df age :
  df_index (cleaned df age) = df_index df ⋉ data_rows age.
Proof. done. Qed.

(** The cleaned frame has one column less and loses the header rows. *)
Lemma cleaned_shape df age :
  frame_wf df → col_lookup "Age" (df_cols df) = Some age → "Rk" ∈ columns df →
  shape (cleaned df age) = (mask_count (data_rows age), (shape df).2 - 1).
Proof.
  intros Hwf Hage HRk. unfold cleaned. rewrite remove_column_shape.
  - rewrite fillna_shape, frame_select_shape; [done|].
    unfold data_rows. rewrite length_fmap, series_eq_str_length.
    by apply (lookup_series_ok df "Age").
  - by apply fillna_wf, frame_select_wf.
  - by rewrite fillna_columns, frame_select_columns.
Qed.
End clean.

(** ** The properties of [clean_raw] *)

Lemma sample_raw_wf : frame_wf sample_raw.
Proof. by apply (bool_decide_unpack _). Qed.

Example clean_raw_sample : clean_raw sample_raw = Ok sample_clean.
Proof. reflexivity. Qed.

(** After the cleaning steps of [load_data] no row is a repeated header:
    the [Age] column is still there and none of its cells is the text "Age". *)
Theorem clean_raw_no_header_rows (df df' : DataFrame) :
  frame_wf df → clean_raw df = Ok df' →
  ∃ age', col_lookup "Age" (df_cols df') = Some age' ∧
          CStr "Age" ∉ s_values age'.
Proof.
  intros Hwf (age & Hage & _ & ->)%clean_raw_inv; [|done].
  eexists. split; [by apply cleaned_age|]. simpl.
  intros (c & Hc & Hin)%list_elem_of_fmap.
  apply list_elem_of_filter in Hin as [Hne _].
  destruct c; simplify_eq/=. by destruct (s_dtype age).
Qed.

Lemma clean_raw_no_header_rows_witness :
  ∃ age', col_lookup "Age" (df_cols sample_clean) = Some age' ∧
          CStr "Age" ∉ s_values age'.
Proof.
  apply (clean_raw_no_header_rows sample_raw); [apply sample_raw_wf|reflexivity].
Defined.

(** After the cleaning steps of [load_data] no cell holds the
    missing-value marker, whatever the table was. *)
Theorem clean_raw_no_nan (df df' : DataFrame) :
  clean_raw df = Ok df' → no_nan df'.
Proof.
  unfold clean_raw. intros (raw & _ & (ps & Hd & [= <-])%bind_Ok)%bind_Ok.
  apply drop_columns_inv in Hd as (_ & ->).
  apply remove_columns_no_nan, fillna_no_nan.
Qed.

Lemma clean_raw_no_nan_witness : no_nan sample_clean.
Proof. apply (clean_raw_no_nan sample_raw). reflexivity. Defined.

(** The cleaning steps keep the table well formed: one cell per row in
    every column, cells of the column's dtype, distinct labels and names. *)
Theorem clean_raw_wf (df df' : DataFrame) :
  frame_wf df → clean_raw df = Ok df' → frame_wf df'.
Proof.
  intros Hwf (age & _ & _ & ->)%clean_raw_inv; [|done]. by apply cleaned_wf.
Qed.

Lemma clean_raw_wf_witness : frame_wf sample_clean.
Proof.
  apply (clean_raw_wf sample_raw); [apply sample_raw_wf|reflexivity].
Defined.

(** C37: the cleaning steps fail in exactly two ways on a well-formed table:
    with [AttributeError] when there is no column [Age], with [KeyError]
    when there is a column [Age] and no column [Rk]; otherwise they return. *)
Theorem clean_raw_errors (df : DataFrame) :
  frame_wf df →
  (clean_raw df = Raise (AttributeError "Age") ↔ "Age" ∉ columns df) ∧
  (clean_raw df = Raise (KeyError "Rk") ↔ "Age" ∈ columns df ∧ "Rk" ∉ columns df) ∧
  (is_Ok (clean_raw df) ↔ "Age" ∈ columns df ∧ "Rk" ∈ columns df).
Proof.
  intros Hwf. pose proof (clean_raw_cases df Hwf) as H.
  pose proof (col_lookup_None "Age" (df_cols df)) as Hn.
  pose proof (col_lookup_is_Some "Age" (df_cols df)) as Hs.
  fold (columns df) in Hn, Hs. unfold is_Ok.
  destruct (col_lookup "Age" (df_cols df)) as [age|].
  - assert ("Age" ∈ columns df) by (apply Hs; eauto).
    case_decide; rewrite H; naive_solver.
  - assert ("Age" ∉ columns df) by (by apply Hn). rewrite H. naive_solver.
Qed.

Lemma clean_raw_errors_witness :
  (clean_raw (remove_columns ["Age"] sample_raw) = Raise (AttributeError "Age")) ∧
  (clean_raw (remove_columns ["Rk"] sample_raw) = Raise (KeyError "Rk")).
Proof.
  split.
  - apply (clean_raw_errors (remove_columns ["Age"] sample_raw));
      [by apply (bool_decide_unpack _)|by apply (bool_decide_unpack _)].
  - apply (clean_raw_errors (remove_columns ["Rk"] sample_raw));
      [by apply (bool_decide_unpack _)|split; by apply (bool_decide_unpack _)].
Defined.

(** C3: on a well-formed table with the columns [Age] and [Rk], the cleaning
    steps return the rows whose [Age] cell is not the text "Age" (the drop
    by label of line 36 is a row filter because labels are distinct), with
    every missing cell replaced by 0 and without the column [Rk]. *)
Theorem clean_raw_closed_form (df : DataFrame) (age : Series) :
  frame_wf df → col_lookup "Age" (df_cols df) = Some age → "Rk" ∈ columns df →
  clean_raw df =
    Ok (remove_columns ["Rk"] (fillna 0 (frame_select df (data_rows age)))).
Proof.
  intros Hwf Hage HRk. pose proof (clean_raw_cases df Hwf) as H.
  rewrite Hage in H. by rewrite decide_True in H.
Qed.

Lemma clean_raw_closed_form_witness :
  clean_raw sample_raw =
    Ok (remove_columns ["Rk"] (fillna 0 (frame_select sample_raw (data_rows sample_age)))).
Proof.
  apply (clean_raw_closed_form sample_raw sample_age);
    [apply sample_raw_wf|reflexivity|by apply (bool_decide_unpack _)].
Defined.

(** The cleaned table has one column less than the raw table, and as
    many rows as the raw table has rows that are not repeated headers. *)
Theorem clean_raw_shape (df df' : DataFrame) (age : Series) :
  frame_wf df → col_lookup "Age" (df_cols df) = Some age →
  clean_raw df = Ok df' →
  shape df' = (length (filter (λ c, c ≠ CStr "Age") (s_values age)),
               (shape df).2 - 1).
Proof.
  intros Hwf Hage (age' & Hage' & HRk & ->)%clean_raw_inv; [|done].
  simplify_eq. rewrite cleaned_shape by done. f_equal.
  rewrite <-data_rows_self, select_length; [done|].
  unfold data_rows. by rewrite length_fmap, series_eq_str_length.
Qed.

Lemma clean_raw_shape_witness : shape sample_clean = (4, 5).
Proof.
  apply (clean_raw_shape sample_raw sample_clean sample_age);
    [apply sample_raw_wf|reflexivity|reflexivity].
Defined.

(** ** Column-name normalisation (line 44) *)
Section normalize.
Implicit Types (name : string) (df : DataFrame).

Lemma normal_char_lower c : normal_char (subst_char " " "_" (ascii_lower c)) = true.
Proof. destruct c as [[] [] [] [] [] [] [] []]; by vm_compute. Qed.

Lemma normal_char_fix c :
  normal_char c = true → subst_char " " "_" (ascii_lower c) = c.
Proof. destruct c as [[] [] [] [] [] [] [] []]; by vm_compute. Qed.

Lemma subst_lower_isspace c :
  py_isspace c = false → py_isspace (subst_char " " "_" (ascii_lower c)) = false.
Proof. destruct c as [[] [] [] [] [] [] [] []]; by vm_compute. Qed.

Lemma normalize_name_unfold name :
  normalize_name name =
  string_map (subst_char " " "_" ∘ ascii_lower) (strip name).
Proof. unfold normalize_name, replace_char, lower. apply string_map_compose. Qed.

(** A normalised name is normal: trimmed, without capitals or spaces. *)
Lemma normalize_name_normal name : normal_name (normalize_name name).
Proof.
  rewrite normalize_name_unfold. split.
  - apply trimmed_map; [apply subst_lower_isspace|apply strip_trimmed].
  - apply str_all_map. intros c. apply normal_char_lower.
Qed.

(** A normal name is left as it is. *)
Lemma normalize_name_fix name : normal_name name → normalize_name name = name.
Proof.
  intros [Ht Hc]. rewrite normalize_name_unfold, strip_fix by done.
  eapply string_map_id_on; [|exact Hc]. intros c. apply normal_char_fix.
Qed.

Lemma normalize_columns_columns df :
  columns (normalize_columns df) = normalize_name <$> columns df.
Proof. apply rename_columns_columns. Qed.

Lemma normalize_columns_wf df :
  frame_wf df → NoDup (normalize_name <$> columns df) →
  frame_wf (normalize_columns df).
Proof. apply rename_columns_wf. Qed.

Lemma normalize_columns_no_nan df : no_nan df → no_nan (normalize_columns df).
Proof.
  unfold no_nan, normalize_columns, rename_columns. simpl.
  rewrite Forall_fmap. intros H. eapply Forall_impl; [exact H|]. by intros [].
Qed.
End normalize.

(** Normalising a column name twice is normalising it once: line 44 can
    run again on its own output (a rerun on a cached table) without effect. *)
Theorem normalize_name_idemp (name : string) :
  normalize_name (normalize_name name) = normalize_name name.
Proof. apply normalize_name_fix, normalize_name_normal. Qed.

(** A normalised column name has no blank at either end, no ASCII
    capital and no space. *)
Theorem normalize_name_shape (name : string) :
  trimmed (normalize_name name) ∧
  str_all (λ c, negb (is_upper c)) (normalize_name name) = true ∧
  str_all (λ c, negb (bool_decide (c = " "%char))) (normalize_name name) = true.
Proof.
  destruct (normalize_name_normal name) as [Ht Hc]. split; [done|].
  split; (eapply str_all_impl; [|exact Hc]); unfold normal_char;
    by intros c [? ?]%andb_prop.
Qed.

(** The normalised name is determined by the core of the name: blanks
    around it do not matter, and the result is the core with [A-Z] lowered
    and spaces replaced by underscores. *)
Theorem normalize_name_blanks (a t b : string) :
  str_all py_isspace a = true → str_all py_isspace b = true → trimmed t →
  normalize_name (a +:+ t +:+ b) =
  string_map (subst_char " " "_" ∘ ascii_lower) t.
Proof.
  intros Ha Hb Ht. by rewrite normalize_name_unfold, strip_blanks.
Qed.

Lemma normalize_name_blanks_witness :
  normalize_name ("  " +:+ "Team Name" +:+ " ") = "team_name".
Proof.
  apply (normalize_name_blanks "  " "Team Name" " "); [done|done|].
  by apply (bool_decide_unpack _).
Defined.

(** Normalising the names of a table changes nothing else: same labels,
    same cells, same shape; and a table whose names are already normal is
    left as it is. *)
Theorem normalize_columns_cells (df : DataFrame) :
  df_index (normalize_columns df) = df_index df ∧
  (df_cols (normalize_columns df)).*2 = (df_cols df).*2 ∧
  shape (normalize_columns df) = shape df ∧
  (Forall normal_name (columns df) → normalize_columns df = df).
Proof.
  split_and!; [done| |apply rename_columns_shape|].
  - unfold normalize_columns, rename_columns. simpl.
    rewrite <-list_fmap_compose. by apply list_fmap_ext; intros ? [].
  - intros Hn. apply rename_columns_id.
    eapply Forall_impl; [exact Hn|]. apply normalize_name_fix.
Qed.

(** ** The [team] column as text (line 45) *)
Section team_text_lemmas.
Context {fr : FloatRepr}.
Implicit Types (df : DataFrame).

Lemma team_as_text_inv df df' :
  team_as_text df = Ok df' →
  ∃ team, col_lookup "team" (df_cols df) = Some team ∧
          df' = setitem "team" (astype_str team) df.
Proof.
  unfold team_as_text, getitem. intros (team & Ht%or_raise_Ok & [= <-])%bind_Ok.
  by exists team.
Qed.

Lemma team_as_text_Raise df e :
  team_as_text df = Raise e ↔ "team" ∉ columns df ∧ e = KeyError "team".
Proof.
  unfold team_as_text. rewrite bind_Raise, getitem_Raise.
  split; [|by left]. intros [?|(? & _ & ?)]; [done|simplify_eq].
Qed.

Lemma team_as_text_Ok df :
  "team" ∈ columns df → is_Ok (team_as_text df).
Proof.
  intros Hin. destruct (team_as_text df) as [|e] eqn:He; [by eexists|].
  by apply team_as_text_Raise in He as [? _].
Qed.

Lemma team_as_text_wf df df' :
  frame_wf df → team_as_text df = Ok df' → frame_wf df'.
Proof.
  intros Hwf (team & Ht & ->)%team_as_text_inv.
  assert ("team" ∈ columns df) by (apply col_lookup_is_Some; eauto).
  apply setitem_wf; [done..|]. apply astype_str_ok.
  by apply (lookup_series_ok df "team").
Qed.

Lemma team_as_text_no_nan df df' :
  no_nan df → team_as_text df = Ok df' → no_nan df'.
Proof.
  intros Hn (team & Ht & ->)%team_as_text_inv. unfold no_nan, setitem. simpl.
  apply (col_update_Forall (λ s, CNaN ∉ s_values s)); [|done].
  apply all_str_no_nan, astype_str_all_str.
Qed.
End team_text_lemmas.

(** ** The properties of lines 44-45 *)
Section prepare_props.
Context {fr : FloatRepr}.
Implicit Types (df : DataFrame).

(** C38: lines 44-45 succeed exactly when some column is named [team] after
    normalisation; otherwise line 45 raises [KeyError] for [team]. *)
Theorem prepare_errors df :
  (is_Ok (prepare df) ↔ "team" ∈ normalize_name <$> columns df) ∧
  (∀ e, prepare df = Raise e ↔
        "team" ∉ normalize_name <$> columns df ∧ e = KeyError "team").
Proof.
  unfold prepare. rewrite <-normalize_columns_columns.
  split; [|intros e; apply team_as_text_Raise].
  split; [|apply team_as_text_Ok].
  intros [df' Hd]. destruct (decide ("team" ∈ columns (normalize_columns df)));
    [done|]. by rewrite (proj2 (team_as_text_Raise _ (KeyError "team"))) in Hd.
Qed.

(** C39: after lines 44-45 the table is well formed (when normalisation keeps
    the names distinct), has the shape and the labels it had, and its [team]
    column holds text only. *)
Theorem prepare_team_text df df' :
  frame_wf df → NoDup (normalize_name <$> columns df) →
  prepare df = Ok df' →
  frame_wf df' ∧ shape df' = shape df ∧ df_index df' = df_index df ∧
  ∃ team, col_lookup "team" (df_cols df') = Some team ∧ all_str team.
Proof.
  intros Hwf Hn Hp. assert (frame_wf (normalize_columns df)) as Hwf'
    by by apply normalize_columns_wf.
  split; [by eapply team_as_text_wf|].
  apply team_as_text_inv in Hp as (team & Ht & ->).
  assert ("team" ∈ columns (normalize_columns df))
    by (apply col_lookup_is_Some; eauto).
  split_and!; [rewrite setitem_shape by done; apply rename_columns_shape|done|].
  exists (astype_str team). rewrite setitem_lookup, decide_True by done.
  split; [done|apply astype_str_all_str].
Qed.

(** Lines 44-45 introduce no missing cell. *)
Theorem prepare_no_nan df df' :
  no_nan df → prepare df = Ok df' → no_nan df'.
Proof.
  intros Hn. apply team_as_text_no_nan. by apply normalize_columns_no_nan.
Qed.
End prepare_props.

Example prepare_sample : prepare (fr := decimal_repr) sample_clean = Ok sample_stats.
Proof. reflexivity. Qed.

Lemma sample_clean_wf : frame_wf sample_clean.
Proof. by apply (bool_decide_unpack _). Qed.

Lemma prepare_team_text_witness :
  frame_wf sample_stats ∧ shape sample_stats = shape sample_clean ∧
  df_index sample_stats = df_index sample_clean ∧
  ∃ team, col_lookup "team" (df_cols sample_stats) = Some team ∧ all_str team.
Proof.
  apply (prepare_team_text (fr := decimal_repr) sample_clean);
    [apply sample_clean_wf|by apply (bool_decide_unpack _)|reflexivity].
Defined.

Lemma prepare_no_nan_witness : no_nan sample_stats.
Proof.
  apply (prepare_no_nan (fr := decimal_repr) sample_clean);
    [by apply (bool_decide_unpack _)|reflexivity].
Defined.

(** ** Lines 44-45 as a whole *)
Section prepare_lemmas.
Context {fr : FloatRepr}.
Implicit Types (raw stats : DataFrame).

Lemma prepare_inv raw stats :
  prepare raw = Ok stats →
  ∃ team, col_lookup "team" (df_cols (normalize_columns raw)) = Some team ∧
          stats = setitem "team" (astype_str team) (normalize_columns raw).
Proof. apply team_as_text_inv. Qed.

Lemma prepare_columns raw stats :
  prepare raw = Ok stats → columns stats = normalize_name <$> columns raw.
Proof.
  intros (team & Ht & ->)%prepare_inv.
  rewrite setitem_columns, normalize_columns_columns; [done|].
  apply col_lookup_is_Some. eauto.
Qed.

Lemma prepare_team raw stats :
  prepare raw = Ok stats →
  ∃ team, col_lookup "team" (df_cols stats) = Some team ∧ all_str team.
Proof.
  intros (team & Ht & ->)%prepare_inv. exists (astype_str team).
  rewrite setitem_lookup, decide_True by done. split; [done|apply astype_str_all_str].
Qed.

Lemma prepare_Ok_wf raw stats :
  frame_wf raw → NoDup (normalize_name <$> columns raw) →
  prepare raw = Ok stats → frame_wf stats ∧ df_index stats = df_index raw.
Proof.
  intros Hwf Hn Hp. split; [|by apply prepare_inv in Hp as (team & _ & ->)].
  eapply team_as_text_wf; [|exact Hp]. by apply normalize_columns_wf.
Qed.
End prepare_lemmas.
