(* ===== verification/Loader.v ===== *)
(** * Loader: the season selector, [load_data] and its per-year cache

    Line 29 of [src/eda.py]: the select box over the seasons.  Lines 31-39:
    [load_data], which fetches the page of a season with [pd.read_html],
    takes the first table and cleans it ([Cleaner.clean_raw]).  The fetch is
    outside the program: [read_html] is a parameter, a snapshot of the web
    that maps a URL to the tables of its page or to the exception the fetch
    raises.  Line 31: [st.cache_data] memoises [load_data] by its argument;
    a failed call is not stored. *)

From S2P Require Import Prelude PyStr Frame Cleaner.

(** ** Definitions *)

(** [range(a, b)] *)
Definition py_range (a b : Z) : list Z := seqZ a (b - a).

(** Line 29: [list(reversed(range(1950, 2024)))] *)
Definition year_options : list Z := reverse (py_range 1950 2024).

(** [st.selectbox(label, options)]: the option the user chose, the first
    option when nothing valid was chosen; [None] when there is no option. *)
Definition selectbox `{EqDecision A} (options : list A) (choice : option A)
  : option A :=
  match choice with
  | Some v => if decide (v ∈ options) then Some v else head options
  | None => head options
  end.

(** Line 29: [selected_year] *)
Definition selected_year (choice : option Z) : Z :=
  default 2023%Z (selectbox year_options choice).

(** Line 33: the f-string of the URL. *)
Definition season_url (year : Z) : string :=
  "https://www.basketball-reference.com/leagues/NBA_" +:+ pretty year
    +:+ "_per_game.html".

Section loader.
Context (read_html : string → result (list DataFrame)).

(** Lines 32-39: [load_data(year)] *)
Definition load_data (year : Z) : result DataFrame :=
  let url := season_url year in
  html ← read_html url;
  df ← or_raise IndexError (html !! 0);
  clean_raw df.

(** Line 31: [@st.cache_data].  The cache maps a year to the table stored
    for it; a hit returns the stored table, a miss calls [load_data] and
    stores what it returns; an exception is passed on and nothing is
    stored. *)
Definition load_data_cached (year : Z) (cache : gmap Z DataFrame)
  : result DataFrame * gmap Z DataFrame :=
  match cache !! year with
  | Some df => (Ok df, cache)
  | None =>
      match load_data year with
      | Ok df => (Ok df, <[year := df]> cache)
      | Raise e => (Raise e, cache)
      end
  end.

(** A cache is [cache_sound] for the snapshot when every stored table is
    what [load_data] returns for its year. *)
Definition cache_sound (cache : gmap Z DataFrame) : Prop :=
  ∀ year df, cache !! year = Some df → load_data year = Ok df.
End loader.

(** The web of the sample: the 2023 page holds the sample table, the 2022
    page holds no table, every other page cannot be fetched. *)
Definition sample_web (url : string) : result (list DataFrame) :=
  if decide (url = season_url 2023) then Ok [sample_raw]
  else if decide (url = season_url 2022) then Ok []
  else Raise (LoadError url).

(** ** The season selector *)

Lemma elem_of_py_range a b y : y ∈ py_range a b ↔ (a ≤ y < b)%Z.
Proof. unfold py_range. rewrite elem_of_seqZ. lia. Qed.

Lemma py_range_length a b : length (py_range a b) = Z.to_nat (b - a).
Proof. apply length_seqZ. Qed.

Lemma selectbox_elem_of `{EqDecision A} (options : list A) choice v :
  selectbox options choice = Some v → v ∈ options.
Proof.
  unfold selectbox. destruct choice as [w|]; [case_decide|];
    intros; simplify_eq; try done; by eapply head_Some_elem_of.
Qed.

Lemma selectbox_valid `{EqDecision A} (options : list A) v :
  v ∈ options → selectbox options (Some v) = Some v.
Proof. intros. unfold selectbox. by rewrite decide_True. Qed.

Lemma selectbox_is_Some `{EqDecision A} (options : list A) choice :
  options ≠ [] → is_Some (selectbox options choice).
Proof.
  intros Hne. unfold selectbox. destruct options; [done|].
  destruct choice; [case_decide|]; by eexists.
Qed.

(** The options in order: position [i] holds the year [2023 - i]. *)
Lemma year_options_lookup (i : nat) :
  i < 74 → year_options !! i = Some (2023 - Z.of_nat i)%Z.
Proof.
  intros Hi. unfold year_options, py_range.
  rewrite reverse_lookup, length_seqZ by (rewrite length_seqZ; lia).
  rewrite lookup_seqZ_lt by lia. f_equal. lia.
Qed.

(** The seasons offered are the years 1950 to 2023, newest first (the
    option at position [i] is [2023 - i]); the season the script uses is
    always one of them, the one the user chose when it is offered and 2023
    otherwise. *)
Theorem selected_year_spec (choice : option Z) :
  (∀ y, y ∈ year_options ↔ (1950 ≤ y ≤ 2023)%Z) ∧
  (∀ i : nat, i < 74 → year_options !! i = Some (2023 - Z.of_nat i)%Z) ∧
  length year_options = 74 ∧
  selected_year choice ∈ year_options ∧
  (∀ y, choice = Some y → y ∈ year_options → selected_year choice = y) ∧
  (choice = None → selected_year choice = 2023%Z).
Proof.
  assert (∀ y, y ∈ year_options ↔ (1950 ≤ y ≤ 2023)%Z) as Hy.
  { intros y. unfold year_options. rewrite elem_of_reverse, elem_of_py_range. lia. }
  split_and!; [done|apply year_options_lookup| | | |].
  - unfold year_options. by rewrite length_reverse, py_range_length.
  - unfold selected_year.
    destruct (selectbox year_options choice) as [y|] eqn:Hs; simpl.
    + by eapply selectbox_elem_of.
    + by apply Hy.
  - intros y -> Hin. unfold selected_year. by rewrite selectbox_valid.
  - by intros ->.
Qed.

(** ** The URL of a season *)

(** Distinct seasons have distinct URLs, so the table stored for a year
    was fetched from the page of that year. *)
Theorem season_url_inj (y1 y2 : Z) : season_url y1 = season_url y2 → y1 = y2.
Proof.
  unfold season_url. intros H%(inj (String.app _))%app_inj_r_s.
  by apply (inj pretty).
Qed.

Lemma season_url_inj_witness : 2023%Z = 2023%Z.
Proof. apply (season_url_inj 2023 2023). reflexivity. Defined.

(** ** [load_data] *)
Section loader_lemmas.
Context (read_html : string → result (list DataFrame)).
Implicit Types (year : Z) (df raw : DataFrame) (cache : gmap Z DataFrame).

(** Only the first table of the page matters. *)
Lemma load_data_first year raw rest :
  read_html (season_url year) = Ok (raw :: rest) →
  load_data read_html year = clean_raw raw.
Proof. unfold load_data. by intros ->. Qed.

Lemma load_data_inv year df :
  load_data read_html year = Ok df →
  ∃ raw rest, read_html (season_url year) = Ok (raw :: rest) ∧
              clean_raw raw = Ok df.
Proof.
  unfold load_data. intros (html & Hr & (raw & Hh%or_raise_Ok & Hc)%bind_Ok)%bind_Ok.
  destruct html as [|raw' rest]; simplify_eq/=. eauto.
Qed.

(** ** The cache *)

Lemma load_data_cached_hit year cache df :
  cache !! year = Some df → load_data_cached read_html year cache = (Ok df, cache).
Proof. unfold load_data_cached. by intros ->. Qed.

Lemma load_data_cached_miss year cache :
  cache !! year = None →
  load_data_cached read_html year cache =
    match load_data read_html year with
    | Ok df => (Ok df, <[year := df]> cache)
    | Raise e => (Raise e, cache)
    end.
Proof. unfold load_data_cached. by intros ->. Qed.

Lemma cache_sound_empty : cache_sound read_html ∅.
Proof. intros year df. by rewrite lookup_empty. Qed.

Lemma cache_sound_insert year df cache :
  cache_sound read_html cache → load_data read_html year = Ok df →
  cache_sound read_html (<[year := df]> cache).
Proof.
  intros Hc Hl y d. rewrite lookup_insert. case_decide; [|by apply Hc].
  by intros; simplify_eq.
Qed.

Lemma load_data_cached_sound year cache :
  cache_sound read_html cache →
  cache_sound read_html (load_data_cached read_html year cache).2.
Proof.
  intros Hc. unfold load_data_cached.
  destruct (cache !! year) eqn:Hy; [done|].
  destruct (load_data read_html year) eqn:Hl; [|done].
  by apply cache_sound_insert.
Qed.

(** The cache only grows, and only at the requested year. *)
Lemma load_data_cached_mono year cache y df :
  cache !! y = Some df → (load_data_cached read_html year cache).2 !! y = Some df.
Proof.
  intros Hy. unfold load_data_cached.
  destruct (cache !! year) eqn:Hyear; [done|].
  destruct (load_data read_html year); [|done]. simpl.
  rewrite lookup_insert_ne; [done|]. by intros ->; simplify_eq.
Qed.

Lemma load_data_cached_other year cache y :
  y ≠ year → (load_data_cached read_html year cache).2 !! y = cache !! y.
Proof.
  intros Hy. unfold load_data_cached.
  destruct (cache !! year) eqn:Hyear; [done|].
  destruct (load_data read_html year); [|done]. simpl.
  by rewrite lookup_insert_ne.
Qed.

(** What a call returns is what is stored afterwards. *)
Lemma load_data_cached_stored year cache df :
  (load_data_cached read_html year cache).1 = Ok df →
  (load_data_cached read_html year cache).2 !! year = Some df.
Proof.
  unfold load_data_cached. destruct (cache !! year) eqn:Hyear.
  - by intros [= <-].
  - destruct (load_data read_html year); [|done]. simpl. intros [= <-].
    by rewrite lookup_insert_eq.
Qed.
End loader_lemmas.

(** ** The properties of [load_data] *)
Section loader_props.
Context (read_html : string → result (list DataFrame)).
(** [pd.read_html] returns well-formed tables. *)
Context (read_html_wf : ∀ url html, read_html url = Ok html → Forall frame_wf html).
Implicit Types (year : Z) (df raw : DataFrame).

(** C1: what [load_data] returns is clean: it is well formed, no cell is
    missing, the rank column is gone, and the [Age] column is there with no
    cell that is the header text "Age". *)
Theorem load_data_clean year df :
  load_data read_html year = Ok df →
  frame_wf df ∧ no_nan df ∧ "Rk" ∉ columns df ∧
  ∃ age, col_lookup "Age" (df_cols df) = Some age ∧ CStr "Age" ∉ s_values age.
Proof using read_html_wf.
  intros (raw & rest & Hr & Hc)%load_data_inv.
  assert (frame_wf raw) as Hwf
    by (apply read_html_wf in Hr; by apply Forall_cons in Hr as [? _]).
  apply clean_raw_inv in Hc as (age & Hage & _ & ->); [|done].
  split_and!; [by apply cleaned_wf|apply cleaned_no_nan| |].
  - rewrite cleaned_columns, list_elem_of_filter. intros [H _]. apply H. left.
  - eexists. split; [by apply cleaned_age|]. simpl.
    intros (c & Hc & [Hne _]%list_elem_of_filter)%list_elem_of_fmap.
    destruct c; simplify_eq/=. by destruct (s_dtype age).
Qed.

(** C8: [load_data] fails in four ways and no other: the fetch raises (the
    exception is passed on), the page holds no table ([IndexError]), the
    first table has no column [Age] ([AttributeError]), or it has no column
    [Rk] ([KeyError]). *)
Theorem load_data_errors year e :
  load_data read_html year = Raise e →
  read_html (season_url year) = Raise e ∨
  (read_html (season_url year) = Ok [] ∧ e = IndexError) ∨
  ∃ raw rest, read_html (season_url year) = Ok (raw :: rest) ∧
    (("Age" ∉ columns raw ∧ e = AttributeError "Age") ∨
     ("Age" ∈ columns raw ∧ "Rk" ∉ columns raw ∧ e = KeyError "Rk")).
Proof using read_html_wf.
  unfold load_data. destruct (read_html (season_url year)) as [[|raw rest]|e'] eqn:Hr;
    simpl; [by intros [= <-]; right; left| |by intros [= <-]; left].
  intros He. right. right. exists raw, rest. split; [done|].
  assert (frame_wf raw) as Hwf
    by (apply read_html_wf in Hr; by apply Forall_cons in Hr as [? _]).
  pose proof (clean_raw_cases raw Hwf) as H.
  destruct (col_lookup "Age" (df_cols raw)) as [age|] eqn:Hage.
  - assert ("Age" ∈ columns raw) by (apply col_lookup_is_Some; eauto).
    case_decide; [congruence|]. right. split_and!; [done..|congruence].
  - apply col_lookup_None in Hage. left. split; [done|congruence].
Qed.
End loader_props.

Lemma sample_web_wf url html : sample_web url = Ok html → Forall frame_wf html.
Proof.
  unfold sample_web. repeat case_decide; intros; simplify_eq.
  - constructor; [apply sample_raw_wf|constructor].
  - constructor.
Qed.

Example load_data_sample : load_data sample_web 2023 = Ok sample_clean.
Proof. reflexivity. Qed.

Lemma load_data_clean_witness :
  frame_wf sample_clean ∧ no_nan sample_clean ∧ "Rk" ∉ columns sample_clean ∧
  ∃ age, col_lookup "Age" (df_cols sample_clean) = Some age ∧
         CStr "Age" ∉ s_values age.
Proof.
  apply (load_data_clean sample_web sample_web_wf 2023). reflexivity.
Defined.

Lemma load_data_errors_witness :
  sample_web (season_url 2022) = Raise IndexError ∨
  (sample_web (season_url 2022) = Ok [] ∧ IndexError = IndexError) ∨
  ∃ raw rest, sample_web (season_url 2022) = Ok (raw :: rest) ∧
    (("Age" ∉ columns raw ∧ IndexError = AttributeError "Age") ∨
     ("Age" ∈ columns raw ∧ "Rk" ∉ columns raw ∧ IndexError = KeyError "Rk")).
Proof.
  apply (load_data_errors sample_web sample_web_wf 2022). reflexivity.
Defined.

(** ** The properties of the cache *)

(** C6: memoisation is transparent on a fixed snapshot of the web: with a
    sound cache the cached [load_data] returns what [load_data] returns, and
    leaves the cache sound. *)
Theorem load_data_cached_refines
    (read_html : string → result (list DataFrame))
    (year : Z) (cache : gmap Z DataFrame) :
  cache_sound read_html cache →
  (load_data_cached read_html year cache).1 = load_data read_html year ∧
  cache_sound read_html (load_data_cached read_html year cache).2.
Proof.
  intros Hc. split; [|by apply load_data_cached_sound].
  unfold load_data_cached. destruct (cache !! year) as [df|] eqn:Hy.
  - symmetry. by apply Hc.
  - by destruct (load_data read_html year).
Qed.

Lemma load_data_cached_refines_witness :
  (load_data_cached sample_web 2023 ∅).1 = load_data sample_web 2023 ∧
  cache_sound sample_web (load_data_cached sample_web 2023 ∅).2.
Proof.
  apply (load_data_cached_refines sample_web 2023 ∅), cache_sound_empty.
Defined.

(** C35: once a season has been loaded it is not fetched again: the next
    call for that year returns the stored table and leaves the cache as it
    is, whatever the web holds by then (no expiry, no eviction). *)
Theorem load_data_cached_again
    (web1 web2 : string → result (list DataFrame))
    (year : Z) (cache : gmap Z DataFrame) (df : DataFrame) :
  (load_data_cached web1 year cache).1 = Ok df →
  let cache' := (load_data_cached web1 year cache).2 in
  load_data_cached web2 year cache' = (Ok df, cache').
Proof.
  intros Hl cache'. apply load_data_cached_hit.
  by apply load_data_cached_stored.
Qed.

Lemma load_data_cached_again_witness :
  let cache' := (load_data_cached sample_web 2023 ∅).2 in
  load_data_cached (λ url, Raise (LoadError url)) 2023 cache' =
    (Ok sample_clean, cache').
Proof.
  apply (load_data_cached_again sample_web (λ url, Raise (LoadError url)) 2023 ∅).
  reflexivity.
Defined.

(** A failed load stores nothing: the cache is unchanged, the year was
    not stored, and the exception is the one [load_data] raised; the next
    call for that year fetches again. *)
Theorem load_data_cached_failure
    (read_html : string → result (list DataFrame))
    (year : Z) (cache cache' : gmap Z DataFrame) (e : exn) :
  load_data_cached read_html year cache = (Raise e, cache') →
  cache' = cache ∧ cache !! year = None ∧ load_data read_html year = Raise e.
Proof.
  unfold load_data_cached. destruct (cache !! year); [done|].
  destruct (load_data read_html year); [done|]. by intros [= <- <-].
Qed.

Lemma load_data_cached_failure_witness :
  (∅ : gmap Z DataFrame) = ∅ ∧ (∅ : gmap Z DataFrame) !! 2022%Z = None ∧
  load_data sample_web 2022 = Raise IndexError.
Proof.
  apply (load_data_cached_failure sample_web 2022 ∅ ∅ IndexError). reflexivity.
Defined.

(** A call touches the cache at the requested year only, and never
    removes or replaces a stored table. *)
Theorem load_data_cached_frame
    (read_html : string → result (list DataFrame))
    (year y : Z) (cache : gmap Z DataFrame) :
  let cache' := (load_data_cached read_html year cache).2 in
  (y ≠ year → cache' !! y = cache !! y) ∧
  (∀ df, cache !! y = Some df → cache' !! y = Some df).
Proof.
  split; [apply load_data_cached_other|].
  intros df. apply load_data_cached_mono.
Qed.

(** The memoised call returns what the call returns, on a sound cache. *)
Lemma load_data_cached_result (read_html : string → result (list DataFrame))
    (year : Z) (cache : gmap Z DataFrame) :
  cache_sound read_html cache →
  (load_data_cached read_html year cache).1 = load_data read_html year.
Proof.
  intros Hc. unfold load_data_cached. destruct (cache !! year) as [df|] eqn:Hy.
  - simpl. symmetry. by apply Hc.
  - by destruct (load_data read_html year).
Qed.
