(* ===== verification/Filter.v ===== *)
(** * Filter: the team and position selectors and the row filter

    Lines 47-52 of [src/eda.py]: the team options are the distinct values of
    the [team] column, sorted; the position options are five fixed codes;
    both multi-selects start with every option selected; the filtered table
    keeps the rows whose team and position are both selected. *)

From S2P Require Import Prelude PyStr Frame Cleaner.

(** ** Definitions *)

(** The text of a cell that is text. *)
Definition cell_as_str (c : cell) : option string :=
  match c with CStr s => Some s | _ => None end.

(** [sorted(l)] on a list of [str]: ascending in code-point order, which is
    byte order on UTF-8. *)
Definition py_sorted (l : list string) : list string := merge_sort String.le l.

(** Line 47: [sorted(playerstats['team'].unique())].  After line 45 the
    values are all text; on any other cell the comparison of [sorted] is
    modelled as a [TypeError]. *)
Definition sorted_unique_team (df : DataFrame) : result (list string) :=
  team ← getitem "team" df;
  names ← or_raise (TypeError "'<' not supported") (mapM cell_as_str (unique (s_values team)));
  mret (py_sorted names).

(** Line 49 *)
Definition unique_pos : list string := ["C"; "PF"; "SF"; "PG"; "SG"].

(** [st.multiselect(label, options, default)]: the options the user chose,
    [default] when nothing valid was chosen. *)
Definition multiselect `{EqDecision A} (options default : list A)
    (choice : option (list A)) : list A :=
  match choice with
  | Some vs => if decide (vs ⊆ options) then vs else default
  | None => default
  end.

(** Line 52: the mask of the selected rows. *)
Definition filter_mask (team pos : Series) (selected_team selected_pos : list string)
  : list bool :=
  isin team selected_team &&* isin pos selected_pos.

(** Line 52: [playerstats[team.isin(selected_team) & pos.isin(selected_pos)]] *)
Definition filter_rows (selected_team selected_pos : list string) (df : DataFrame)
  : result DataFrame :=
  team ← getitem "team" df;
  pos ← getitem "pos" df;
  mret (frame_select df (filter_mask team pos selected_team selected_pos)).

(** Lines 47-52 with the widgets: the choices of the user are the inputs. *)
Definition filter_stage (team_choice pos_choice : option (list string))
    (df : DataFrame) : result DataFrame :=
  options ← sorted_unique_team df;
  let selected_team := multiselect options options team_choice in
  let selected_pos := multiselect unique_pos unique_pos pos_choice in
  filter_rows selected_team selected_pos df.

(** Row [i] is selected: its team and its position are both selected text. *)
Definition row_selected (team pos : Series) (selected_team selected_pos : list string)
    (i : nat) : Prop :=
  (∃ t, s_values team !! i = Some (CStr t) ∧ t ∈ selected_team) ∧
  (∃ p, s_values pos !! i = Some (CStr p) ∧ p ∈ selected_pos).

(** What the default selection keeps of the sample table: the player with
    the double position is dropped. *)
Definition sample_filtered : DataFrame :=
  mkFrame [0; 1; 3]
    [("player", obj [CStr "A"; CStr "B"; CStr "C"]);
     ("age", obj [CStr "25"; CStr "31"; CStr "22"]);
     ("team", obj [CStr "BOS"; CStr "LAL"; CStr "BOS"]);
     ("pos", obj [CStr "PG"; CStr "SF"; CStr "C"]);
     ("pts", obj [CStr "30.1"; CStr "10.0"; CStr "4.5"])].

(** ** The mask of line 52 *)
Section mask_lemmas.
Implicit Types (df : DataFrame) (team pos : Series) (st sp : list string).

Lemma isin_lookup s vs i :
  isin s vs !! i = Some true ↔ ∃ t, s_values s !! i = Some (CStr t) ∧ t ∈ vs.
Proof.
  unfold isin. rewrite list_lookup_fmap.
  destruct (s_values s !! i) as [c|]; simpl; [|naive_solver].
  split.
  - intros [= (t & -> & ?)%isin_cell]. eauto.
  - intros (t & [= ->] & ?). f_equal. apply isin_cell. eauto.
Qed.

Lemma filter_mask_lookup team pos st sp i :
  filter_mask team pos st sp !! i = Some true ↔ row_selected team pos st sp i.
Proof.
  unfold filter_mask, row_selected. rewrite lookup_zip_with_Some, <-!isin_lookup.
  split; [intros (x & y & [-> ->]%eq_sym%andb_prop & ? & ?)|intros [? ?]; by exists true, true].
  done.
Qed.

Lemma filter_mask_length team pos st sp :
  length (s_values team) = length (s_values pos) →
  length (filter_mask team pos st sp) = length (s_values team).
Proof.
  intros Hl. unfold filter_mask. rewrite length_zip_with, !isin_length. lia.
Qed.

(** With no team selected, or no position, the mask selects nothing. *)
Lemma filter_mask_nil_l team pos sp :
  length (s_values team) = length (s_values pos) →
  filter_mask team pos [] sp = replicate (length (s_values team)) false.
Proof.
  intros Hl. unfold filter_mask. rewrite isin_nil.
  rewrite zip_with_replicate_l by (rewrite isin_length; lia).
  rewrite (fmap_const_replicate _ false) by done. by rewrite isin_length, Hl.
Qed.

Lemma filter_mask_nil_r team pos st :
  length (s_values team) = length (s_values pos) →
  filter_mask team pos st [] = replicate (length (s_values team)) false.
Proof.
  intros Hl. unfold filter_mask. rewrite (isin_nil pos).
  rewrite zip_with_replicate_r by (rewrite isin_length; lia).
  rewrite (fmap_const_replicate _ false) by apply andb_false_r.
  by rewrite isin_length.
Qed.

(** When every team and every position of the table is selected the mask
    selects everything. *)
Lemma filter_mask_all team pos st sp :
  length (s_values team) = length (s_values pos) →
  Forall (λ c, ∃ t, c = CStr t ∧ t ∈ st) (s_values team) →
  Forall (λ c, ∃ p, c = CStr p ∧ p ∈ sp) (s_values pos) →
  filter_mask team pos st sp = replicate (length (s_values team)) true.
Proof.
  intros Hl Ht Hp. unfold filter_mask. rewrite !isin_all by done.
  by rewrite <-Hl, zip_with_replicate.
Qed.
End mask_lemmas.

(** ** [filter_rows] *)
Section filter_rows_lemmas.
Implicit Types (df : DataFrame) (team pos : Series) (st sp : list string).

Lemma filter_rows_inv st sp df df' :
  filter_rows st sp df = Ok df' →
  ∃ team pos, col_lookup "team" (df_cols df) = Some team ∧
              col_lookup "pos" (df_cols df) = Some pos ∧
              df' = frame_select df (filter_mask team pos st sp).
Proof.
  unfold filter_rows, getitem.
  intros (team & Ht%or_raise_Ok & (pos & Hp%or_raise_Ok & [= <-])%bind_Ok)%bind_Ok.
  by exists team, pos.
Qed.

Lemma filter_rows_Ok st sp df team pos :
  col_lookup "team" (df_cols df) = Some team →
  col_lookup "pos" (df_cols df) = Some pos →
  filter_rows st sp df = Ok (frame_select df (filter_mask team pos st sp)).
Proof. unfold filter_rows, getitem. by intros -> ->. Qed.

Lemma filter_rows_Raise st sp df e :
  filter_rows st sp df = Raise e →
  ("team" ∉ columns df ∧ e = KeyError "team") ∨
  ("team" ∈ columns df ∧ "pos" ∉ columns df ∧ e = KeyError "pos").
Proof.
  unfold filter_rows. intros [Ht|(team & Ht & [Hp|(pos & _ & ?)]%bind_Raise)]%bind_Raise;
    [left; by apply getitem_Raise|right|done].
  apply getitem_Raise in Hp as [? ->]. split_and!; [|done..].
  apply or_raise_Ok in Ht. apply col_lookup_is_Some. eauto.
Qed.

Lemma filter_rows_wf st sp df df' :
  frame_wf df → filter_rows st sp df = Ok df' → frame_wf df'.
Proof. intros Hwf (team & pos & _ & _ & ->)%filter_rows_inv. by apply frame_select_wf. Qed.
(** When every cell of the two columns is selected, nothing is dropped. *)
Lemma filter_rows_all st sp df team pos :
  frame_wf df →
  col_lookup "team" (df_cols df) = Some team →
  col_lookup "pos" (df_cols df) = Some pos →
  Forall (λ c, ∃ t, c = CStr t ∧ t ∈ st) (s_values team) →
  Forall (λ c, ∃ p, c = CStr p ∧ p ∈ sp) (s_values pos) →
  filter_rows st sp df = Ok df.
Proof.
  intros Hwf Ht Hp Hst Hsp. rewrite (filter_rows_Ok st sp df team pos) by done.
  destruct (lookup_series_ok df "team" team Hwf Ht) as [Hlt _].
  destruct (lookup_series_ok df "pos" pos Hwf Hp) as [Hlp _].
  rewrite filter_mask_all by (done || congruence).
  by rewrite Hlt, frame_select_all.
Qed.
End filter_rows_lemmas.

(** ** The properties of the row filter *)

Lemma sample_stats_wf : frame_wf sample_stats.
Proof. by apply (bool_decide_unpack _). Qed.

Example filter_stage_sample : filter_stage None None sample_stats = Ok sample_filtered.
Proof. reflexivity. Qed.

(** C2: the filter keeps a row exactly when its team is one of the selected
    teams and its position one of the selected positions: a label is in the
    filtered table if and only if it labels such a row. *)
Theorem filter_rows_selected (st sp : list string) (df df' : DataFrame)
    (team pos : Series) (l : nat) :
  col_lookup "team" (df_cols df) = Some team →
  col_lookup "pos" (df_cols df) = Some pos →
  filter_rows st sp df = Ok df' →
  l ∈ df_index df' ↔
  ∃ i, df_index df !! i = Some l ∧ row_selected team pos st sp i.
Proof.
  intros Ht Hp Hf. rewrite (filter_rows_Ok st sp df team pos) in Hf by done.
  injection Hf as <-. rewrite frame_select_index, elem_of_select.
  by setoid_rewrite filter_mask_lookup.
Qed.

Lemma filter_rows_selected_witness :
  3 ∈ df_index sample_filtered ↔
  ∃ i, df_index sample_stats !! i = Some 3 ∧
       row_selected (obj [CStr "BOS"; CStr "LAL"; CStr "BOS"; CStr "DEN"])
                    (obj [CStr "PG"; CStr "SF"; CStr "C"; CStr "SG-PG"])
                    ["BOS"; "DEN"; "LAL"] unique_pos i.
Proof.
  apply (filter_rows_selected ["BOS"; "DEN"; "LAL"] unique_pos sample_stats);
    reflexivity.
Defined.

(** C32: the filter keeps the order of the rows and changes no cell: the
    labels and every column of the filtered table are sublists of those of
    the table, cut by the same mask; the columns and their names stay. *)
Theorem filter_rows_order (st sp : list string) (df df' : DataFrame) :
  filter_rows st sp df = Ok df' →
  df_index df' `sublist_of` df_index df ∧
  columns df' = columns df ∧
  ∀ name s, col_lookup name (df_cols df) = Some s →
    ∃ s', col_lookup name (df_cols df') = Some s' ∧
          s_dtype s' = s_dtype s ∧ s_values s' `sublist_of` s_values s ∧
          (length (s_values s) = length (df_index df) →
           length (s_values s') = length (df_index df')).
Proof.
  intros (team & pos & _ & _ & ->)%filter_rows_inv.
  split_and!; [apply select_sublist|apply frame_select_columns|].
  intros name s Hs. rewrite frame_select_lookup, Hs. simpl.
  eexists. split_and!; [done|done|apply select_sublist|apply select_length_eq].
Qed.

Lemma filter_rows_order_witness :
  df_index sample_filtered `sublist_of` df_index sample_stats ∧
  columns sample_filtered = columns sample_stats ∧
  ∀ name s, col_lookup name (df_cols sample_stats) = Some s →
    ∃ s', col_lookup name (df_cols sample_filtered) = Some s' ∧
          s_dtype s' = s_dtype s ∧ s_values s' `sublist_of` s_values s ∧
          (length (s_values s) = length (df_index sample_stats) →
           length (s_values s') = length (df_index sample_filtered)).
Proof.
  apply (filter_rows_order ["BOS"; "DEN"; "LAL"] unique_pos). reflexivity.
Defined.

(** C30: the identity filter: when every team of the table and every position
    of the table is selected, the mask holds at every row and the filtered
    table is the table. *)
Theorem filter_rows_identity (st sp : list string) (df : DataFrame)
    (team pos : Series) :
  frame_wf df →
  col_lookup "team" (df_cols df) = Some team →
  col_lookup "pos" (df_cols df) = Some pos →
  Forall (λ c, ∃ t, c = CStr t ∧ t ∈ st) (s_values team) →
  Forall (λ c, ∃ p, c = CStr p ∧ p ∈ sp) (s_values pos) →
  filter_mask team pos st sp = replicate (length (df_index df)) true ∧
  filter_rows st sp df = Ok df.
Proof.
  intros Hwf Ht Hp Hst Hsp. split; [|by apply (filter_rows_all st sp df team pos)].
  destruct (lookup_series_ok df "team" team Hwf Ht) as [Hlt _].
  destruct (lookup_series_ok df "pos" pos Hwf Hp) as [Hlp _].
  rewrite filter_mask_all by (done || congruence). by rewrite Hlt.
Qed.

Lemma filter_rows_identity_witness :
  filter_mask (obj [CStr "BOS"; CStr "LAL"; CStr "BOS"])
    (obj [CStr "PG"; CStr "SF"; CStr "C"]) ["BOS"; "LAL"] ["PG"; "SF"; "C"] =
    replicate (length (df_index sample_filtered)) true ∧
  filter_rows ["BOS"; "LAL"] ["PG"; "SF"; "C"] sample_filtered = Ok sample_filtered.
Proof.
  apply (filter_rows_identity _ _ sample_filtered
           (obj [CStr "BOS"; CStr "LAL"; CStr "BOS"])
           (obj [CStr "PG"; CStr "SF"; CStr "C"]));
    [by apply (bool_decide_unpack _)|reflexivity|reflexivity|..];
    repeat constructor; eexists; (split; [reflexivity|by apply (bool_decide_unpack _)]).
Defined.

(** C31: an empty selection is not an error: with no team selected (or no
    position) the filter does not raise on a table that has the two
    columns, and the filtered table has no row and all the columns. *)
Theorem filter_rows_empty_selection (st sp : list string) (df : DataFrame) :
  frame_wf df → st = [] ∨ sp = [] →
  ("team" ∈ columns df → "pos" ∈ columns df → is_Ok (filter_rows st sp df)) ∧
  ∀ df', filter_rows st sp df = Ok df' →
    df_index df' = [] ∧ columns df' = columns df ∧
    shape df' = (0, (shape df).2) ∧ frame_empty df' = true.
Proof.
  intros Hwf Hsel. split.
  - intros [team Ht]%col_lookup_is_Some [pos Hp]%col_lookup_is_Some.
    rewrite (filter_rows_Ok st sp df team pos) by done. by eexists.
  - intros df' (team & pos & Ht & Hp & ->)%filter_rows_inv.
    destruct (lookup_series_ok df "team" team Hwf Ht) as [Hlt _].
    destruct (lookup_series_ok df "pos" pos Hwf Hp) as [Hlp _].
    assert (filter_mask team pos st sp = replicate (length (s_values team)) false) as ->
      by (destruct Hsel as [-> | ->];
          [apply filter_mask_nil_l|apply filter_mask_nil_r]; congruence).
    destruct (frame_select_none df (length (s_values team))) as [Hi Hc].
    split_and!; [done|done| |].
    + unfold shape. rewrite Hi. simpl. by rewrite length_fmap.
    + unfold frame_empty. by rewrite Hi.
Qed.

Lemma filter_rows_empty_selection_witness :
  ("team" ∈ columns sample_stats → "pos" ∈ columns sample_stats →
   is_Ok (filter_rows [] unique_pos sample_stats)) ∧
  ∀ df', filter_rows [] unique_pos sample_stats = Ok df' →
    df_index df' = [] ∧ columns df' = columns sample_stats ∧
    shape df' = (0, (shape sample_stats).2) ∧ frame_empty df' = true.
Proof.
  apply (filter_rows_empty_selection [] unique_pos sample_stats);
    [apply sample_stats_wf|by left].
Defined.

(** Filtering is idempotent: filtering the filtered table with the same
    selection changes nothing. *)
Theorem filter_rows_idemp (st sp : list string) (df df' : DataFrame) :
  frame_wf df → filter_rows st sp df = Ok df' → filter_rows st sp df' = Ok df'.
Proof.
  intros Hwf (team & pos & Ht & Hp & ->)%filter_rows_inv.
  set (m := filter_mask team pos st sp).
  destruct (lookup_series_ok df "team" team Hwf Ht) as [Hlt _].
  destruct (lookup_series_ok df "pos" pos Hwf Hp) as [Hlp _].
  apply (filter_rows_all st sp _ (series_select m team) (series_select m pos)).
  - by apply frame_select_wf.
  - by rewrite frame_select_lookup, Ht.
  - by rewrite frame_select_lookup, Hp.
  - apply Forall_select. intros i c Hc Hm.
    apply filter_mask_lookup in Hm as [(t & ? & ?) _]. naive_solver.
  - apply Forall_select. intros i c Hc Hm.
    apply filter_mask_lookup in Hm as [_ (t & ? & ?)]. naive_solver.
Qed.

Lemma filter_rows_idemp_witness :
  filter_rows ["BOS"; "DEN"; "LAL"] unique_pos sample_filtered = Ok sample_filtered.
Proof.
  apply (filter_rows_idemp _ _ sample_stats); [apply sample_stats_wf|reflexivity].
Defined.


(** ** The team options *)
Section options_lemmas.
Implicit Types (df : DataFrame) (team pos : Series) (l : list cell).

Lemma mapM_cell_as_str l :
  Forall (λ c, ∃ t, c = CStr t) l →
  ∃ names, mapM cell_as_str l = Some names ∧ CStr <$> names = l.
Proof.
  induction 1 as [|c l [t ->] _ (names & Hn & Hl)]; [by exists []|].
  exists (t :: names). split; [|by rewrite <-Hl].
  apply mapM_Some. constructor; [done|by apply mapM_Some].
Qed.

Lemma mapM_cell_as_str_inv l names :
  mapM cell_as_str l = Some names → l = CStr <$> names.
Proof.
  rewrite mapM_Some. induction 1 as [|[] ???? IH]; simplify_eq/=; by f_equal.
Qed.

Lemma py_sorted_sorted (l : list string) : StronglySorted String.le (py_sorted l).
Proof. apply (StronglySorted_merge_sort _). Qed.

Lemma py_sorted_Permutation (l : list string) : py_sorted l ≡ₚ l.
Proof. apply merge_sort_Permutation. Qed.

(** Two sorted duplicate-free lists of the same strings are equal. *)
Lemma sorted_NoDup_unique (l k : list string) :
  StronglySorted String.le l → StronglySorted String.le k →
  NoDup l → NoDup k → (∀ x, x ∈ l ↔ x ∈ k) → l = k.
Proof.
  intros ?? ?? ?. apply (StronglySorted_unique String.le); [done..|].
  by apply NoDup_Permutation.
Qed.

Lemma sorted_unique_team_inv df opts :
  sorted_unique_team df = Ok opts →
  ∃ team names, col_lookup "team" (df_cols df) = Some team ∧
    unique (s_values team) = CStr <$> names ∧ opts = py_sorted names.
Proof.
  unfold sorted_unique_team, getitem.
  intros (team & Ht%or_raise_Ok & (names & Hn%or_raise_Ok & [= <-])%bind_Ok)%bind_Ok.
  exists team, names. eauto using mapM_cell_as_str_inv.
Qed.

Lemma sorted_unique_team_Ok df team :
  col_lookup "team" (df_cols df) = Some team → all_str team →
  ∃ names, unique (s_values team) = CStr <$> names ∧
           sorted_unique_team df = Ok (py_sorted names).
Proof.
  intros Ht Hs. destruct (mapM_cell_as_str (unique (s_values team))) as (names & Hm & Hn).
  - apply Forall_forall. intros c Hc. apply (proj1 (elem_of_unique _ _)) in Hc.
    unfold all_str in Hs. rewrite Forall_forall in Hs. auto.
  - exists names. split; [done|]. unfold sorted_unique_team, getitem.
    by rewrite Ht; simpl; rewrite Hm.
Qed.

Lemma elem_of_py_sorted_names team names t :
  unique (s_values team) = CStr <$> names →
  t ∈ py_sorted names ↔ CStr t ∈ s_values team.
Proof.
  intros Hu. rewrite py_sorted_Permutation, <-(elem_of_unique (s_values team)), Hu.
  rewrite list_elem_of_fmap. naive_solver.
Qed.

Lemma NoDup_py_sorted_names team names :
  unique (s_values team) = CStr <$> names → NoDup (py_sorted names).
Proof.
  intros Hu. rewrite py_sorted_Permutation.
  apply (NoDup_fmap_1 CStr). rewrite <-Hu. apply NoDup_unique.
Qed.

(** The default selection of teams selects every row of a text column. *)
Lemma default_teams_all team names :
  all_str team → unique (s_values team) = CStr <$> names →
  Forall (λ c, ∃ t, c = CStr t ∧ t ∈ py_sorted names) (s_values team).
Proof.
  unfold all_str. rewrite !Forall_forall. intros Hs Hu c Hc.
  destruct (Hs c Hc) as [t ->]. exists t. split; [done|].
  by apply (elem_of_py_sorted_names team).
Qed.

Lemma multiselect_subseteq `{EqDecision A} (options : list A) choice :
  multiselect options options choice ⊆ options.
Proof. unfold multiselect. destruct choice; [case_decide|]; done. Qed.
End options_lemmas.

(** A mask that selects the whole list is all true. *)
Lemma select_id_all {A} (l : list A) (m : list bool) :
  length m = length l → l ⋉ m = l → m = replicate (length l) true.
Proof.
  revert m; induction l as [|x l IH]; intros [|b m] Hl Hs; simplify_eq/=; [done|].
  destruct b; simplify_eq/=; [f_equal; auto|].
  pose proof (select_length_le l m). rewrite Hs in *. simpl in *. lia.
Qed.

(** ** The properties of the filter stage *)
Section filter_stage_lemmas.
Implicit Types (df : DataFrame) (team pos : Series).

Lemma filter_stage_default df team names :
  col_lookup "team" (df_cols df) = Some team → all_str team →
  unique (s_values team) = CStr <$> names →
  filter_stage None None df = filter_rows (py_sorted names) unique_pos df.
Proof.
  intros Ht Hs Hu. destruct (sorted_unique_team_Ok df team Ht Hs) as (names' & Hu' & Hopts).
  assert (names' = names) as -> by (apply (inj (fmap CStr)); congruence).
  unfold filter_stage. by rewrite Hopts.
Qed.

End filter_stage_lemmas.

(** C33: the team options are the teams of the table, each once, in
    ascending order; building them never fails once the team column is
    text. *)
Theorem sorted_unique_team_spec (df : DataFrame) (team : Series) :
  col_lookup "team" (df_cols df) = Some team → all_str team →
  ∃ opts, sorted_unique_team df = Ok opts ∧
    StronglySorted String.le opts ∧ NoDup opts ∧
    ∀ t, t ∈ opts ↔ CStr t ∈ s_values team.
Proof.
  intros Ht Hs. destruct (sorted_unique_team_Ok df team Ht Hs) as (names & Hu & ->).
  eexists. split_and!; [done|apply py_sorted_sorted|..].
  - by apply (NoDup_py_sorted_names team).
  - intros t. by apply elem_of_py_sorted_names.
Qed.

Lemma sorted_unique_team_spec_witness :
  ∃ opts, sorted_unique_team sample_stats = Ok opts ∧
    StronglySorted String.le opts ∧ NoDup opts ∧
    ∀ t, t ∈ opts ↔ CStr t ∈ [CStr "BOS"; CStr "LAL"; CStr "BOS"; CStr "DEN"].
Proof.
  apply (sorted_unique_team_spec sample_stats
           (obj [CStr "BOS"; CStr "LAL"; CStr "BOS"; CStr "DEN"])); [reflexivity|].
  repeat constructor; by eexists.
Defined.

(** The team options depend only on the set of teams of the table, not
    on the order of its rows: any ascending duplicate-free list of exactly
    the teams of the table is the list of options. *)
Theorem sorted_unique_team_canonical (df : DataFrame) (opts k : list string) :
  sorted_unique_team df = Ok opts →
  StronglySorted String.le k → NoDup k →
  (∀ t, t ∈ k ↔ ∃ team, col_lookup "team" (df_cols df) = Some team ∧
                         CStr t ∈ s_values team) →
  opts = k.
Proof.
  intros (team & names & Ht & Hu & ->)%sorted_unique_team_inv Hk Hn Hin.
  apply sorted_NoDup_unique; [apply py_sorted_sorted|done| |done|].
  - by apply (NoDup_py_sorted_names team).
  - intros t. rewrite Hin, (elem_of_py_sorted_names team) by done. naive_solver.
Qed.

Lemma sorted_unique_team_canonical_witness :
  ["BOS"; "DEN"; "LAL"] = ["BOS"; "DEN"; "LAL"].
Proof.
  apply (sorted_unique_team_canonical sample_stats); [reflexivity|..].
  - repeat constructor; by apply (bool_decide_unpack _).
  - by apply (bool_decide_unpack _).
  - intros t. split.
    + intros Ht. eexists. split; [reflexivity|]. set_solver.
    + intros (team & [= <-] & Ht). set_solver.
Defined.

(** C9: with the default selections the filter stage is the identity exactly
    when every position of the table is one of the five listed codes: the
    default view is unfiltered if and only if no player has another
    position. *)
Theorem filter_stage_default_identity (df : DataFrame) (team pos : Series) :
  frame_wf df →
  col_lookup "team" (df_cols df) = Some team → all_str team →
  col_lookup "pos" (df_cols df) = Some pos →
  filter_stage None None df = Ok df ↔
  Forall (λ c, ∃ p, c = CStr p ∧ p ∈ unique_pos) (s_values pos).
Proof.
  intros Hwf Ht Hs Hp.
  destruct (sorted_unique_team_Ok df team Ht Hs) as (names & Hu & _).
  rewrite (filter_stage_default df team names) by done.
  pose proof (default_teams_all team names Hs Hu) as Hall.
  destruct (lookup_series_ok df "team" team Hwf Ht) as [Hlt _].
  destruct (lookup_series_ok df "pos" pos Hwf Hp) as [Hlp _].
  split; [|by apply (filter_rows_all _ _ df team pos)].
  rewrite (filter_rows_Ok _ _ df team pos) by done. intros [= Hi].
  apply (f_equal df_index) in Hi. rewrite frame_select_index in Hi.
  apply select_id_all in Hi; [|by rewrite filter_mask_length; lia].
  apply Forall_lookup. intros i c Hc.
  destruct (proj1 (filter_mask_lookup team pos (py_sorted names) unique_pos i))
    as [_ (p & ? & ?)]; [|naive_solver].
  rewrite Hi. apply lookup_replicate_2. apply lookup_lt_Some in Hc. lia.
Qed.

Lemma filter_stage_default_identity_witness :
  filter_stage None None sample_filtered = Ok sample_filtered ↔
  Forall (λ c, ∃ p, c = CStr p ∧ p ∈ unique_pos) [CStr "PG"; CStr "SF"; CStr "C"].
Proof.
  apply (filter_stage_default_identity sample_filtered
           (obj [CStr "BOS"; CStr "LAL"; CStr "BOS"])
           (obj [CStr "PG"; CStr "SF"; CStr "C"]));
    [by apply (bool_decide_unpack _)|reflexivity| |reflexivity].
  repeat constructor; by eexists.
Defined.

(** ** The table after the filter *)
Section filter_invariants.
Implicit Types (df : DataFrame) (team pos : Series) (st sp : list string).

Lemma frame_select_no_nan df m : no_nan df → no_nan (frame_select df m).
Proof.
  unfold no_nan, frame_select. simpl. intros Hn. rewrite Forall_fmap.
  eapply Forall_impl; [exact Hn|]. intros [n s] Hs. simpl in *.
  intros Hin. apply Hs. eapply elem_of_sublist; [done|apply select_sublist].
Qed.

Lemma filter_rows_no_nan st sp df df' :
  no_nan df → filter_rows st sp df = Ok df' → no_nan df'.
Proof. intros Hn (team & pos & _ & _ & ->)%filter_rows_inv. by apply frame_select_no_nan. Qed.

Lemma filter_rows_columns st sp df df' :
  filter_rows st sp df = Ok df' → columns df' = columns df.
Proof. intros (team & pos & _ & _ & ->)%filter_rows_inv. apply frame_select_columns. Qed.

Lemma filter_rows_team_text st sp df df' team :
  filter_rows st sp df = Ok df' →
  col_lookup "team" (df_cols df) = Some team → all_str team →
  ∃ team', col_lookup "team" (df_cols df') = Some team' ∧ all_str team'.
Proof.
  intros (team0 & pos & Ht & _ & ->)%filter_rows_inv Ht' Hs.
  eexists. rewrite frame_select_lookup, Ht'. split; [done|]. by apply all_str_select.
Qed.

Lemma filter_stage_inv tc pc df df' :
  filter_stage tc pc df = Ok df' →
  ∃ options, sorted_unique_team df = Ok options ∧
    filter_rows (multiselect options options tc) (multiselect unique_pos unique_pos pc) df
      = Ok df'.
Proof. unfold filter_stage. intros (options & Ho & Hf)%bind_Ok. eauto. Qed.
End filter_invariants.

Lemma filter_stage_Ok tc pc stats team :
  col_lookup "team" (df_cols stats) = Some team → all_str team →
  "pos" ∈ columns stats → is_Ok (filter_stage tc pc stats).
Proof.
  intros Ht Hs [pos Hp]%col_lookup_is_Some.
  destruct (sorted_unique_team_Ok stats team Ht Hs) as (names & _ & Ho).
  unfold filter_stage. rewrite Ho. cbn [mbind result_bind].
  rewrite (filter_rows_Ok _ _ stats team pos) by done. by eexists.
Qed.
