(* ===== verification/Stats.v ===== *)
(** * Stats: the pandas calls of the chart branches

    The calls of [src/eda.py], lines 93, 107 and 132, on the filtered
    table: [pd.to_numeric(errors='coerce')], [nlargest], the selection of a
    list of columns and [groupby(..)[..].mean().reset_index()].  Each is
    modelled at the level of pandas' documented behaviour (pandas 2.1 or
    later for the exceptions).

    How pandas reads a number from text is a parameter ([NumParser]), like
    the printing of floats. *)

From Stdlib Require Import Ascii.
From S2P Require Import Prelude PyStr Frame.

(** ** Numbers *)

(** What a text parses to: an integer or a float. *)
Inductive num : Type := NInt (z : Z) | NFloat (q : Q).

(** The parser of [pd.to_numeric]. *)
Class NumParser := parse_number : string → option num.

(** The value of a number. *)
Definition num_q (x : num) : Q :=
  match x with NInt z => inject_Z z | NFloat q => q end.

(** The value of a numeric cell. *)
Definition num_value (c : cell) : option Q :=
  match c with
  | CInt z => Some (inject_Z z)
  | CFloat q => Some q
  | _ => None
  end.

Definition is_int (c : cell) : bool :=
  match c with CInt _ => true | _ => false end.

(** An integer stored in a float column. *)
Definition as_float (c : cell) : cell :=
  match c with CInt z => CFloat (inject_Z z) | _ => c end.

(** ** [pd.to_numeric(s, errors='coerce')] (line 93) *)
Section to_numeric.
Context {np : NumParser}.

(** Text that does not parse becomes the missing-value marker. *)
Definition coerce_cell (c : cell) : cell :=
  match c with
  | CStr s =>
      match parse_number s with
      | Some (NInt z) => CInt z
      | Some (NFloat q) => CFloat q
      | None => CNaN
      end
  | _ => c
  end.

(** A numeric column is returned as it is; an object column becomes
    [int64] when every cell is an integer and [float64] otherwise. *)
Definition to_numeric (s : Series) : Series :=
  if is_numeric (s_dtype s) then s
  else
    let vs := coerce_cell <$> s_values s in
    if forallb is_int vs then mkSeries DInt64 vs
    else mkSeries DFloat64 (as_float <$> vs).
End to_numeric.

(** A parser for the examples: an optional sign, digits, and optionally a
    point followed by digits. *)
Definition digit_val (c : ascii) : option Z :=
  let n := Z.of_N (N_of_ascii c) in
  if bool_decide (48 ≤ n ≤ 57)%Z then Some (n - 48)%Z else None.

Fixpoint digits_val (acc : Z) (s : string) : option Z :=
  match s with
  | EmptyString => Some acc
  | String c s => d ← digit_val c; digits_val (10 * acc + d)%Z s
  end.

(** The text before the first point, and the text after it if there is a
    point. *)
Fixpoint split_point (s : string) : string * option string :=
  match s with
  | EmptyString => (EmptyString, None)
  | String c s =>
      if decide (c = "."%char) then (EmptyString, Some s)
      else let '(a, b) := split_point s in (String c a, b)
  end.

Definition parse_unsigned (s : string) : option num :=
  let '(a, b) := split_point s in
  if decide (a = EmptyString) then None
  else
    n ← digits_val 0 a;
    match b with
    | None => Some (NInt n)
    | Some f =>
        m ← digits_val 0 f;
        Some (NFloat (inject_Z n + (m # Pos.pow 10 (Pos.of_nat (String.length f))))%Q)
    end.

Definition num_opp (x : num) : num :=
  match x with NInt z => NInt (- z) | NFloat q => NFloat (- q) end.

Definition decimal_parse : NumParser := λ s,
  match s with
  | String "-" s => num_opp <$> parse_unsigned s
  | _ => parse_unsigned s
  end.

(** ** [df.nlargest(n, col)] (line 107) *)

(** The order of the rows of [nlargest]: larger values first, missing values
    last, and the earlier row first among equal values ([keep='first']).
    Rows are pairs of a position and a cell. *)
Definition desc_leb (a b : nat * cell) : bool :=
  match num_value a.2, num_value b.2 with
  | Some x, Some y =>
      match (x ?= y)%Q with
      | Gt => true
      | Eq => bool_decide (a.1 ≤ b.1)
      | Lt => false
      end
  | Some _, None => true
  | None, Some _ => false
  | None, None => bool_decide (a.1 ≤ b.1)
  end.

Definition desc_le (a b : nat * cell) : Prop := desc_leb a b.

#[global] Instance desc_le_dec : RelDecision desc_le.
Proof. intros a b. unfold desc_le. apply _. Defined.

(** The cells with their positions. *)
Definition positioned (vs : list cell) : list (nat * cell) :=
  zip (seq 0 (length vs)) vs.

(** The positions of the [n] rows [nlargest] keeps, in the order it returns
    them. *)
Definition nlargest_positions (n : nat) (vs : list cell) : list nat :=
  (take n (merge_sort desc_le (positioned vs))).*1.

(** The order, spelled out on the values. *)
Definition desc_spec (a b : nat * cell) : Prop :=
  match num_value a.2, num_value b.2 with
  | Some x, Some y => (y < x)%Q ∨ (x == y)%Q ∧ a.1 ≤ b.1
  | Some _, None => True
  | None, Some _ => False
  | None, None => a.1 ≤ b.1
  end.

(** Descending order of the values alone, missing values last. *)
Definition value_ge (a b : cell) : Prop :=
  match num_value a, num_value b with
  | Some x, Some y => (y <= x)%Q
  | None, Some _ => False
  | _, None => True
  end.

(** Row [p] comes before row [q] in the order of [nlargest]. *)
Definition row_before (vs : list cell) (p q : nat) : Prop :=
  ∃ a b, vs !! p = Some a ∧ vs !! q = Some b ∧ desc_spec (p, a) (q, b).

(** The elements of a list at the given positions ([iloc]). *)
Definition take_positions {A} (ps : list nat) (l : list A) : list A :=
  omap (λ i, l !! i) ps.

Definition series_take (ps : list nat) (s : Series) : Series :=
  mkSeries (s_dtype s) (take_positions ps (s_values s)).

(** The rows at the given positions, with their labels. *)
Definition take_rows (ps : list nat) (df : DataFrame) : DataFrame :=
  mkFrame (take_positions ps (df_index df)) (prod_map id (series_take ps) <$> df_cols df).

(** The message of the [TypeError] of [nlargest] on a column of dtype
    object. *)
Definition nlargest_message (col : string) : string :=
  "Column '" +:+ col +:+ "' has dtype object, cannot use method 'nlargest' with this dtype".

(** [df.nlargest(n, col)]: [KeyError] without the column, [TypeError] when
    the column is not numeric. *)
Definition nlargest (n : nat) (col : string) (df : DataFrame) : result DataFrame :=
  s ← getitem col df;
  if is_numeric (s_dtype s)
  then mret (take_rows (nlargest_positions n (s_values s)) df)
  else Raise (TypeError (nlargest_message col)).

(** [df[[name; ...]]]: the listed columns in the listed order. *)
Definition select_columns (names : list string) (df : DataFrame) : result DataFrame :=
  cols ← mapM (λ n, s ← getitem n df; mret (n, s)) names;
  mret (mkFrame (df_index df) cols).

(** ** [df.groupby(by)[col].mean().reset_index()] (line 132) *)

(** The order of group keys: numbers by value, then text in code-point
    order, then the missing-value marker. *)
Definition cell_leb (a b : cell) : bool :=
  match num_value a, num_value b with
  | Some x, Some y => Qle_bool x y
  | Some _, None => true
  | None, Some _ => false
  | None, None =>
      match a, b with
      | CStr s, CStr t => bool_decide (String.le s t)
      | CStr _, _ => true
      | _, CStr _ => false
      | _, _ => true
      end
  end.

Definition cell_le (a b : cell) : Prop := cell_leb a b.

#[global] Instance cell_le_dec : RelDecision cell_le.
Proof. intros a b. unfold cell_le. apply _. Defined.

(** Two cells are the same group key. *)
Definition same_key (a b : cell) : bool := cell_leb a b && cell_leb b a.

(** The first occurrence of every key. *)
Fixpoint unique_by {A} (eqb : A → A → bool) (l : list A) : list A :=
  match l with
  | [] => []
  | x :: l => x :: filter (λ y, eqb x y = false) (unique_by eqb l)
  end.

(** The group keys: the distinct values that are not missing, ascending. *)
Definition group_keys (vs : list cell) : list cell :=
  merge_sort cell_le (unique_by same_key (filter (λ c, c ≠ CNaN) vs)).

(** The cells of [vals] in the rows whose key is [key]. *)
Definition group_values (key : cell) (keys vals : list cell) : list cell :=
  vals ⋉ (same_key key <$> keys).

Definition Qsum (l : list Q) : Q := foldr Qplus 0%Q l.

(** The mean, in lowest terms. *)
Definition Qmean (l : list Q) : Q := Qred (Qsum l / inject_Z (Z.of_nat (length l)))%Q.

(** The mean of the cells that are not missing; missing when there is
    none. *)
Definition mean_cell (vs : list cell) : cell :=
  match omap num_value vs with
  | [] => CNaN
  | xs => CFloat (Qmean xs)
  end.

(** A cell that holds text. *)
Definition is_text (c : cell) : bool :=
  match c with CStr _ => true | _ => false end.

(** The cells of [vals] in the rows that belong to a group: the rows whose
    key is not missing. *)
Definition grouped_values (keys vals : list cell) : list cell :=
  vals ⋉ ((λ k, bool_decide (k ≠ CNaN)) <$> keys).

(** The dtype of the column of means: [float64] for a numeric column; an
    object column keeps its dtype. *)
Definition mean_dtype (d : dtype) : dtype :=
  if is_numeric d then DFloat64 else DObject.

(** The table of the means of [col] by [by_]. *)
Definition mean_table (by_ col : string) (k v : Series) : DataFrame :=
  let keys := group_keys (s_values k) in
  mkFrame (seq 0 (length keys))
    [(by_, mkSeries (s_dtype k) keys);
     (col, mkSeries (mean_dtype (s_dtype v))
        ((λ key, mean_cell (group_values key (s_values k) (s_values v))) <$> keys))].

(** [KeyError] without one of the columns.  The mean of a numeric column
    is computed by pandas' compiled code; for an object column pandas
    falls back to summing the Python objects of every group, which raises
    [TypeError] as soon as a group holds text and computes the mean when
    the cells are numbers. *)
Definition groupby_mean (by_ col : string) (df : DataFrame) : result DataFrame :=
  k ← getitem by_ df;
  v ← getitem col df;
  if is_numeric (s_dtype v)
     || negb (existsb is_text (grouped_values (s_values k) (s_values v)))
  then mret (mean_table by_ col k v)
  else Raise (TypeError "agg function failed [how->mean,dtype->object]").

(** The rank of a cell in the order of the keys: numbers, text, missing. *)
Definition cell_rank (c : cell) : nat :=
  match c with CInt _ | CFloat _ => 0 | CStr _ => 1 | CNaN => 2 end.

(** The relation between a key and the next keys: strictly ascending. *)
Definition key_lt (a b : cell) : Prop := cell_le a b ∧ same_key a b = false.

(** ** Sample tables *)

Definition sample_points : DataFrame :=
  mkFrame [0; 1; 3; 4; 7]
    [("player", obj [CStr "A"; CStr "B"; CStr "C"; CStr "D"; CStr "E"]);
     ("age", mkSeries DInt64 [CInt 25; CInt 31; CInt 25; CInt 22; CInt 31]);
     ("team", obj [CStr "BOS"; CStr "LAL"; CStr "BOS"; CStr "DEN"; CStr "LAL"]);
     ("pts", mkSeries DFloat64
        [CFloat 10.5%Q; CFloat 30%Q; CFloat 4.5%Q; CFloat 30%Q; CFloat 12%Q]);
     ("ast", mkSeries DFloat64
        [CFloat 2%Q; CFloat 8%Q; CFloat 1%Q; CFloat 7%Q; CFloat 3%Q])].

(** ** Lemmas *)

(** ** The order of [nlargest] *)
Section desc_order.
Implicit Types (a b c : nat * cell) (x y : Q).

Lemma desc_le_spec a b : desc_le a b ↔ desc_spec a b.
Proof.
  unfold desc_le, desc_leb, desc_spec.
  destruct (num_value a.2) as [x|], (num_value b.2) as [y|]; try done.
  - destruct (Qcompare_spec x y) as [He|Hl|Hg]; rewrite ?bool_decide_spec.
    + split; [by right|]. intros [Hl|[_ ?]]; [|done].
      rewrite He in Hl. by apply Qlt_irrefl in Hl.
    + split; [done|]. intros [Hl'|[He _]].
      * by apply (Qlt_irrefl x), (Qlt_trans _ y).
      * rewrite He in Hl. by apply Qlt_irrefl in Hl.
    + split; [by left|done].
  - by rewrite bool_decide_spec.
Qed.

#[global] Instance desc_le_total : Total desc_le.
Proof.
  intros a b. rewrite !desc_le_spec. unfold desc_spec.
  destruct (num_value a.2) as [x|], (num_value b.2) as [y|]; try (by auto); [|lia].
  destruct (Q_dec x y) as [[?|?]|He]; [by auto..|].
  destruct (decide (a.1 ≤ b.1)); [by auto|].
  right; right. split; [by symmetry|lia].
Qed.

#[global] Instance desc_le_trans : Transitive desc_le.
Proof.
  intros a b c. rewrite !desc_le_spec. unfold desc_spec.
  destruct (num_value a.2) as [x|], (num_value b.2) as [y|],
    (num_value c.2) as [z|]; try done; [|lia].
  intros [H1|[H1 ?]] [H2|[H2 ?]].
  - left. by apply (Qlt_trans _ y).
  - left. by rewrite <-H2.
  - left. by rewrite H1.
  - right. split; [by rewrite H1|lia].
Qed.

(** Two rows at different positions are never both before each other. *)
Lemma desc_le_antisym a b : desc_le a b → desc_le b a → a.1 = b.1.
Proof.
  rewrite !desc_le_spec. unfold desc_spec.
  destruct (num_value a.2) as [x|], (num_value b.2) as [y|]; try done; [|lia].
  intros [H1|[H1 ?]] [H2|[H2 ?]]; [| | |lia].
  - by destruct (Qlt_irrefl x); apply (Qlt_trans _ y).
  - rewrite H2 in H1. by apply Qlt_irrefl in H1.
  - rewrite H1 in H2. by apply Qlt_irrefl in H2.
Qed.
End desc_order.

(** ** Positions *)
Section positions.
Implicit Types (vs : list cell) (ps : list nat) (n p q : nat).

Lemma positioned_fst vs : (positioned vs).*1 = seq 0 (length vs).
Proof. unfold positioned. apply fst_zip. by rewrite length_seq. Qed.

Lemma positioned_snd vs : (positioned vs).*2 = vs.
Proof. unfold positioned. apply snd_zip. by rewrite length_seq. Qed.

Lemma elem_of_positioned vs p c : (p, c) ∈ positioned vs ↔ vs !! p = Some c.
Proof.
  unfold positioned. rewrite list_elem_of_lookup. setoid_rewrite lookup_zip_with_Some.
  split.
  - intros (i & x & y & [= -> ->] & Hx & Hy). apply lookup_seq in Hx as [-> _]. done.
  - intros Hp. exists p, p, c. split_and!; [done| |done].
    apply lookup_seq. split; [done|]. by apply lookup_lt_Some in Hp.
Qed.

Lemma sorted_positions_Permutation vs :
  (merge_sort desc_le (positioned vs)).*1 ≡ₚ seq 0 (length vs).
Proof. by rewrite merge_sort_Permutation, positioned_fst. Qed.

Lemma nlargest_positions_length n vs :
  length (nlargest_positions n vs) = n `min` length vs.
Proof.
  unfold nlargest_positions. rewrite length_fmap, length_take.
  rewrite merge_sort_Permutation. unfold positioned.
  rewrite length_zip_with, length_seq. lia.
Qed.

Lemma nlargest_positions_sublist n vs :
  nlargest_positions n vs `sublist_of` (merge_sort desc_le (positioned vs)).*1.
Proof. unfold nlargest_positions. apply fmap_sublist, sublist_take. Qed.

Lemma nlargest_positions_NoDup n vs : NoDup (nlargest_positions n vs).
Proof.
  eapply sublist_NoDup; [|apply nlargest_positions_sublist].
  rewrite sorted_positions_Permutation. apply NoDup_seq.
Qed.

Lemma nlargest_positions_lt n vs p :
  p ∈ nlargest_positions n vs → p < length vs.
Proof.
  intros Hp. eapply elem_of_sublist in Hp; [|apply nlargest_positions_sublist].
  rewrite sorted_positions_Permutation in Hp. by apply elem_of_seq in Hp as [_ ?].
Qed.

(** With room for every row the positions are all the positions. *)
Lemma nlargest_positions_all n vs :
  length vs ≤ n → nlargest_positions n vs ≡ₚ seq 0 (length vs).
Proof.
  intros Hn. unfold nlargest_positions. rewrite take_ge.
  - apply sorted_positions_Permutation.
  - rewrite merge_sort_Permutation. unfold positioned.
    rewrite length_zip_with, length_seq. lia.
Qed.
End positions.

(** ** The rows [nlargest] keeps *)
Section nlargest_order.
Implicit Types (vs : list cell) (ps : list nat) (n p q : nat).

Lemma sorted_rows vs : StronglySorted desc_le (merge_sort desc_le (positioned vs)).
Proof. apply (StronglySorted_merge_sort _). Qed.

Lemma elem_of_sorted_rows vs p c :
  (p, c) ∈ merge_sort desc_le (positioned vs) ↔ vs !! p = Some c.
Proof. by rewrite merge_sort_Permutation, elem_of_positioned. Qed.

Lemma elem_of_nlargest_positions n vs p :
  p ∈ nlargest_positions n vs ↔
  ∃ c, (p, c) ∈ take n (merge_sort desc_le (positioned vs)).
Proof.
  unfold nlargest_positions. rewrite list_elem_of_fmap. split.
  - intros ([p' c] & -> & ?). by exists c.
  - intros (c & ?). by exists (p, c).
Qed.

(** The rows kept are in the order of [nlargest]. *)
Lemma nlargest_positions_sorted n vs i j p q :
  i < j → nlargest_positions n vs !! i = Some p →
  nlargest_positions n vs !! j = Some q → row_before vs p q.
Proof.
  unfold nlargest_positions. rewrite !list_lookup_fmap.
  intros Hij ([p' a] & Ha & ->)%fmap_Some ([q' b] & Hb & ->)%fmap_Some.
  exists a, b. simpl.
  pose proof (sorted_rows vs) as Hs.
  rewrite <-(take_drop n (merge_sort _ _)) in Hs.
  apply StronglySorted_app_1_l in Hs.
  pose proof Ha as [Ha' _]%lookup_take_Some. pose proof Hb as [Hb' _]%lookup_take_Some.
  split_and!.
  - apply elem_of_sorted_rows. by eapply list_elem_of_lookup_2.
  - apply elem_of_sorted_rows. by eapply list_elem_of_lookup_2.
  - apply desc_le_spec. by eapply (StronglySorted_lookup _ _ i j).
Qed.

(** Every row kept comes before every row left out. *)
Lemma nlargest_positions_top n vs p q :
  p ∈ nlargest_positions n vs → q < length vs → q ∉ nlargest_positions n vs →
  row_before vs p q.
Proof.
  intros (a & Ha)%elem_of_nlargest_positions Hq Hnq.
  destruct (lookup_lt_is_Some_2 vs q Hq) as [b Hb].
  exists a, b. split_and!; [|done|].
  - apply elem_of_sorted_rows. eapply elem_of_sublist; [done|apply sublist_take].
  - apply desc_le_spec. pose proof (sorted_rows vs) as Hs.
    rewrite <-(take_drop n (merge_sort _ _)) in Hs.
    eapply StronglySorted_app_1_elem_of; [done..|].
    apply elem_of_sorted_rows in Hb.
    rewrite <-(take_drop n (merge_sort _ _)), elem_of_app in Hb.
    destruct Hb as [Hb|Hb]; [|done].
    destruct Hnq. apply elem_of_nlargest_positions. by exists b.
Qed.
End nlargest_order.

(** ** [take_rows] and [nlargest] on a frame *)
Section take_rows.
Implicit Types (df : DataFrame) (s : Series) (vs : list cell) (ps : list nat).

Lemma take_positions_rows {A} (rows : list (nat * A)) (l : list A) :
  Forall (λ r, l !! r.1 = Some r.2) rows → take_positions rows.*1 l = rows.*2.
Proof.
  unfold take_positions. induction 1 as [|[p c] rows Hr _ IH]; [done|].
  csimpl in *. by rewrite Hr, IH.
Qed.

Lemma take_positions_seq_app {A} (k l : list A) :
  take_positions (seq (length k) (length l)) (k ++ l) = l.
Proof.
  unfold take_positions. revert k; induction l as [|x l IH]; intros k; [done|].
  csimpl. rewrite list_lookup_middle by done. simpl. f_equal.
  specialize (IH (k ++ [x])). rewrite length_app, <-app_assoc in IH. simpl in IH.
  by rewrite Nat.add_1_r in IH.
Qed.

(** Taking every position in order is the identity. *)
Lemma take_positions_seq {A} (l : list A) : take_positions (seq 0 (length l)) l = l.
Proof. apply (take_positions_seq_app []). Qed.

Lemma take_positions_length {A} ps (l : list A) :
  Forall (λ p, p < length l) ps → length (take_positions ps l) = length ps.
Proof.
  unfold take_positions. induction 1 as [|p ps Hp _ IH]; [done|]. csimpl.
  destruct (lookup_lt_is_Some_2 l p Hp) as [x ->]. simpl. by rewrite IH.
Qed.

Lemma take_positions_elem_of {A} ps (l : list A) x :
  x ∈ take_positions ps l → x ∈ l.
Proof.
  unfold take_positions. rewrite list_elem_of_omap.
  intros (p & _ & ?). by eapply list_elem_of_lookup_2.
Qed.

Lemma take_positions_NoDup {A} ps (l : list A) :
  NoDup l → NoDup ps → NoDup (take_positions ps l).
Proof.
  intros Hl. unfold take_positions. induction 1 as [|p ps Hp _ IH]; csimpl; [constructor|].
  destruct (l !! p) as [y|] eqn:Hy; [|done]. constructor; [|done].
  rewrite list_elem_of_omap. intros (q & Hq & Hy').
  by rewrite (NoDup_lookup l p q y) in Hp.
Qed.

Lemma take_rows_columns ps df : columns (take_rows ps df) = columns df.
Proof.
  unfold columns, take_rows. simpl. rewrite <-list_fmap_compose.
  by apply list_fmap_ext; intros ? [].
Qed.

Lemma take_rows_lookup ps df name :
  col_lookup name (df_cols (take_rows ps df)) =
  series_take ps <$> col_lookup name (df_cols df).
Proof. apply col_lookup_fmap. Qed.

Lemma take_rows_wf ps df :
  frame_wf df → NoDup ps → Forall (λ p, p < length (df_index df)) ps →
  frame_wf (take_rows ps df).
Proof.
  intros [Hs Hi Hn] Hps Hlt. split.
  - simpl. rewrite Forall_fmap, take_positions_length by done.
    eapply Forall_impl; [exact Hs|]. intros [n s] [Hlen Hok]; simpl in *. split; simpl.
    + apply take_positions_length. by rewrite Hlen.
    + apply Forall_forall. intros c Hc%take_positions_elem_of.
      rewrite Forall_forall in Hok. auto.
  - by apply take_positions_NoDup.
  - by rewrite take_rows_columns.
Qed.

(** The values of the sorted rows, in order. *)
Lemma sorted_rows_values n vs :
  take_positions (nlargest_positions n vs) vs =
  (take n (merge_sort desc_le (positioned vs))).*2.
Proof.
  apply take_positions_rows, Forall_forall. intros [p c] Hin. simpl.
  apply elem_of_sorted_rows. eapply elem_of_sublist; [done|apply sublist_take].
Qed.

Lemma desc_le_value_ge (a b : nat * cell) : desc_le a b → value_ge a.2 b.2.
Proof.
  rewrite desc_le_spec. unfold desc_spec, value_ge.
  destruct (num_value a.2) as [x|], (num_value b.2) as [y|]; try done.
  intros [?|[-> _]]; [by apply Qlt_le_weak|apply Qle_refl].
Qed.

(** The values [nlargest] returns are in descending order. *)
Lemma nlargest_values_sorted n vs :
  StronglySorted value_ge (take_positions (nlargest_positions n vs) vs).
Proof.
  rewrite sorted_rows_values.
  apply (StronglySorted_fmap snd desc_le); [apply desc_le_value_ge|].
  pose proof (sorted_rows vs) as Hs.
  rewrite <-(take_drop n (merge_sort _ _)) in Hs.
  by apply StronglySorted_app_1_l in Hs.
Qed.

(** With room for every row the values are all the values. *)
Lemma nlargest_values_all n vs :
  length vs ≤ n → take_positions (nlargest_positions n vs) vs ≡ₚ vs.
Proof.
  intros Hn. rewrite sorted_rows_values, take_ge.
  - by rewrite merge_sort_Permutation, positioned_snd.
  - rewrite merge_sort_Permutation. unfold positioned.
    rewrite length_zip_with, length_seq. lia.
Qed.

Lemma nlargest_Ok n col df s :
  col_lookup col (df_cols df) = Some s → is_numeric (s_dtype s) = true →
  nlargest n col df = Ok (take_rows (nlargest_positions n (s_values s)) df).
Proof. intros Hs Hn. unfold nlargest, getitem. rewrite Hs. simpl. by rewrite Hn. Qed.

Lemma nlargest_object n col df s :
  col_lookup col (df_cols df) = Some s → s_dtype s = DObject →
  nlargest n col df = Raise (TypeError (nlargest_message col)).
Proof. intros Hs Hn. unfold nlargest, getitem. rewrite Hs. simpl. by rewrite Hn. Qed.

Lemma nlargest_inv n col df df' :
  nlargest n col df = Ok df' →
  ∃ s, col_lookup col (df_cols df) = Some s ∧ is_numeric (s_dtype s) = true ∧
       df' = take_rows (nlargest_positions n (s_values s)) df.
Proof.
  unfold nlargest, getitem. intros (s & Hs%or_raise_Ok & Hn)%bind_Ok.
  exists s. destruct (is_numeric (s_dtype s)); [|done].
  injection Hn as <-. done.
Qed.

Lemma nlargest_wf n col df df' :
  frame_wf df → nlargest n col df = Ok df' → frame_wf df'.
Proof.
  intros Hwf (s & Hs & _ & ->)%nlargest_inv.
  destruct (lookup_series_ok df col s Hwf Hs) as [Hl _].
  apply take_rows_wf; [done|apply nlargest_positions_NoDup|].
  apply Forall_forall. intros p Hp%nlargest_positions_lt. by rewrite <-Hl.
Qed.
End take_rows.

(** ** The properties of [nlargest] *)

(** C5: [nlargest(n, col)] on a numeric column keeps [min n rows] distinct
    rows, in descending order of the column with the earlier row first
    among equal values, and every row it keeps comes before every row it
    leaves out. *)
Theorem nlargest_spec (n : nat) (col : string) (df : DataFrame) (s : Series) :
  col_lookup col (df_cols df) = Some s → is_numeric (s_dtype s) = true →
  let ps := nlargest_positions n (s_values s) in
  nlargest n col df = Ok (take_rows ps df) ∧
  length ps = n `min` length (s_values s) ∧ NoDup ps ∧
  (∀ i j p q, i < j → ps !! i = Some p → ps !! j = Some q →
     row_before (s_values s) p q) ∧
  (∀ p q, p ∈ ps → q < length (s_values s) → q ∉ ps → row_before (s_values s) p q).
Proof.
  intros Hs Hn ps. split_and!.
  - by apply nlargest_Ok.
  - apply nlargest_positions_length.
  - apply nlargest_positions_NoDup.
  - apply nlargest_positions_sorted.
  - apply nlargest_positions_top.
Qed.

Lemma nlargest_spec_witness :
  let vs := [CFloat 10.5%Q; CFloat 30%Q; CFloat 4.5%Q; CFloat 30%Q; CFloat 12%Q] in
  let ps := nlargest_positions 3 vs in
  nlargest 3 "pts" sample_points = Ok (take_rows ps sample_points) ∧
  length ps = 3 `min` length vs ∧ NoDup ps ∧
  (∀ i j p q, i < j → ps !! i = Some p → ps !! j = Some q → row_before vs p q) ∧
  (∀ p q, p ∈ ps → q < length vs → q ∉ ps → row_before vs p q).
Proof.
  apply (nlargest_spec 3 "pts" sample_points
           (mkSeries DFloat64
              [CFloat 10.5%Q; CFloat 30%Q; CFloat 4.5%Q; CFloat 30%Q; CFloat 12%Q]));
    reflexivity.
Defined.

(** C23: on a table with no more rows than asked for, [nlargest] returns
    every row, sorted in descending order of the column: the rows are a
    permutation of the rows of the table and the values of the column are
    descending. *)
Theorem nlargest_small_table (n : nat) (col : string) (df df' : DataFrame) :
  frame_wf df → length (df_index df) ≤ n →
  nlargest n col df = Ok df' →
  frame_wf df' ∧ df_index df' ≡ₚ df_index df ∧
  ∃ s s', col_lookup col (df_cols df) = Some s ∧
          col_lookup col (df_cols df') = Some s' ∧
          s_values s' ≡ₚ s_values s ∧ StronglySorted value_ge (s_values s').
Proof.
  intros Hwf Hlen Hn. split; [by eapply nlargest_wf|].
  destruct (nlargest_inv _ _ _ _ Hn) as (s & Hs & _ & ->).
  destruct (lookup_series_ok df col s Hwf Hs) as [Hl _]. split.
  - simpl. unfold take_positions.
    rewrite (nlargest_positions_all n (s_values s)), Hl by lia.
    apply reflexive_eq, take_positions_seq.
  - exists s, (series_take (nlargest_positions n (s_values s)) s).
    rewrite take_rows_lookup, Hs. split_and!; [done|done|..]; simpl.
    + apply nlargest_values_all. lia.
    + apply nlargest_values_sorted.
Qed.

Lemma nlargest_small_table_witness :
  ∃ df', nlargest 10 "pts" sample_points = Ok df' ∧
  frame_wf df' ∧ df_index df' ≡ₚ df_index sample_points ∧
  ∃ s s', col_lookup "pts" (df_cols sample_points) = Some s ∧
          col_lookup "pts" (df_cols df') = Some s' ∧
          s_values s' ≡ₚ s_values s ∧ StronglySorted value_ge (s_values s').
Proof.
  eexists. split; [reflexivity|].
  apply (nlargest_small_table 10 "pts" sample_points);
    [by apply (bool_decide_unpack _)|simpl; lia|reflexivity].
Defined.

(** [nlargest] fails in exactly two ways: the column is missing
    ([KeyError]) or it is not numeric ([TypeError]), as the columns of a
    scraped page with repeated header rows are. *)
Theorem nlargest_errors (n : nat) (col : string) (df : DataFrame) (e : exn) :
  nlargest n col df = Raise e ↔
  (col ∉ columns df ∧ e = KeyError col) ∨
  (∃ s, col_lookup col (df_cols df) = Some s ∧ s_dtype s = DObject ∧
        e = TypeError (nlargest_message col)).
Proof.
  unfold nlargest. rewrite bind_Raise, getitem_Raise. unfold getitem.
  split.
  - intros [?|(s & Hs%or_raise_Ok & He)]; [by left|right].
    exists s. destruct (s_dtype s); by simplify_eq/=.
  - intros [?|(s & Hs & Hd & ->)]; [by left|right].
    exists s. by rewrite Hs, Hd.
Qed.

(** ** [to_numeric] *)
Section to_numeric_lemmas.
Context {np : NumParser}.
Implicit Types (s : Series) (c : cell) (n : nat).

Lemma coerce_cell_not_str c t : coerce_cell c ≠ CStr t.
Proof. destruct c as [u| | |]; simpl; [|done..]. by destruct (parse_number u) as [[]|]. Qed.

Lemma as_float_ok c : (∀ t, c ≠ CStr t) → cell_ok DFloat64 (as_float c).
Proof. destruct c; naive_solver. Qed.

Lemma num_value_as_float c : num_value (as_float c) = num_value c.
Proof. by destruct c. Qed.

Lemma to_numeric_numeric s : is_numeric (s_dtype (to_numeric s)) = true.
Proof.
  unfold to_numeric. destruct (is_numeric (s_dtype s)) eqn:Hd; [done|].
  by destruct (forallb _ _).
Qed.

Lemma to_numeric_fix s : is_numeric (s_dtype s) = true → to_numeric s = s.
Proof. unfold to_numeric. by intros ->. Qed.

Lemma to_numeric_idemp s : to_numeric (to_numeric s) = to_numeric s.
Proof. apply to_numeric_fix, to_numeric_numeric. Qed.

Lemma to_numeric_length s : length (s_values (to_numeric s)) = length (s_values s).
Proof.
  unfold to_numeric. destruct (is_numeric _); [done|].
  destruct (forallb _ _); simpl; by rewrite !length_fmap.
Qed.

Lemma to_numeric_ok n s : series_ok n s → series_ok n (to_numeric s).
Proof.
  intros [Hl Hok]. split; [by rewrite to_numeric_length|].
  unfold to_numeric. destruct (is_numeric _); [done|].
  destruct (forallb _ _) eqn:Hi; simpl.
  - apply Is_true_true, forallb_True in Hi. eapply Forall_impl; [exact Hi|].
    by intros [].
  - rewrite !Forall_fmap. apply Forall_true. intros c. simpl.
    apply as_float_ok, coerce_cell_not_str.
Qed.

(** Every cell after the conversion is the cell it parses to, stored as a
    float when the column is not all integers. *)
Lemma to_numeric_lookup s i c :
  s_dtype s = DObject → s_values s !! i = Some c →
  ∃ c', s_values (to_numeric s) !! i = Some c' ∧
        (c' = coerce_cell c ∨ c' = as_float (coerce_cell c)).
Proof.
  intros Hd Hc. unfold to_numeric. rewrite Hd. simpl.
  destruct (forallb _ _); simpl; rewrite ?list_lookup_fmap, Hc; simpl; eauto.
Qed.
End to_numeric_lemmas.

(** C22: [pd.to_numeric(errors='coerce')] never fails: it returns a numeric
    column of the same length whose cells fit its dtype, it leaves a numeric
    column as it is, and in an object column a text cell takes the value
    its text parses to and becomes missing when the text does not parse, a
    missing cell stays missing and a number keeps its value. *)
Theorem to_numeric_spec `{np : NumParser} (n : nat) (s : Series) :
  series_ok n s →
  series_ok n (to_numeric s) ∧ is_numeric (s_dtype (to_numeric s)) = true ∧
  (is_numeric (s_dtype s) = true → to_numeric s = s) ∧
  (s_dtype s = DObject → ∀ i c, s_values s !! i = Some c →
     ∃ c', s_values (to_numeric s) !! i = Some c' ∧
           num_value c' = num_value (coerce_cell c) ∧
           match c with
           | CStr t =>
               match parse_number t with
               | Some x => num_value c' = Some (num_q x)
               | None => c' = CNaN
               end
           | CNaN => c' = CNaN
           | _ => num_value c' = num_value c
           end).
Proof.
  intros Hok. split_and!.
  - by apply to_numeric_ok.
  - apply to_numeric_numeric.
  - apply to_numeric_fix.
  - intros Hd i c Hc.
    destruct (to_numeric_lookup s i c Hd Hc) as (c' & Hl & [-> | ->]);
      eexists; (split; [exact Hl|]); rewrite ?num_value_as_float; (split; [done|]);
      destruct c as [t| | |]; simpl; try done; by destruct (parse_number t) as [[]|].
Qed.

Lemma to_numeric_spec_witness :
  let s := obj [CStr "30.1"; CStr "Did not play"; CInt 0] in
  series_ok 3 (to_numeric (np := decimal_parse) s) ∧
  is_numeric (s_dtype (to_numeric (np := decimal_parse) s)) = true ∧
  (is_numeric (s_dtype s) = true → to_numeric (np := decimal_parse) s = s) ∧
  (s_dtype s = DObject → ∀ i c, s_values s !! i = Some c →
     ∃ c', s_values (to_numeric (np := decimal_parse) s) !! i = Some c' ∧
           num_value c' = num_value (coerce_cell (np := decimal_parse) c) ∧
           match c with
           | CStr t =>
               match parse_number (NumParser := decimal_parse) t with
               | Some x => num_value c' = Some (num_q x)
               | None => c' = CNaN
               end
           | CNaN => c' = CNaN
           | _ => num_value c' = num_value c
           end).
Proof.
  apply (to_numeric_spec (np := decimal_parse) 3
           (obj [CStr "30.1"; CStr "Did not play"; CInt 0])).
  by apply (bool_decide_unpack _).
Defined.

(** ** The order of the group keys *)
Section cell_order.
Implicit Types (a b c : cell).

Lemma cell_le_spec a b :
  cell_le a b ↔
  cell_rank a < cell_rank b ∨
  cell_rank a = cell_rank b ∧
    match a, b with
    | CStr s, CStr t => String.le s t
    | _, _ =>
        match num_value a, num_value b with
        | Some x, Some y => (x <= y)%Q
        | _, _ => True
        end
    end.
Proof.
  unfold cell_le, cell_leb.
  destruct a, b; cbn [num_value cell_rank];
    rewrite ?bool_decide_spec, ?Is_true_true, ?Qle_bool_iff;
    intuition (try done; try lia).
Qed.

#[global] Instance cell_le_refl : Reflexive cell_le.
Proof.
  intros a. apply cell_le_spec. right. split; [done|].
  destruct a; simpl; done || apply Qle_refl.
Qed.

#[global] Instance cell_le_total : Total cell_le.
Proof.
  intros a b. rewrite !cell_le_spec.
  destruct (lt_eq_lt_dec (cell_rank a) (cell_rank b)) as [[?|He]|?]; [by auto| |by auto].
  destruct a, b; simplify_eq/=;
    try (by left; right); try (destruct (total String.le s s0); by auto).
  all: match goal with |- context [(?x <= ?y)%Q] =>
         destruct (Qlt_le_dec y x) as [?%Qlt_le_weak|?]; by auto end.
Qed.

#[global] Instance cell_le_trans : Transitive cell_le.
Proof.
  intros a b c. rewrite !cell_le_spec.
  intros [?|[Hab H1]] [?|[Hbc H2]]; [left; lia..|]. right. split; [lia|].
  destruct a, b, c; simplify_eq/=; try done.
  - by etrans.
  - by eapply Qle_trans.
  - by eapply Qle_trans.
  - by eapply Qle_trans.
  - by eapply Qle_trans.
  - by eapply Qle_trans.
  - by eapply Qle_trans.
  - by eapply Qle_trans.
  - by eapply Qle_trans.
Qed.

Lemma same_key_spec a b : same_key a b = true ↔ cell_le a b ∧ cell_le b a.
Proof. unfold same_key, cell_le. rewrite andb_true_iff, !Is_true_true. done. Qed.

Lemma same_key_refl a : same_key a a = true.
Proof. by apply same_key_spec. Qed.

Lemma same_key_sym a b : same_key a b = same_key b a.
Proof. unfold same_key. apply andb_comm. Qed.

Lemma same_key_trans a b c :
  same_key a b = true → same_key b c = true → same_key a c = true.
Proof.
  rewrite !same_key_spec. intros [? ?] [? ?]. split; by etrans.
Qed.

(** A key is the same as the missing marker only if it is missing. *)
Lemma same_key_nan a : same_key a CNaN = true → a = CNaN.
Proof. by destruct a. Qed.
End cell_order.

(** ** Distinct keys *)
Section unique_by_lemmas.
Context {A : Type} (eqb : A → A → bool).
Context (eqb_refl : ∀ x, eqb x x = true).
Context (eqb_sym : ∀ x y, eqb x y = eqb y x).
Context (eqb_trans : ∀ x y z, eqb x y = true → eqb y z = true → eqb x z = true).
Implicit Types (l : list A) (x y : A).

Lemma unique_by_sublist l : unique_by eqb l `sublist_of` l.
Proof.
  induction l as [|x l IH]; [done|]. simpl. apply sublist_skip.
  etrans; [apply sublist_filter|done].
Qed.

Lemma elem_of_unique_by l x : x ∈ unique_by eqb l → x ∈ l.
Proof. intros Hx. eapply elem_of_sublist; [done|apply unique_by_sublist]. Qed.

(** Every element has a representative among the first occurrences. *)
Lemma unique_by_covers l y : y ∈ l → ∃ x, x ∈ unique_by eqb l ∧ eqb x y = true.
Proof using eqb_refl eqb_trans eqb_sym.
  induction l as [|z l IH]; [by intros ?%elem_of_nil|].
  intros [->|Hy]%elem_of_cons; simpl.
  - exists z. split; [left|done].
  - destruct (IH Hy) as (x & Hx & Hxy). destruct (eqb z x) eqn:Hzx.
    + exists z. split; [left|by eapply eqb_trans].
    + exists x. split; [|done]. right. by apply list_elem_of_filter.
Qed.

(** The first occurrences are pairwise different keys. *)
Lemma unique_by_distinct l : StronglySorted (λ x y, eqb x y = false) (unique_by eqb l).
Proof.
  induction l as [|z l IH]; simpl; constructor.
  - eapply StronglySorted_sublist; [apply sublist_filter|done].
  - apply Forall_forall. by intros y [? _]%list_elem_of_filter.
Qed.
End unique_by_lemmas.

(** ** The groups *)
Section groups.
Implicit Types (vs keys vals : list cell) (c key : cell).

Lemma group_keys_Permutation vs :
  group_keys vs ≡ₚ unique_by same_key (filter (λ c, c ≠ CNaN) vs).
Proof. apply merge_sort_Permutation. Qed.

Lemma group_keys_sorted vs : StronglySorted key_lt (group_keys vs).
Proof.
  apply StronglySorted_and; [apply (StronglySorted_merge_sort _)|].
  assert (Symmetric (λ x y, same_key x y = false)) by (intros x y; by rewrite same_key_sym).
  eapply (StronglySorted_Permutation (λ x y, same_key x y = false));
    [symmetry; apply group_keys_Permutation|apply unique_by_distinct].
Qed.

Lemma elem_of_group_keys vs key : key ∈ group_keys vs → key ∈ vs ∧ key ≠ CNaN.
Proof.
  rewrite group_keys_Permutation. intros Hk%elem_of_unique_by.
  by apply list_elem_of_filter in Hk as [? ?].
Qed.

(** Every cell that is not missing belongs to the group of one key. *)
Lemma group_keys_covers vs c :
  c ∈ vs → c ≠ CNaN → ∃ key, key ∈ group_keys vs ∧ same_key key c = true.
Proof.
  intros Hc Hn. setoid_rewrite group_keys_Permutation.
  apply (unique_by_covers same_key same_key_refl same_key_sym same_key_trans).
  by apply list_elem_of_filter.
Qed.

(** A cell belongs to the group of at most one key. *)
Lemma group_keys_disjoint vs i j k1 k2 c :
  group_keys vs !! i = Some k1 → group_keys vs !! j = Some k2 →
  same_key k1 c = true → same_key k2 c = true → i = j.
Proof.
  intros Hi Hj H1 H2. pose proof (group_keys_sorted vs) as Hs.
  assert (same_key k1 k2 = true) as H12
    by (eapply same_key_trans; [done|by rewrite same_key_sym]).
  destruct (lt_eq_lt_dec i j) as [[Hlt| ->]|Hlt]; [|done|].
  - destruct (StronglySorted_lookup _ _ i j k1 k2 Hs Hlt Hi Hj) as [_ ?]. congruence.
  - destruct (StronglySorted_lookup _ _ j i k2 k1 Hs Hlt Hj Hi) as [_ ?].
    rewrite same_key_sym in H12. congruence.
Qed.

Lemma group_values_lookup key keys vals v :
  v ∈ group_values key keys vals ↔
  ∃ i k, keys !! i = Some k ∧ vals !! i = Some v ∧ same_key key k = true.
Proof.
  unfold group_values. rewrite elem_of_select. split.
  - intros (i & Hv & Hm). apply list_lookup_fmap_Some in Hm as (k & ? & ?). eauto.
  - intros (i & k & Hk & Hv & Hs). exists i. split; [done|].
    rewrite list_lookup_fmap, Hk. simpl. by rewrite Hs.
Qed.

Lemma mean_cell_ok vs : cell_ok DFloat64 (mean_cell vs).
Proof. unfold mean_cell. by destruct (omap num_value vs). Qed.

Lemma mean_cell_value vs x xs :
  omap num_value vs = x :: xs → mean_cell vs = CFloat (Qmean (x :: xs)).
Proof. unfold mean_cell. by intros ->. Qed.

Lemma Qmean_spec (l : list Q) :
  l ≠ [] → (Qmean l * inject_Z (Z.of_nat (length l)) == Qsum l)%Q.
Proof.
  intros Hl. unfold Qmean. rewrite Qred_correct. field.
  destruct l; [done|]. simpl. unfold Qeq. simpl. lia.
Qed.
End groups.

Section groupby_lemmas.
Implicit Types (df : DataFrame) (k v : Series).

Lemma groupby_mean_numeric by_ col df k v :
  col_lookup by_ (df_cols df) = Some k → col_lookup col (df_cols df) = Some v →
  is_numeric (s_dtype v) = true →
  groupby_mean by_ col df = Ok (mean_table by_ col k v).
Proof. intros Hk Hv Hn. unfold groupby_mean, getitem. rewrite Hk, Hv. simpl. by rewrite Hn. Qed.

(** A row with a key and a text cell belongs to a group. *)
Lemma grouped_values_text keys vals i key t :
  keys !! i = Some key → key ≠ CNaN → vals !! i = Some (CStr t) →
  existsb is_text (grouped_values keys vals) = true.
Proof.
  intros Hk Hn Hv. apply existsb_exists. exists (CStr t). split; [|done].
  apply list_elem_of_In, elem_of_select. exists i. split; [done|].
  rewrite list_lookup_fmap, Hk. simpl. by rewrite bool_decide_eq_true_2.
Qed.

(** On an object column the mean fails exactly when a group holds text. *)
Lemma groupby_mean_object by_ col df k v :
  col_lookup by_ (df_cols df) = Some k → col_lookup col (df_cols df) = Some v →
  s_dtype v = DObject →
  groupby_mean by_ col df =
    if existsb is_text (grouped_values (s_values k) (s_values v))
    then Raise (TypeError "agg function failed [how->mean,dtype->object]")
    else Ok (mean_table by_ col k v).
Proof.
  intros Hk Hv Hd. unfold groupby_mean, getitem. rewrite Hk, Hv. simpl. rewrite Hd. simpl.
  by destruct (existsb _ _).
Qed.

Lemma mean_cell_dtype_ok d vs : cell_ok (mean_dtype d) (mean_cell vs).
Proof. unfold mean_dtype. destruct (is_numeric d); [apply mean_cell_ok|done]. Qed.

Lemma mean_table_wf by_ col k v n :
  by_ ≠ col → series_ok n k → frame_wf (mean_table by_ col k v).
Proof.
  intros Hne [_ Hok]. split; simpl.
  - rewrite length_seq. repeat constructor; simpl; rewrite ?length_fmap; try done.
    + apply Forall_forall. intros c [Hc _]%elem_of_group_keys.
      rewrite Forall_forall in Hok. auto.
    + apply Forall_fmap, Forall_true. intros c. apply mean_cell_dtype_ok.
  - apply NoDup_seq.
  - unfold columns. simpl. apply NoDup_cons. split; [set_solver|apply NoDup_singleton].
Qed.
End groupby_lemmas.

(** C14: [groupby(by)[col].mean().reset_index()] on a numeric column returns
    a well-formed table of two columns with one row per key: the keys are
    the values of [by] that are not missing, strictly ascending, every such
    value belongs to the group of exactly one key, and the cell beside a key
    is the mean of its group: missing when the group has no value, and
    otherwise the number that, multiplied by the count of the values of the
    group, gives their sum. *)
Theorem groupby_mean_spec (by_ col : string) (df : DataFrame) (k v : Series) :
  frame_wf df → by_ ≠ col →
  col_lookup by_ (df_cols df) = Some k → col_lookup col (df_cols df) = Some v →
  is_numeric (s_dtype v) = true →
  let keys := group_keys (s_values k) in
  let group key := group_values key (s_values k) (s_values v) in
  groupby_mean by_ col df =
    Ok (mkFrame (seq 0 (length keys))
          [(by_, mkSeries (s_dtype k) keys);
           (col, mkSeries DFloat64 (mean_cell ∘ group <$> keys))]) ∧
  frame_wf (mean_table by_ col k v) ∧
  StronglySorted key_lt keys ∧
  (∀ key, key ∈ keys → key ∈ s_values k ∧ key ≠ CNaN) ∧
  (∀ c, c ∈ s_values k → c ≠ CNaN → ∃ key, key ∈ keys ∧ same_key key c = true) ∧
  (∀ i j k1 k2 c, keys !! i = Some k1 → keys !! j = Some k2 →
     same_key k1 c = true → same_key k2 c = true → i = j) ∧
  (∀ key,
     match omap num_value (group key) with
     | [] => mean_cell (group key) = CNaN
     | xs => ∃ m, mean_cell (group key) = CFloat m ∧
                  (m * inject_Z (Z.of_nat (length xs)) == Qsum xs)%Q
     end).
Proof.
  intros Hwf Hne Hk Hv Hn keys group.
  pose proof (groupby_mean_numeric by_ col df k v Hk Hv Hn) as Hg.
  unfold mean_table, mean_dtype in Hg. rewrite Hn in Hg.
  split_and!; [done| |apply group_keys_sorted|apply elem_of_group_keys|
    apply group_keys_covers|apply group_keys_disjoint|].
  - eapply mean_table_wf; [done|]. by eapply lookup_series_ok.
  - intros key. destruct (omap num_value (group key)) as [|x xs] eqn:Hx.
    + unfold mean_cell. by rewrite Hx.
    + exists (Qmean (x :: xs)). split; [by apply mean_cell_value|by apply Qmean_spec].
Qed.

Lemma groupby_mean_spec_witness :
  let k := mkSeries DInt64 [CInt 25; CInt 31; CInt 25; CInt 22; CInt 31] in
  let v := mkSeries DFloat64
    [CFloat 10.5%Q; CFloat 30%Q; CFloat 4.5%Q; CFloat 30%Q; CFloat 12%Q] in
  let keys := group_keys (s_values k) in
  let group key := group_values key (s_values k) (s_values v) in
  groupby_mean "age" "pts" sample_points =
    Ok (mkFrame (seq 0 (length keys))
          [("age", mkSeries (s_dtype k) keys);
           ("pts", mkSeries DFloat64 (mean_cell ∘ group <$> keys))]) ∧
  frame_wf (mean_table "age" "pts" k v) ∧
  StronglySorted key_lt keys ∧
  (∀ key, key ∈ keys → key ∈ s_values k ∧ key ≠ CNaN) ∧
  (∀ c, c ∈ s_values k → c ≠ CNaN → ∃ key, key ∈ keys ∧ same_key key c = true) ∧
  (∀ i j k1 k2 c, keys !! i = Some k1 → keys !! j = Some k2 →
     same_key k1 c = true → same_key k2 c = true → i = j) ∧
  (∀ key,
     match omap num_value (group key) with
     | [] => mean_cell (group key) = CNaN
     | xs => ∃ m, mean_cell (group key) = CFloat m ∧
                  (m * inject_Z (Z.of_nat (length xs)) == Qsum xs)%Q
     end).
Proof.
  apply (groupby_mean_spec "age" "pts" sample_points);
    [by apply (bool_decide_unpack _)|done|reflexivity..].
Defined.

