(* ===== verification/Corr.v ===== *)
(** * Corr: the correlation matrix and the mask of the heat map

    Lines 78-80 of [src/eda.py]: [numeric_df.corr()], [np.zeros_like(corr)]
    and the assignment at [np.triu_indices_from(mask)].  Pearson's
    coefficient is the square root of a rational: an entry of the matrix is
    kept exactly, as a sign and the rational square of the coefficient. *)

From Stdlib Require Import Lqa.
From S2P Require Import Prelude PyStr Frame Stats.

(** ** [df.corr()] (line 78) *)

(** An entry of the correlation matrix: missing, or the real number
    [sign * sqrt square]. *)
Inductive rcell : Type :=
| RNaN
| RSqrt (sign : Z) (square : Q).

(** A matrix with labelled rows and columns. *)
Record Matrix : Type := mkMatrix {
  m_labels : list string;
  m_rows : list (list rcell)
}.

(** The sign of a rational: -1, 0 or 1. *)
Definition Qsign (q : Q) : Z := Z.sgn (Qnum q).

(** The pairs of values of the rows in which both cells are present. *)
Definition pairwise (x y : list cell) : list (Q * Q) :=
  omap (λ p, a ← num_value p.1; b ← num_value p.2; Some (a, b)) (zip x y).

(** The sum of the products of the deviations from the means. *)
Definition dev_sum (ps : list (Q * Q)) : Q :=
  let mx := Qmean ps.*1 in
  let my := Qmean ps.*2 in
  Qsum ((λ p, (p.1 - mx) * (p.2 - my))%Q <$> ps).

Definition sq_dev_sum (l : list Q) : Q := dev_sum (zip l l).

(** Pearson's coefficient over the complete pairs: missing when one of the
    two columns is constant on them (or there is no pair). *)
Definition pearson (x y : list cell) : rcell :=
  let ps := pairwise x y in
  let d := (sq_dev_sum ps.*1 * sq_dev_sum ps.*2)%Q in
  if Qeq_bool d 0 then RNaN
  else RSqrt (Qsign (dev_sum ps)) (Qred (dev_sum ps * dev_sum ps / d))%Q.

Definition corr (df : DataFrame) : Matrix :=
  let cols := df_cols df in
  mkMatrix cols.*1
    ((λ c, (λ c', pearson (s_values c.2) (s_values c'.2)) <$> cols) <$> cols).

(** The entry of row [i] and column [j]. *)
Definition m_entry (m : Matrix) (i j : nat) : option rcell :=
  m_rows m !! i ≫= λ r, r !! j.

(** The deviations of the pairs from the two means. *)
Definition devs (ps : list (Q * Q)) : list (Q * Q) :=
  (λ p, (p.1 - Qmean ps.*1, p.2 - Qmean ps.*2)%Q) <$> ps.

(** Swapping the two columns. *)
Definition swap (p : Q * Q) : Q * Q := (p.2, p.1).

(** The textbook form of the covariance of the pairs, up to the factor
    [n * n]: [n Σxy - Σx Σy]. *)
Definition cross_sum (ps : list (Q * Q)) : Q :=
  (inject_Z (Z.of_nat (length ps)) * Qsum ((λ p, p.1 * p.2) <$> ps)
   - Qsum ps.*1 * Qsum ps.*2)%Q.

(** ** The mask (lines 79-80)

    The mask is built as numpy builds it: an array of zeros in the shape of
    the matrix, the index pairs of the upper triangle, and an assignment at
    these pairs. *)

(** [np.zeros_like(corr)]: zeros ([float64], as the matrix) in the shape of
    the matrix. *)
Definition zeros_like (m : Matrix) : list (list Q) :=
  (λ r : list rcell, (λ _, 0%Q) <$> r) <$> m_rows m.

(** [np.tri(n, m, k)]: entry [(i, j)] is set when [j ≤ i + k]. *)
Definition tri (n m : nat) (k : Z) : list (list bool) :=
  (λ i, (λ j, bool_decide (Z.of_nat j ≤ Z.of_nat i + k)%Z) <$> seq 0 m) <$> seq 0 n.

(** [~a] *)
Definition invert (a : list (list bool)) : list (list bool) :=
  (λ r : list bool, negb <$> r) <$> a.

(** [np.nonzero(a)]: the index pairs of the set entries, row by row. *)
Definition row_nonzero (i : nat) (r : list bool) : list (nat * nat) :=
  omap id (imap (λ j (b : bool), if b then Some (i, j) else None) r).

Definition nonzero (a : list (list bool)) : list (nat * nat) :=
  mjoin (imap row_nonzero a).

(** [np.triu_indices(n, k, m)] *)
Definition triu_indices (n : nat) (k : Z) (m : nat) : list (nat * nat) :=
  nonzero (invert (tri n m (k - 1))).

(** [np.triu_indices_from(a)]: the pairs for the shape of [a]. *)
Definition triu_indices_from (a : list (list Q)) : list (nat * nat) :=
  triu_indices (length a) 0 (from_option length 0 (head a)).

(** [a[i, j] = v]: [IndexError] outside the array. *)
Definition set_entry (v : Q) (ij : nat * nat) (a : list (list Q))
  : result (list (list Q)) :=
  r ← or_raise IndexError (a !! ij.1);
  if decide (ij.2 < length r) then Ok (<[ij.1 := <[ij.2 := v]> r]> a)
  else Raise IndexError.

(** [a[idx] = v] for a list of index pairs. *)
Fixpoint set_entries (v : Q) (idx : list (nat * nat)) (a : list (list Q))
  : result (list (list Q)) :=
  match idx with
  | [] => Ok a
  | ij :: idx => a ← set_entry v ij a; set_entries v idx a
  end.

(** Lines 79-80: [True] is stored as [1.0] in the array of floats. *)
Definition triu_mask (corr : Matrix) : result (list (list Q)) :=
  let mask := zeros_like corr in
  set_entries 1 (triu_indices_from mask) mask.

Definition mask_entry (mask : list (list Q)) (i j : nat) : option Q :=
  mask !! i ≫= λ r, r !! j.

(** The array the two lines are meant to build: ones on and above the
    diagonal, zeros below. *)
Definition upper_triangle (n m : nat) : list (list Q) :=
  (λ i, (λ j, if decide (i ≤ j) then 1%Q else 0%Q) <$> seq 0 m) <$> seq 0 n.

(** An array of [n] rows and [m] columns. *)
Definition rect {A} (n m : nat) (a : list (list A)) : Prop :=
  length a = n ∧ Forall (λ r, length r = m) a.

#[global] Instance rect_dec {A} n m (a : list (list A)) : Decision (rect n m a).
Proof. unfold rect. apply _. Defined.

(** ** Lemmas *)

(** ** Sums of rationals *)
Section sums.
Implicit Types (l : list Q) (ps : list (Q * Q)) (s t x y : Q).
Local Open Scope Q_scope.

Lemma Qmult_comm_eq x y : x * y = y * x.
Proof. unfold Qmult. f_equal; [apply Z.mul_comm|apply Pos.mul_comm]. Qed.

Lemma Qsum_nonneg l : Forall (λ x, 0 <= x) l → 0 <= Qsum l.
Proof. induction 1 as [|x l Hx _ IH]; simpl; [done|lra]. Qed.

Lemma Qsum_squares_nonneg {A} (f : A → Q) (k : list A) :
  0 <= Qsum ((λ a, f a * f a) <$> k).
Proof.
  apply Qsum_nonneg, Forall_fmap, Forall_true. intros a. simpl. nra.
Qed.

(** The sum of the squares of [s u + t v] is a quadratic form in [s], [t]. *)
Lemma Qsum_quadratic ps s t :
  Qsum ((λ p, (s * p.1 + t * p.2) * (s * p.1 + t * p.2)) <$> ps) ==
  s * s * Qsum ((λ p, p.1 * p.1) <$> ps) +
  2 * s * t * Qsum ((λ p, p.1 * p.2) <$> ps) +
  t * t * Qsum ((λ p, p.2 * p.2) <$> ps).
Proof.
  induction ps as [|[u v] ps IH]; csimpl; [ring|]. rewrite IH. ring.
Qed.

(** Cauchy-Schwarz. *)
Lemma Qsum_cauchy_schwarz ps :
  let A := Qsum ((λ p, p.1 * p.1) <$> ps) in
  let B := Qsum ((λ p, p.2 * p.2) <$> ps) in
  let C := Qsum ((λ p, p.1 * p.2) <$> ps) in
  ¬ B == 0 → C * C <= A * B.
Proof.
  intros A B C HB.
  assert (0 <= B) as HB0 by apply (Qsum_squares_nonneg snd).
  pose proof (Qsum_squares_nonneg (λ p, B * p.1 + (- C) * p.2) ps) as Hq.
  rewrite (Qsum_quadratic ps B (- C)) in Hq. fold A B C in Hq.
  assert (0 < B) as HBpos by (apply Qle_lteq in HB0 as [?|He]; [done|by destruct HB]).
  assert (0 <= B * (A * B - C * C)) as Hp by (ring_simplify; ring_simplify in Hq; lra).
  destruct (Qlt_le_dec (A * B - C * C) 0) as [Hneg|?]; [|lra].
  pose proof (Qmult_lt_0_compat B (- (A * B - C * C)) HBpos) as Hm.
  assert (B * - (A * B - C * C) == - (B * (A * B - C * C))) as He by ring.
  rewrite He in Hm. lra.
Qed.
End sums.

(** ** Pearson's coefficient *)
Section pearson_lemmas.
Implicit Types (x y : list cell) (ps : list (Q * Q)) (l : list Q).
Local Open Scope Q_scope.

Lemma dev_sum_devs ps : dev_sum ps = Qsum ((λ p, p.1 * p.2) <$> devs ps).
Proof. unfold dev_sum, devs. by rewrite <-list_fmap_compose. Qed.

Lemma sq_dev_sum_fmap {A} (f : A → Q) (k : list A) :
  sq_dev_sum (f <$> k) =
  Qsum ((λ a, (f a - Qmean (f <$> k)) * (f a - Qmean (f <$> k))) <$> k).
Proof.
  unfold sq_dev_sum, dev_sum. rewrite fst_zip, snd_zip by done.
  by rewrite zip_diag, <-!list_fmap_compose.
Qed.

Lemma sq_dev_sum_fst ps : sq_dev_sum ps.*1 = Qsum ((λ p, p.1 * p.1) <$> devs ps).
Proof. rewrite sq_dev_sum_fmap. unfold devs. by rewrite <-list_fmap_compose. Qed.

Lemma sq_dev_sum_snd ps : sq_dev_sum ps.*2 = Qsum ((λ p, p.2 * p.2) <$> devs ps).
Proof. rewrite sq_dev_sum_fmap. unfold devs. by rewrite <-list_fmap_compose. Qed.

Lemma sq_dev_sum_nonneg l : 0 <= sq_dev_sum l.
Proof.
  rewrite <-(list_fmap_id l), sq_dev_sum_fmap.
  apply (Qsum_squares_nonneg (λ a, id a - Qmean (id <$> l))).
Qed.

(** The product of the two sums of squares bounds the square of the sum of
    products. *)
Lemma dev_sum_bound ps :
  ¬ sq_dev_sum ps.*1 * sq_dev_sum ps.*2 == 0 →
  dev_sum ps * dev_sum ps <= sq_dev_sum ps.*1 * sq_dev_sum ps.*2.
Proof.
  intros Hd. rewrite dev_sum_devs, sq_dev_sum_fst, sq_dev_sum_snd in *.
  apply Qsum_cauchy_schwarz. intros He. apply Hd. rewrite He. ring.
Qed.

Lemma pairwise_swap x y : pairwise y x = swap <$> pairwise x y.
Proof.
  unfold pairwise. revert y; induction x as [|a x IH]; intros [|b y]; try done.
  csimpl. rewrite IH.
  by destruct (num_value a), (num_value b).
Qed.

Lemma dev_sum_swap ps : dev_sum (swap <$> ps) = dev_sum ps.
Proof.
  unfold dev_sum.
  assert ((swap <$> ps).*1 = ps.*2) as -> by (rewrite <-list_fmap_compose; done).
  assert ((swap <$> ps).*2 = ps.*1) as -> by (rewrite <-list_fmap_compose; done).
  rewrite <-list_fmap_compose.
  f_equal. apply list_fmap_ext. intros i p _. simpl. apply Qmult_comm_eq.
Qed.

Lemma pearson_sym x y : pearson y x = pearson x y.
Proof.
  unfold pearson. rewrite pairwise_swap, dev_sum_swap.
  assert ((swap <$> pairwise x y).*1 = (pairwise x y).*2) as ->
    by (rewrite <-list_fmap_compose; done).
  assert ((swap <$> pairwise x y).*2 = (pairwise x y).*1) as ->
    by (rewrite <-list_fmap_compose; done).
  by rewrite (Qmult_comm_eq (sq_dev_sum (pairwise x y).*2)).
Qed.

(** The entry is a correlation: its square is between 0 and 1 and its sign
    is the sign of the covariance. *)
Lemma pearson_bound x y s q :
  pearson x y = RSqrt s q → (-1 ≤ s ≤ 1)%Z ∧ 0 <= q <= 1 ∧ (s = 0%Z ↔ q == 0).
Proof.
  unfold pearson. set (ps := pairwise x y).
  set (d := sq_dev_sum ps.*1 * sq_dev_sum ps.*2).
  destruct (Qeq_bool d 0) eqn:Hd; [done|]. intros [= <- <-].
  apply Qeq_bool_neq in Hd.
  pose proof (dev_sum_bound ps Hd) as Hb. fold d in Hb.
  assert (0 < d) as Hpos.
  { pose proof (sq_dev_sum_nonneg ps.*1). pose proof (sq_dev_sum_nonneg ps.*2).
    assert (0 <= d) as [?|?]%Qle_lteq by (unfold d; nra); [done|]. by destruct Hd. }
  rewrite Qred_correct. split_and!.
  - pose proof (Z.sgn_spec (Qnum (dev_sum ps))). unfold Qsign. lia.
  - pose proof (Z.sgn_spec (Qnum (dev_sum ps))). unfold Qsign. lia.
  - apply Qle_shift_div_l; [done|]. nra.
  - apply Qle_shift_div_r; [done|]. lra.
  - unfold Qsign. rewrite Z.sgn_null_iff. split.
    + intros Hn. assert (dev_sum ps == 0) as -> by (unfold Qeq; simpl; lia).
      field. lra.
    + intros Hq. assert (dev_sum ps * dev_sum ps == 0) as Hz.
      { rewrite <-(Qmult_div_r (dev_sum ps * dev_sum ps) d) by lra. rewrite Hq. ring. }
      apply Qmult_integral in Hz. unfold Qeq in Hz. simpl in Hz. lia.
Qed.

(** A column against itself: missing when it is constant, 1 otherwise. *)
Lemma pearson_diag x : pearson x x = RNaN ∨ pearson x x = RSqrt 1 1.
Proof.
  unfold pearson. set (ps := pairwise x x).
  assert (ps.*2 = ps.*1) as Hps.
  { unfold ps, pairwise. induction x as [|a x IH]; [done|]. csimpl.
    destruct (num_value a); csimpl; by rewrite ?IH. }
  assert (dev_sum ps = sq_dev_sum ps.*1) as Hdev.
  { rewrite dev_sum_devs, sq_dev_sum_fst. unfold devs. rewrite Hps.
    rewrite <-!list_fmap_compose. f_equal. apply list_fmap_ext. intros i p Hp. simpl.
    assert (p.2 = p.1) as ->; [|done].
    apply (f_equal (.!! i)) in Hps. rewrite !list_lookup_fmap, Hp in Hps. by simplify_eq/=. }
  rewrite Hps, Hdev. set (v := sq_dev_sum ps.*1).
  destruct (Qeq_bool (v * v) 0) eqn:Hd; [by left|right].
  apply Qeq_bool_neq in Hd. pose proof (sq_dev_sum_nonneg ps.*1) as Hv. fold v in Hv.
  assert (0 < v) as Hpos by (apply Qle_lteq in Hv as [?|He]; [done|destruct Hd; rewrite <-He; ring]).
  f_equal.
  - unfold Qlt in Hpos. simpl in Hpos. apply Z.sgn_pos. lia.
  - apply (Qred_complete _ 1). field. lra.
Qed.
End pearson_lemmas.

(** ** The sign and the textbook form of the coefficient *)
Section sign.
Implicit Types (q r a b : Q) (ps : list (Q * Q)) (l xs : list Q).
Local Open Scope Q_scope.

Lemma Qsign_spec q :
  (0 < q ∧ Qsign q = 1%Z) ∨ (q == 0 ∧ Qsign q = 0%Z) ∨ (q < 0 ∧ Qsign q = (-1)%Z).
Proof.
  unfold Qsign, Qlt, Qeq. simpl. rewrite !Z.mul_1_r.
  destruct (Z.sgn_spec (Qnum q)) as [[? ->]|[[? ->]|[? ->]]]; [left|right; left|right; right]; lia.
Qed.

#[global] Instance Qsign_proper : Proper (Qeq ==> eq) Qsign.
Proof.
  intros r q Hpq.
  destruct (Qsign_spec r) as [[? ->]|[[? ->]|[? ->]]],
    (Qsign_spec q) as [[? ->]|[[? ->]|[? ->]]]; try done; lra.
Qed.

Lemma Qsign_mult_pos a q : 0 < a → Qsign (a * q) = Qsign q.
Proof.
  intros Ha.
  destruct (Qsign_spec (a * q)) as [[? ->]|[[? ->]|[? ->]]],
    (Qsign_spec q) as [[? ->]|[[? ->]|[? ->]]]; try done; nra.
Qed.

Lemma Qsign_mult_pos_r a q : 0 < a → Qsign (q * a) = Qsign q.
Proof. intros Ha. rewrite <-(Qsign_mult_pos a q Ha). apply Qsign_proper. ring. Qed.

Lemma inject_Z_length_cons {A} (x : A) (k : list A) :
  inject_Z (Z.of_nat (length (x :: k))) == 1 + inject_Z (Z.of_nat (length k)).
Proof. cbn [length]. rewrite Nat2Z.inj_succ, <-Z.add_1_l, inject_Z_plus. reflexivity. Qed.

Lemma inject_Z_length_pos {A} (k : list A) : k ≠ [] → 0 < inject_Z (Z.of_nat (length k)).
Proof. destruct k; [done|]. intros _. rewrite inject_Z_length_cons.
  assert (0 <= inject_Z (Z.of_nat (length k))); [|lra].
  change 0 with (inject_Z 0). rewrite <-Zle_Qle. lia. Qed.

(** The sum of the products of the deviations from two constants. *)
Lemma Qsum_deviations a b ps :
  Qsum ((λ p, (p.1 - a) * (p.2 - b)) <$> ps) ==
  Qsum ((λ p, p.1 * p.2) <$> ps) - a * Qsum ps.*2 - b * Qsum ps.*1 +
  inject_Z (Z.of_nat (length ps)) * a * b.
Proof.
  induction ps as [|[x y] ps IH]; [simpl; ring|].
  rewrite inject_Z_length_cons. csimpl. rewrite IH. ring.
Qed.

(** The classical form of the covariance: [n] times the sum of the products
    of the deviations from the means is [n Σxy - Σx Σy]. *)
Lemma dev_sum_cross_sum ps :
  inject_Z (Z.of_nat (length ps)) * dev_sum ps == cross_sum ps.
Proof.
  destruct (decide (ps = [])) as [->|Hps]; [unfold cross_sum, dev_sum; simpl; ring|].
  unfold dev_sum, cross_sum. rewrite Qsum_deviations.
  assert (ps.*1 ≠ []) as H1 by (by destruct ps).
  assert (ps.*2 ≠ []) as H2 by (by destruct ps).
  pose proof (Qmean_spec _ H1) as Hx. pose proof (Qmean_spec _ H2) as Hy.
  rewrite !length_fmap in *. rewrite <-Hx, <-Hy. ring.
Qed.

Lemma dev_sum_sign ps : Qsign (dev_sum ps) = Qsign (cross_sum ps).
Proof.
  destruct (decide (ps = [])) as [->|Hps]; [done|].
  rewrite <-dev_sum_cross_sum. symmetry. by apply Qsign_mult_pos, inject_Z_length_pos.
Qed.

Lemma sq_dev_sum_cross_sum l :
  inject_Z (Z.of_nat (length l)) * sq_dev_sum l ==
  inject_Z (Z.of_nat (length l)) * Qsum ((λ x, x * x) <$> l) - Qsum l * Qsum l.
Proof.
  unfold sq_dev_sum. rewrite zip_diag.
  rewrite <-(length_fmap (λ x, (x, x)) l) at 1. rewrite dev_sum_cross_sum.
  unfold cross_sum. rewrite <-!list_fmap_compose, length_fmap.
  change (fst ∘ _) with (@id Q). change (snd ∘ _) with (@id Q).
  by rewrite !list_fmap_id.
Qed.

(** The sums of the image of a list under [x ↦ a x + b]. *)
Lemma Qsum_affine a b l :
  Qsum ((λ x, a * x + b) <$> l) == a * Qsum l + inject_Z (Z.of_nat (length l)) * b.
Proof.
  induction l as [|x l IH]; [simpl; ring|].
  rewrite inject_Z_length_cons. csimpl. rewrite IH. ring.
Qed.

Lemma Qsum_affine_cross a b l :
  Qsum ((λ x, x * (a * x + b)) <$> l) == a * Qsum ((λ x, x * x) <$> l) + b * Qsum l.
Proof. induction l as [|x l IH]; csimpl; [ring|]. rewrite IH. ring. Qed.

Lemma Qsum_affine_square a b l :
  Qsum ((λ x, (a * x + b) * (a * x + b)) <$> l) ==
  a * a * Qsum ((λ x, x * x) <$> l) + 2 * a * b * Qsum l +
  inject_Z (Z.of_nat (length l)) * b * b.
Proof.
  induction l as [|x l IH]; [simpl; ring|].
  rewrite inject_Z_length_cons. csimpl. rewrite IH. ring.
Qed.

(** The deviation sums of a column and its image under [x ↦ a x + b]. *)
Lemma dev_sum_affine a b l :
  dev_sum ((λ x, (x, a * x + b)) <$> l) == a * sq_dev_sum l.
Proof.
  destruct (decide (l = [])) as [->|Hl]; [unfold sq_dev_sum, dev_sum; simpl; ring|].
  pose proof (inject_Z_length_pos l Hl) as Hn.
  apply (Qmult_inj_l _ _ (inject_Z (Z.of_nat (length l)))); [lra|].
  rewrite <-(length_fmap (λ x, (x, a * x + b)) l) at 1. rewrite dev_sum_cross_sum.
  transitivity (a * (inject_Z (Z.of_nat (length l)) * sq_dev_sum l)); [|ring].
  rewrite sq_dev_sum_cross_sum. unfold cross_sum.
  rewrite <-!list_fmap_compose, length_fmap, list_fmap_id.
  change (Qsum ((snd ∘ _) <$> l)) with (Qsum ((λ x, a * x + b) <$> l)).
  change (Qsum (_ <$> l)) with (Qsum ((λ x, x * (a * x + b)) <$> l)) at 1.
  rewrite Qsum_affine, Qsum_affine_cross. ring.
Qed.

Lemma sq_dev_sum_affine a b l :
  sq_dev_sum ((λ x, a * x + b) <$> l) == a * a * sq_dev_sum l.
Proof.
  destruct (decide (l = [])) as [->|Hl]; [unfold sq_dev_sum, dev_sum; simpl; ring|].
  pose proof (inject_Z_length_pos l Hl) as Hn.
  apply (Qmult_inj_l _ _ (inject_Z (Z.of_nat (length l)))); [lra|].
  transitivity (a * a * (inject_Z (Z.of_nat (length l)) * sq_dev_sum l)); [|ring].
  rewrite <-(length_fmap (λ x, a * x + b) l) at 1.
  rewrite !sq_dev_sum_cross_sum, <-!list_fmap_compose, length_fmap.
  change (Qsum (_ <$> l)) with (Qsum ((λ x, (a * x + b) * (a * x + b)) <$> l)) at 1.
  rewrite Qsum_affine_square, Qsum_affine. ring.
Qed.

Lemma pairwise_floats (l k : list Q) :
  pairwise (CFloat <$> l) (CFloat <$> k) = zip l k.
Proof.
  unfold pairwise. revert k; induction l as [|x l IH]; intros [|y k]; csimpl; try done.
  by rewrite IH.
Qed.

Lemma Qsum_nonneg_zero l :
  Forall (λ x, 0 <= x) l → Qsum l == 0 → Forall (λ x, x == 0) l.
Proof.
  induction 1 as [|x l Hx Hl IH]; [done|]. simpl. intros Hs.
  pose proof (Qsum_nonneg l Hl). constructor; [lra|]. apply IH. lra.
Qed.

(** A column whose squared deviations sum to zero is constant. *)
Lemma sq_dev_sum_zero l x y : sq_dev_sum l == 0 → x ∈ l → y ∈ l → x == y.
Proof.
  rewrite <-(list_fmap_id l) at 1. rewrite sq_dev_sum_fmap. intros Hs Hx Hy.
  apply Qsum_nonneg_zero in Hs.
  - rewrite Forall_fmap, Forall_forall in Hs.
    pose proof (Hs x Hx) as Hx0. pose proof (Hs y Hy) as Hy0. simpl in Hx0, Hy0.
    clear Hs. unfold id in *. set (m := Qmean _) in *. clearbody m.
    apply Qmult_integral in Hx0, Hy0. destruct Hx0, Hy0; lra.
  - apply Forall_fmap, Forall_true. intros z. simpl. set (t := _ - _). nra.
Qed.

(** The sign and the square of a coefficient, in the textbook form. *)
Lemma pearson_cross_sum (x y : list cell) s q :
  pearson x y = RSqrt s q →
  let ps := pairwise x y in
  s = Qsign (cross_sum ps) ∧
  q * (cross_sum (zip ps.*1 ps.*1) * cross_sum (zip ps.*2 ps.*2)) ==
    cross_sum ps * cross_sum ps.
Proof.
  unfold pearson. set (ps := pairwise x y). cbv zeta.
  destruct (Qeq_bool _ 0) eqn:Hd; [done|]. intros [= <- <-].
  apply Qeq_bool_neq in Hd. split; [apply dev_sum_sign|].
  rewrite Qred_correct, <-!dev_sum_cross_sum.
  rewrite !length_zip_with, !length_fmap, !Nat.min_id.
  fold (sq_dev_sum ps.*1) (sq_dev_sum ps.*2). field.
  split; intros He; apply Hd; rewrite He; ring.
Qed.
End sign.

(** ** The correlation matrix *)
Section corr_lemmas.
Implicit Types (df : DataFrame) (i j n : nat).

Lemma corr_entry df i j :
  m_entry (corr df) i j =
  c ← df_cols df !! i; c' ← df_cols df !! j;
  Some (pearson (s_values c.2) (s_values c'.2)).
Proof.
  unfold m_entry, corr. simpl. rewrite list_lookup_fmap.
  destruct (df_cols df !! i) as [c|]; [|done]. simpl. rewrite list_lookup_fmap.
  by destruct (df_cols df !! j).
Qed.

Lemma corr_entry_is_Some df i j :
  is_Some (m_entry (corr df) i j) ↔ i < length (df_cols df) ∧ j < length (df_cols df).
Proof.
  rewrite corr_entry, <-!lookup_lt_is_Some. unfold is_Some.
  destruct (df_cols df !! i), (df_cols df !! j); simpl; naive_solver.
Qed.

Lemma corr_entry_sym df i j : m_entry (corr df) i j = m_entry (corr df) j i.
Proof.
  rewrite !corr_entry. destruct (df_cols df !! i), (df_cols df !! j); simpl; try done.
  by rewrite pearson_sym.
Qed.

End corr_lemmas.

(** ** The mask *)
Section mask.
Implicit Types (i j n m : nat) (k : Z) (a : list (list Q)) (b : list (list bool))
  (idx : list (nat * nat)) (v : Q).

Lemma elem_of_row_nonzero i (r : list bool) p :
  p ∈ row_nonzero i r ↔ ∃ j, p = (i, j) ∧ r !! j = Some true.
Proof.
  unfold row_nonzero. rewrite list_elem_of_omap. split.
  - intros (o & Ho & Hp). apply elem_of_lookup_imap in Ho as (j & x & -> & Hj).
    destruct x; simplify_eq/=. eauto.
  - intros (j & -> & Hj). exists (Some (i, j)). split; [|done].
    apply elem_of_lookup_imap. by exists j, true.
Qed.

Lemma elem_of_nonzero b i j :
  (i, j) ∈ nonzero b ↔ ∃ r, b !! i = Some r ∧ r !! j = Some true.
Proof.
  unfold nonzero. rewrite list_elem_of_join. split.
  - intros (l & Hp & Hl). apply elem_of_lookup_imap in Hl as (i' & r & -> & Hr).
    apply elem_of_row_nonzero in Hp as (j' & [= -> ->] & Hj). eauto.
  - intros (r & Hr & Hj). exists (row_nonzero i r). split.
    + apply elem_of_row_nonzero. eauto.
    + apply elem_of_lookup_imap. eauto.
Qed.

Lemma lookup_invert_tri n m k i r :
  invert (tri n m k) !! i = Some r ↔
  i < n ∧ r = (λ j, negb (bool_decide (Z.of_nat j ≤ Z.of_nat i + k)%Z)) <$> seq 0 m.
Proof.
  unfold invert, tri. rewrite !list_lookup_fmap. split.
  - intros Hr. destruct (seq 0 n !! i) as [i'|] eqn:Hi; [|done].
    apply lookup_seq in Hi as [-> ?]. simplify_eq/=. split; [done|].
    by rewrite <-list_fmap_compose.
  - intros [Hi ->]. rewrite lookup_seq_lt by done. simpl. by rewrite <-list_fmap_compose.
Qed.

Lemma elem_of_triu_indices n k m i j :
  (i, j) ∈ triu_indices n k m ↔ i < n ∧ j < m ∧ (Z.of_nat i + k ≤ Z.of_nat j)%Z.
Proof.
  unfold triu_indices. rewrite elem_of_nonzero. split.
  - intros (r & [Hi ->]%lookup_invert_tri & Hj).
    apply list_lookup_fmap_Some in Hj as (j' & Hb & [-> ?]%lookup_seq).
    symmetry in Hb. apply negb_true_iff, bool_decide_eq_false in Hb. simpl in *. lia.
  - intros (Hi & Hj & Hk). eexists. split; [by apply lookup_invert_tri|].
    rewrite list_lookup_fmap, lookup_seq_lt by done. simpl. f_equal.
    apply negb_true_iff, bool_decide_eq_false. lia.
Qed.

(** *** Arrays of a given shape *)
Lemma rect_lookup {A} n m (a : list (list A)) i r :
  rect n m a → a !! i = Some r → i < n ∧ length r = m.
Proof.
  intros [<- Hr] Hi. split; [by eapply lookup_lt_Some|].
  rewrite Forall_lookup in Hr. eauto.
Qed.

Lemma rect_entry n m a i j :
  rect n m a → i < n → j < m → is_Some (mask_entry a i j).
Proof.
  intros Ha Hi Hj. unfold mask_entry.
  destruct (lookup_lt_is_Some_2 a i) as [r Hr]; [by destruct Ha as [-> _]|].
  rewrite Hr. simpl. apply lookup_lt_is_Some.
  by destruct (rect_lookup n m a i r Ha Hr) as [_ ->].
Qed.

(** Two arrays of one shape with the same entries are equal. *)
Lemma rect_ext n m a a' :
  rect n m a → rect n m a' →
  (∀ i j, i < n → j < m → mask_entry a i j = mask_entry a' i j) → a = a'.
Proof.
  intros Ha Ha' He. apply list_eq_same_length with n; [by destruct Ha'|by destruct Ha|].
  intros i r r' Hi Hr Hr'.
  destruct (rect_lookup n m a i r Ha Hr) as [_ Hl].
  destruct (rect_lookup n m a' i r' Ha' Hr') as [_ Hl'].
  apply list_eq_same_length with m; [done..|].
  intros j x x' Hj Hx Hx'. specialize (He i j Hi Hj). unfold mask_entry in He.
  rewrite Hr, Hr' in He. simpl in He. congruence.
Qed.

Lemma zeros_like_rect n m (c : Matrix) :
  rect n m (m_rows c) → rect n m (zeros_like c).
Proof.
  intros [Hn Hm]. split; unfold zeros_like; [by rewrite length_fmap|].
  apply Forall_fmap. eapply Forall_impl; [exact Hm|].
  intros r Hr. simpl. by rewrite length_fmap.
Qed.

Lemma zeros_like_entry (c : Matrix) i j q :
  mask_entry (zeros_like c) i j = Some q → q = 0%Q.
Proof.
  unfold mask_entry, zeros_like. rewrite list_lookup_fmap.
  destruct (m_rows c !! i) as [r|]; [|done]. simpl. rewrite list_lookup_fmap.
  destruct (r !! j); by intros [= <-].
Qed.

Lemma upper_triangle_rect n m : rect n m (upper_triangle n m).
Proof.
  split; unfold upper_triangle; [by rewrite length_fmap, length_seq|].
  apply Forall_fmap, Forall_true. intros i. simpl. by rewrite length_fmap, length_seq.
Qed.

Lemma upper_triangle_entry n m i j :
  i < n → j < m →
  mask_entry (upper_triangle n m) i j = Some (if decide (i ≤ j) then 1%Q else 0%Q).
Proof.
  intros Hi Hj. unfold mask_entry, upper_triangle.
  rewrite list_lookup_fmap, lookup_seq_lt by done. simpl.
  by rewrite list_lookup_fmap, lookup_seq_lt by done.
Qed.

(** *** Assignment at index pairs *)
Lemma set_entry_Ok v i j a r :
  a !! i = Some r → j < length r →
  set_entry v (i, j) a = Ok (<[i := <[j := v]> r]> a).
Proof. intros Hr Hj. unfold set_entry. simpl. rewrite Hr. simpl. by rewrite decide_True. Qed.

Lemma set_entry_rect n m v i j a r :
  rect n m a → a !! i = Some r → rect n m (<[i := <[j := v]> r]> a).
Proof.
  intros Ha Hr. destruct (rect_lookup n m a i r Ha Hr) as [_ Hl].
  destruct Ha as [Hn Hm]. split; [by rewrite length_insert|].
  apply Forall_insert; [done|]. by rewrite length_insert.
Qed.

(** The entry assigned is the value; every other entry is as before. *)
Lemma set_entry_eq v i j a r :
  a !! i = Some r → j < length r →
  mask_entry (<[i := <[j := v]> r]> a) i j = Some v.
Proof.
  intros Hr Hj. unfold mask_entry.
  rewrite list_lookup_insert_eq by (by eapply lookup_lt_Some). simpl.
  by rewrite list_lookup_insert_eq.
Qed.

Lemma set_entry_ne v i j a r i' j' :
  a !! i = Some r → (i', j') ≠ (i, j) →
  mask_entry (<[i := <[j := v]> r]> a) i' j' = mask_entry a i' j'.
Proof.
  intros Hr Hne. unfold mask_entry. destruct (decide (i = i')) as [->|Hi].
  - rewrite list_lookup_insert_eq by (by eapply lookup_lt_Some). rewrite Hr. simpl.
    rewrite list_lookup_insert_ne; [done|congruence].
  - by rewrite list_lookup_insert_ne.
Qed.

Lemma set_entries_spec n m v idx a :
  rect n m a → Forall (λ ij, ij.1 < n ∧ ij.2 < m) idx →
  ∃ a', set_entries v idx a = Ok a' ∧ rect n m a' ∧
    ∀ i j, mask_entry a' i j =
           if decide ((i, j) ∈ idx) then Some v else mask_entry a i j.
Proof.
  intros Ha Hidx. revert a Ha. induction Hidx as [|[i j] idx [Hi Hj] _ IH]; intros a Ha.
  - exists a. split_and!; [done..|]. intros i j. by rewrite decide_False by set_solver.
  - simpl in Hi, Hj. destruct (lookup_lt_is_Some_2 a i) as [r Hr]; [by destruct Ha as [-> _]|].
    destruct (rect_lookup n m a i r Ha Hr) as [_ Hl].
    destruct (IH _ (set_entry_rect n m v i j a r Ha Hr)) as (a' & Hs & Ha' & He).
    exists a'. split_and!; [|done|].
    + cbn [set_entries]. rewrite (set_entry_Ok v i j a r) by (done || lia). done.
    + intros i' j'. rewrite He. destruct (decide ((i', j') = (i, j))) as [[= -> ->]|Hne].
      * rewrite (decide_True (P := _ ∈ _ :: _)) by left.
        case_decide; [done|]. apply set_entry_eq; [done|lia].
      * rewrite (set_entry_ne v i j a r) by done.
        repeat case_decide; set_solver.
Qed.

Lemma elem_of_triu_indices_from n m a i j :
  rect n m a → (i, j) ∈ triu_indices_from a ↔ i < n ∧ j < m ∧ i ≤ j.
Proof.
  intros [Hn Hm]. unfold triu_indices_from. rewrite elem_of_triu_indices, Hn.
  destruct a as [|r a]; simpl in *; [lia|].
  apply Forall_cons in Hm as [-> _]. lia.
Qed.

(** The assignment of lines 79-80 never fails and builds the upper
    triangle. *)
Lemma triu_mask_upper_triangle n m (c : Matrix) :
  rect n m (m_rows c) → triu_mask c = Ok (upper_triangle n m).
Proof.
  intros Hr. pose proof (zeros_like_rect n m c Hr) as Hz. unfold triu_mask.
  destruct (set_entries_spec n m 1 (triu_indices_from (zeros_like c)) (zeros_like c))
    as (mask & -> & Hm & He); [done| |].
  { apply Forall_forall. intros [i j] Hij%(elem_of_triu_indices_from n m); naive_solver. }
  f_equal. apply (rect_ext n m); [done|apply upper_triangle_rect|].
  intros i j Hi Hj. rewrite He, upper_triangle_entry by done.
  destruct (decide (i ≤ j)) as [Hle|Hle].
  - rewrite decide_True; [done|]. by apply (elem_of_triu_indices_from n m).
  - rewrite decide_False by (rewrite (elem_of_triu_indices_from n m) by done; lia).
    destruct (rect_entry n m (zeros_like c) i j Hz Hi Hj) as [q Hq].
    rewrite Hq. by apply zeros_like_entry in Hq as ->.
Qed.
End mask.

(** ** The properties of the matrix and of the mask *)

(** C13: the matrix of [corr] is square over the columns of the table and
    symmetric; an entry on the diagonal is 1 or missing; every entry that is
    not missing is a correlation: its sign is -1, 0 or 1, its square lies
    between 0 and 1, and over the rows in which both columns have a value
    its sign is the sign of [n Σxy - Σx Σy] and its square is the square of
    that number over [(n Σxx - Σx Σx) (n Σyy - Σy Σy)]. *)
Theorem corr_spec (df : DataFrame) (i j : nat) :
  m_labels (corr df) = columns df ∧
  (is_Some (m_entry (corr df) i j) ↔
     i < length (df_cols df) ∧ j < length (df_cols df)) ∧
  m_entry (corr df) i j = m_entry (corr df) j i ∧
  (∀ r, m_entry (corr df) i i = Some r → r = RNaN ∨ r = RSqrt 1 1) ∧
  (∀ s q, m_entry (corr df) i j = Some (RSqrt s q) →
     (-1 ≤ s ≤ 1)%Z ∧ (0 <= q <= 1)%Q ∧ (s = 0%Z ↔ (q == 0)%Q)) ∧
  (∀ c c' s q, df_cols df !! i = Some c → df_cols df !! j = Some c' →
     m_entry (corr df) i j = Some (RSqrt s q) →
     let ps := pairwise (s_values c.2) (s_values c'.2) in
     s = Qsign (cross_sum ps) ∧
     (q * (cross_sum (zip ps.*1 ps.*1) * cross_sum (zip ps.*2 ps.*2)) ==
        cross_sum ps * cross_sum ps)%Q).
Proof.
  split_and!.
  - done.
  - apply corr_entry_is_Some.
  - apply corr_entry_sym.
  - intros r. rewrite corr_entry. destruct (df_cols df !! i) as [c|]; [|done].
    intros [= <-]. apply pearson_diag.
  - intros s q. rewrite corr_entry.
    destruct (df_cols df !! i) as [c|], (df_cols df !! j) as [c'|]; try done.
    intros [= Hp]. by eapply pearson_bound.
  - intros c c' s q Hc Hc'. rewrite corr_entry, Hc, Hc'. intros [= Hp].
    by apply pearson_cross_sum.
Qed.

(** C40: two columns related by [y = a x + b] with [a] not zero, the first not
    constant, have the coefficient 1 when [a] is positive and -1 when it is
    negative, exactly. *)
Theorem pearson_affine (a b : Q) (xs : list Q) (x y : Q) :
  ¬ (a == 0)%Q → x ∈ xs → y ∈ xs → ¬ (x == y)%Q →
  pearson (CFloat <$> xs) (CFloat <$> ((λ x, a * x + b)%Q <$> xs)) =
  RSqrt (Qsign a) 1.
Proof.
  intros Ha Hx Hy Hxy. unfold pearson.
  rewrite pairwise_floats, zip_with_fmap_r, zip_with_diag. set (ps := _ <$> xs).
  assert (ps.*1 = xs) as -> by (unfold ps; by rewrite <-list_fmap_compose, list_fmap_id).
  assert (ps.*2 = (λ x, a * x + b)%Q <$> xs) as ->
    by (unfold ps; by rewrite <-list_fmap_compose).
  pose proof (dev_sum_affine a b xs) as Hd. fold ps in Hd.
  pose proof (sq_dev_sum_affine a b xs) as Hs.
  pose proof (sq_dev_sum_nonneg xs) as Hx0.
  assert (0 < sq_dev_sum xs)%Q as Hpos.
  { apply Qle_lteq in Hx0 as [?|He]; [done|]. destruct Hxy.
    by apply (sq_dev_sum_zero xs). }
  assert (0 < a * a)%Q as Haa by nra.
  pose proof (Qmult_lt_0_compat _ _ Haa Hpos) as Hyy.
  pose proof (Qmult_lt_0_compat _ _ Hpos Hyy) as Hdd.
  destruct (Qeq_bool _ 0) eqn:He.
  - apply Qeq_bool_iff in He. rewrite Hs in He. lra.
  - f_equal.
    + rewrite Hd. by apply Qsign_mult_pos_r.
    + apply (Qred_complete _ 1). rewrite Hd, Hs. field. split; lra.
Qed.

Lemma pearson_affine_witness :
  pearson (CFloat <$> [1; 2; 4]%Q) (CFloat <$> ((λ x, (-2) * x + 3)%Q <$> [1; 2; 4]%Q)) =
  RSqrt (Qsign (-2)) 1.
Proof.
  apply (pearson_affine (-2) 3 [1; 2; 4]%Q 1 2); [done|set_solver|set_solver|done].
Defined.

(** C29: lines 79-80 do not raise on a matrix of [n] rows and [m] columns, and
    the array they build has the shape of the matrix, 1 at every entry on
    or above the diagonal and 0 at every entry below it: with this mask the
    heat map shows the cell of row [i] and column [j] exactly when
    [j < i]. *)
Theorem triu_mask_spec (c : Matrix) (n m : nat) :
  rect n m (m_rows c) →
  ∃ mask, triu_mask c = Ok mask ∧ rect n m mask ∧
    ∀ i j, i < n → j < m →
      mask_entry mask i j = Some (if decide (i ≤ j) then 1%Q else 0%Q) ∧
      (mask_entry mask i j = Some 0%Q ↔ j < i).
Proof.
  intros Hr. exists (upper_triangle n m).
  split_and!; [by apply triu_mask_upper_triangle|apply upper_triangle_rect|].
  intros i j Hi Hj. rewrite upper_triangle_entry by done.
  split; [done|]. case_decide; split; (done || lia).
Qed.

Lemma triu_mask_spec_witness :
  let c := corr (select_dtypes_number sample_points) in
  ∃ mask, triu_mask c = Ok mask ∧ rect 3 3 mask ∧
    ∀ i j, i < 3 → j < 3 →
      mask_entry mask i j = Some (if decide (i ≤ j) then 1%Q else 0%Q) ∧
      (mask_entry mask i j = Some 0%Q ↔ j < i).
Proof.
  apply (triu_mask_spec (corr (select_dtypes_number sample_points)) 3 3).
  by apply (bool_decide_unpack _).
Defined.
