(* ===== verification/Streamlit.v ===== *)
(** * Streamlit: a run of the script as a trace of page elements

    [src/eda.py] is a Streamlit script: every interaction runs it from top
    to bottom, each [st.*] call appends an element to the page, and an
    exception that is not caught stops the run after the elements already
    emitted.  A run is a value of [app A]: the elements emitted and the
    value returned or the exception raised.  Figures are records of what the
    matplotlib and seaborn calls were given; drawing them is not modelled. *)

From S2P Require Import Prelude PyStr Frame Stats Corr.

(** ** Figures *)

(** The seaborn call that draws on the axes, with its arguments. *)
Inductive plot : Type :=
| Heatmap (data : Matrix) (mask : list (list Q)) (vmax : Z)
    (square annot : bool) (cmap : string)
| Boxplot (x y : string) (data : DataFrame)
| Barplot (x y : string) (data : DataFrame)
| Scatterplot (x y : string) (data : DataFrame)
| Lineplot (x y : string) (data : DataFrame).

(** A figure as [st.pyplot] receives it. *)
Record Figure : Type := mkFigure {
  fig_size : nat * nat;
  fig_plot : plot;
  fig_xlabel : option string;
  fig_ylabel : option string;
  fig_title : string;
  fig_xticks_rotation : option Z
}.

(** ** Page elements *)

Inductive element : Type :=
| PageConfig (page_title layout : string)
| Image (url : string) (width : Z)
| Title (body : string)
| Markdown (body : string) (unsafe_allow_html : bool)
| SidebarHeader (body : string)
| SidebarSelectbox (label : string) (options : list string)
| SidebarMultiselect (label : string) (options default : list string)
| SidebarRadio (label : string) (options : list string)
| Header (body : string)
| Write (body : string)
| Dataframe (data : DataFrame)
| Pyplot (fig : Figure).

(** ** Runs *)

Definition app (A : Type) : Type := list element * result A.

#[global] Instance app_ret : MRet app := λ A a, ([], Ok a).

#[global] Instance app_bind : MBind app := λ A B k m,
  match m.2 with
  | Ok a => (m.1 ++ (k a).1, (k a).2)
  | Raise e => (m.1, Raise e)
  end.

(** An [st.*] call that shows an element. *)
Definition emit (e : element) : app unit := ([e], Ok ()).

(** A call that shows nothing. *)
Definition lift {A} (r : result A) : app A := ([], r).

(** The page of a run, and whether it ran to the end. *)
Definition page {A} (m : app A) : list element := m.1.
Definition completes {A} (m : app A) : Prop := is_Ok m.2.

#[global] Instance completes_dec {A} (m : app A) : Decision (completes m).
Proof. unfold completes. apply _. Defined.

(** A loop over a list that threads a state ([for x in l: ...]). *)
Fixpoint for_each {A S} (body : A → S → app S) (l : list A) (s : S) : app S :=
  match l with
  | [] => mret s
  | x :: l => s' ← body x s; for_each body l s'
  end.

(** ** The seaborn calls

    The two preconditions the script can violate by its own logic: a plot
    of two named columns fails when the data has no such column; a heat map
    fails when the mask has not the shape of the data.  What a seaborn
    version does with an empty table or with a column of text is not
    modelled: a theorem that a run completes says that pandas and the
    script do not raise. *)
Definition sns_xy (mk : string → string → DataFrame → plot) (x y : string)
    (data : DataFrame) : result plot :=
  if has_column x data && has_column y data then Ok (mk x y data)
  else Raise (ValueError "Could not interpret value for x or y").

Definition same_shape (mask : list (list Q)) (rows : list (list rcell)) : bool :=
  bool_decide (length <$> mask = length <$> rows).

Definition sns_heatmap (data : Matrix) (mask : list (list Q)) (vmax : Z)
    (square annot : bool) (cmap : string) : result plot :=
  if same_shape mask (m_rows data) then Ok (Heatmap data mask vmax square annot cmap)
  else Raise (ValueError "Mask must have the same shape as data.").

(** ** Lemmas *)
Section app_lemmas.
Context {A B C : Type}.
Implicit Types (m : app A) (k : A → app B) (e : element).

Lemma app_bind_ret_l (a : A) k : mret a ≫= k = k a.
Proof. unfold mret, app_ret, mbind, app_bind. simpl. by destruct (k a). Qed.

Lemma app_bind_ret_r m : m ≫= mret = m.
Proof.
  destruct m as [w [a|e]]; unfold mret, app_ret, mbind, app_bind; simpl;
    by rewrite ?app_nil_r.
Qed.

Lemma app_bind_assoc m k (k' : B → app C) :
  (m ≫= k) ≫= k' = m ≫= (λ a, k a ≫= k').
Proof.
  destruct m as [w [a|e]]; unfold mbind, app_bind; simpl; [|done].
  destruct (k a) as [w' [b|e]]; simpl; [|done]. by rewrite app_assoc.
Qed.

Lemma app_bind_Ok w (a : A) k : (w, Ok a) ≫= k = (w ++ (k a).1, (k a).2).
Proof. done. Qed.

Lemma app_bind_Raise w x k : (w, Raise x) ≫= k = (w, Raise x).
Proof. done. Qed.

(** The page of a run extends the page of its first part. *)
Lemma page_bind_prefix m k : page m `prefix_of` page (m ≫= k).
Proof.
  destruct m as [w [a|e]]; unfold page, mbind, app_bind; simpl; [|done].
  by apply prefix_app_r.
Qed.

Lemma completes_bind m k :
  completes (m ≫= k) ↔ ∃ a, m.2 = Ok a ∧ completes (k a).
Proof.
  destruct m as [w [a|e]]; unfold completes, mbind, app_bind; simpl.
  - naive_solver.
  - split; [by intros [? ?]|by intros (? & ? & ?)].
Qed.

Lemma emit_bind e (k : unit → app B) :
  emit e ≫= k = (e :: (k ()).1, (k ()).2).
Proof. done. Qed.

Lemma lift_bind (r : result A) k :
  lift r ≫= k = match r with Ok a => k a | Raise x => ([], Raise x) end.
Proof. destruct r as [a|x]; [|done]. unfold lift, mbind, app_bind. simpl. by destruct (k a). Qed.
Lemma lift_Ok_bind (a : A) k : lift (Ok a) ≫= k = k a.
Proof. by rewrite lift_bind. Qed.

Lemma lift_Raise_bind x k : lift (Raise x) ≫= k = ([], Raise x).
Proof. done. Qed.
End app_lemmas.
