(* ===== verification/Presentation.v ===== *)
(** * Presentation: the table view, its summary and the CSV download

    Lines 54-64 of [src/eda.py]: the header, the row and column counts, the
    table, and the link that carries the filtered table as base64-encoded
    CSV text.  [to_csv] is [DataFrame.to_csv(index=False)] with the default
    dialect (comma, minimal quoting, line feed); [b64encode] is RFC 4648
    base64 with padding.  A CSV reader, a base64 decoder and the reading of
    the payload of the link are defined beside them to state the round
    trips. *)

From Stdlib Require Import Ascii.
From S2P Require Import Prelude PyStr Frame Cleaner Filter Stats Corr Streamlit.

(** ** The summary line (line 55) *)

Definition dimension_text (df : DataFrame) : string :=
  "Data Dimension: " +:+ pretty (shape df).1 +:+ " rows and " +:+
  pretty (shape df).2 +:+ " columns.".

(** ** [df.to_csv(index=False)] (line 59) *)

(** The double quote and the line feed. *)
Definition dq : ascii := ascii_of_nat 34.
Definition lf : ascii := ascii_of_nat 10.

(** A field is quoted when it holds the delimiter, the quote character or
    a character of the line terminator, which is the line feed here.  (The
    writer of CPython 3.13 and later also quotes a field that holds a
    carriage return.) *)
Definition csv_special (c : ascii) : bool :=
  bool_decide (c ∈ [","%char; dq; lf]).

Fixpoint needs_quote (s : string) : bool :=
  match s with
  | EmptyString => false
  | String c s => csv_special c || needs_quote s
  end.

(** Inside a quoted field every quote is doubled. *)
Fixpoint csv_escape (s : string) : string :=
  match s with
  | EmptyString => EmptyString
  | String c s =>
      if decide (c = dq) then String dq (String dq (csv_escape s))
      else String c (csv_escape s)
  end.

Definition csv_field (s : string) : string :=
  if needs_quote s then String dq (csv_escape s +:+ String dq EmptyString) else s.

Fixpoint csv_join (fields : list string) : string :=
  match fields with
  | [] => EmptyString
  | [f] => f
  | f :: fields => f +:+ String ","%char (csv_join fields)
  end.

(** One record.  A record of one empty field is written as two quotes, so
    that it is not an empty line. *)
Definition csv_line (fields : list string) : string :=
  match fields with
  | [EmptyString] => String dq (String dq (String lf EmptyString))
  | _ => csv_join (csv_field <$> fields) +:+ String lf EmptyString
  end.

Fixpoint concat_lines (lines : list string) : string :=
  match lines with
  | [] => EmptyString
  | l :: lines => l +:+ concat_lines lines
  end.

Section csv.
Context {fr : FloatRepr}.

(** The text of a cell: empty for a missing value ([na_rep='']). *)
Definition csv_cell (c : cell) : string :=
  match c with CNaN => EmptyString | _ => py_str c end.

(** The records of the file: the column names, then the rows. *)
Definition csv_records (df : DataFrame) : list (list string) :=
  columns df :: ((λ r : list cell, csv_cell <$> r) <$> frame_rows df).

Definition to_csv (df : DataFrame) : string :=
  concat_lines (csv_line <$> csv_records df).
End csv.

(** ** [base64.b64encode] (line 60) *)

(** The character of a six-bit value: [A-Z], [a-z], [0-9], [+], [/]. *)
Definition b64_char (n : N) : ascii :=
  if (n <? 26)%N then ascii_of_N (65 + n)
  else if (n <? 52)%N then ascii_of_N (97 + (n - 26))
  else if (n <? 62)%N then ascii_of_N (48 + (n - 52))
  else if (n =? 62)%N then "+"%char else "/"%char.

(** The character of six bits, most significant first. *)
Definition sextet (b5 b4 b3 b2 b1 b0 : bool) : ascii :=
  b64_char (N_of_ascii (Ascii b0 b1 b2 b3 b4 b5 false false)).

Definition pad : ascii := "="%char.

(** Three bytes become four characters; a last group of one or two bytes is
    padded. *)
Fixpoint b64encode (s : string) : string :=
  match s with
  | EmptyString => EmptyString
  | String (Ascii a0 a1 a2 a3 a4 a5 a6 a7) EmptyString =>
      String (sextet a7 a6 a5 a4 a3 a2)
        (String (sextet a1 a0 false false false false)
           (String pad (String pad EmptyString)))
  | String (Ascii a0 a1 a2 a3 a4 a5 a6 a7)
      (String (Ascii b0 b1 b2 b3 b4 b5 b6 b7) EmptyString) =>
      String (sextet a7 a6 a5 a4 a3 a2)
        (String (sextet a1 a0 b7 b6 b5 b4)
           (String (sextet b3 b2 b1 b0 false false)
              (String pad EmptyString)))
  | String (Ascii a0 a1 a2 a3 a4 a5 a6 a7)
      (String (Ascii b0 b1 b2 b3 b4 b5 b6 b7)
         (String (Ascii c0 c1 c2 c3 c4 c5 c6 c7) rest)) =>
      String (sextet a7 a6 a5 a4 a3 a2)
        (String (sextet a1 a0 b7 b6 b5 b4)
           (String (sextet b3 b2 b1 b0 c7 c6)
              (String (sextet c5 c4 c3 c2 c1 c0) (b64encode rest))))
  end.

(** ** The download link (lines 58-62) *)
Section download.
Context {fr : FloatRepr}.

Definition filedownload (df : DataFrame) : string :=
  let csv := to_csv df in
  let b64 := b64encode csv in
  "<a href=" +:+ String dq ("data:file/csv;base64," +:+ b64) +:+
  String dq (" download=" +:+ String dq ("playerstats.csv" +:+
  String dq ">Download CSV File</a>")).

(** Lines 54-64. *)
Definition presentation (df : DataFrame) : app unit :=
  emit (Header "Display Player Stats of Selected Team(s)");;
  emit (Write (dimension_text df));;
  emit (Dataframe df);;
  emit (Markdown (filedownload df) true).
End download.

(** ** A base64 decoder *)

(** The six bits of a character of the alphabet, most significant first. *)
Definition b64_bits (c : ascii) : option (bool * bool * bool * bool * bool * bool) :=
  let n := N_of_ascii c in
  let v :=
    if bool_decide (65 ≤ n ≤ 90)%N then Some (n - 65)%N
    else if bool_decide (97 ≤ n ≤ 122)%N then Some (n - 97 + 26)%N
    else if bool_decide (48 ≤ n ≤ 57)%N then Some (n - 48 + 52)%N
    else if bool_decide (n = 43)%N then Some 62%N
    else if bool_decide (n = 47)%N then Some 63%N
    else None in
  v ≫= λ v,
    match ascii_of_N v with
    | Ascii b0 b1 b2 b3 b4 b5 _ _ => Some (b5, b4, b3, b2, b1, b0)
    end.

Fixpoint b64decode (s : string) : option string :=
  match s with
  | EmptyString => Some EmptyString
  | String c1 (String c2 (String c3 (String c4 rest))) =>
      '(a7, a6, a5, a4, a3, a2) ← b64_bits c1;
      '(a1, a0, b7, b6, b5, b4) ← b64_bits c2;
      let a := Ascii a0 a1 a2 a3 a4 a5 a6 a7 in
      if decide (c3 = pad) then
        if decide (c4 = pad ∧ rest = EmptyString) then Some (String a EmptyString)
        else None
      else
        '(b3, b2, b1, b0, c7, c6) ← b64_bits c3;
        let b := Ascii b0 b1 b2 b3 b4 b5 b6 b7 in
        if decide (c4 = pad) then
          if decide (rest = EmptyString) then Some (String a (String b EmptyString))
          else None
        else
          '(c5, c4', c3', c2', c1', c0) ← b64_bits c4;
          let c := Ascii c0 c1' c2' c3' c4' c5 c6 c7 in
          r ← b64decode rest;
          Some (String a (String b (String c r)))
  | _ => None
  end.

(** ** A CSV reader

    The reader of the default dialect: records end at a line feed outside
    quotes, fields at a comma outside quotes, a doubled quote inside a
    quoted field is one quote. *)
Inductive csv_mode : Type :=
| FieldStart        (* at the start of a field *)
| Unquoted          (* inside an unquoted field *)
| Quoted            (* inside a quoted field *)
| QuoteSeen.        (* after a quote inside a quoted field *)

Record csv_state : Type := mkCsv {
  cs_mode : csv_mode;
  cs_field : string;             (* the field read so far *)
  cs_record : list string;       (* the fields of the record read so far *)
  cs_records : list (list string) (* the records read so far *)
}.

Definition csv_init : csv_state := mkCsv FieldStart EmptyString [] [].

Definition snoc_char (s : string) (c : ascii) : string := s +:+ String c EmptyString.

Definition end_field (st : csv_state) : csv_state :=
  mkCsv FieldStart EmptyString (cs_record st ++ [cs_field st]) (cs_records st).

Definition end_record (st : csv_state) : csv_state :=
  mkCsv FieldStart EmptyString [] (cs_records st ++ [cs_record st ++ [cs_field st]]).

(** A character outside quotes. *)
Definition plain_step (st : csv_state) (c : ascii) : csv_state :=
  if decide (c = ","%char) then end_field st
  else if decide (c = lf) then end_record st
  else mkCsv Unquoted (snoc_char (cs_field st) c) (cs_record st) (cs_records st).

Definition csv_step (st : csv_state) (c : ascii) : csv_state :=
  match cs_mode st with
  | FieldStart =>
      if decide (c = dq) then mkCsv Quoted (cs_field st) (cs_record st) (cs_records st)
      else plain_step st c
  | Unquoted => plain_step st c
  | Quoted =>
      if decide (c = dq) then mkCsv QuoteSeen (cs_field st) (cs_record st) (cs_records st)
      else mkCsv Quoted (snoc_char (cs_field st) c) (cs_record st) (cs_records st)
  | QuoteSeen =>
      if decide (c = dq)
      then mkCsv Quoted (snoc_char (cs_field st) c) (cs_record st) (cs_records st)
      else plain_step st c
  end.

Fixpoint csv_run (st : csv_state) (s : string) : csv_state :=
  match s with
  | EmptyString => st
  | String c s => csv_run (csv_step st c) s
  end.

(** The records of a text that ends with a line feed. *)
Definition csv_parse (s : string) : list (list string) :=
  cs_records (csv_run csv_init s).

(** ** Reading the link

    What a browser does with the link: it takes the value of the [href]
    attribute after [base64,], decodes it and saves the bytes. *)

(** A character of the base64 alphabet, or the padding character. *)
Definition b64_alphabet (c : ascii) : bool :=
  bool_decide (is_Some (b64_bits c)) || bool_decide (c = pad).

(** The text after a prefix. *)
Fixpoint strip_prefix (p s : string) : option string :=
  match p, s with
  | EmptyString, _ => Some s
  | String a p, String b s => if decide (a = b) then strip_prefix p s else None
  | String _ _, EmptyString => None
  end.

(** The text before the first double quote. *)
Fixpoint until_quote (s : string) : option string :=
  match s with
  | EmptyString => None
  | String c s => if decide (c = dq) then Some EmptyString else String c <$> until_quote s
  end.

(** The start of the link, up to the payload. *)
Definition href_prefix : string :=
  "<a href=" +:+ String dq "data:file/csv;base64,".

(** What the link carries: the value of the [href] attribute after
    [base64,]. *)
Definition download_payload (href : string) : option string :=
  strip_prefix href_prefix href ≫= until_quote.

(** What a click on the link saves, read as CSV. *)
Definition download (href : string) : option (list (list string)) :=
  b64 ← download_payload href;
  csv ← b64decode b64;
  Some (csv_parse csv).

(** ** Lemmas *)

(** ** Base64 *)
Section base64.
Implicit Types (s : string) (a b c : ascii).

(** Induction on a string three characters at a time. *)
Lemma string_ind3 (P : string → Prop) :
  P EmptyString →
  (∀ a, P (String a EmptyString)) →
  (∀ a b, P (String a (String b EmptyString))) →
  (∀ a b c s, P s → P (String a (String b (String c s)))) →
  ∀ s, P s.
Proof.
  intros H0 H1 H2 H3 s.
  cut (P s ∧ (∀ a, P (String a s)) ∧ (∀ a b, P (String a (String b s))));
    [by intros [? _]|].
  induction s as [|c s (IH0 & IH1 & IH2)]; [done|].
  split_and!; [done|done|]. intros a b. by apply H3.
Qed.

Lemma b64_bits_sextet (b5 b4 b3 b2 b1 b0 : bool) :
  b64_bits (sextet b5 b4 b3 b2 b1 b0) = Some (b5, b4, b3, b2, b1, b0).
Proof. by destruct b5, b4, b3, b2, b1, b0. Qed.

Lemma sextet_not_pad (b5 b4 b3 b2 b1 b0 : bool) : sextet b5 b4 b3 b2 b1 b0 ≠ pad.
Proof. by destruct b5, b4, b3, b2, b1, b0. Qed.

Lemma b64_bits_pad : b64_bits pad = None.
Proof. done. Qed.

Lemma b64encode_group a b c s :
  ∃ c1 c2 c3 c4,
    b64encode (String a (String b (String c s))) =
      String c1 (String c2 (String c3 (String c4 (b64encode s)))) ∧
    b64decode (String c1 (String c2 (String c3 (String c4 (b64encode s))))) =
      (r ← b64decode (b64encode s); Some (String a (String b (String c r)))).
Proof.
  destruct a as [a0 a1 a2 a3 a4 a5 a6 a7], b as [b0 b1 b2 b3 b4 b5 b6 b7],
    c as [c0 c1 c2 c3 c4 c5 c6 c7].
  do 4 eexists. split; [reflexivity|].
  cbn [b64decode]. rewrite !b64_bits_sextet. cbn [mbind option_bind].
  rewrite !decide_False by apply sextet_not_pad. reflexivity.
Qed.

Lemma b64_roundtrip_1 a : b64decode (b64encode (String a EmptyString)) = Some (String a EmptyString).
Proof.
  destruct a as [a0 a1 a2 a3 a4 a5 a6 a7]. cbn [b64encode b64decode].
  rewrite !b64_bits_sextet. cbn [mbind option_bind].
  by rewrite decide_True, decide_True.
Qed.

Lemma b64_roundtrip_2 a b :
  b64decode (b64encode (String a (String b EmptyString))) = Some (String a (String b EmptyString)).
Proof.
  destruct a as [a0 a1 a2 a3 a4 a5 a6 a7], b as [b0 b1 b2 b3 b4 b5 b6 b7].
  cbn [b64encode b64decode]. rewrite !b64_bits_sextet. cbn [mbind option_bind].
  rewrite decide_False by apply sextet_not_pad. rewrite ?b64_bits_sextet.
  cbn [mbind option_bind]. by rewrite decide_True, decide_True.
Qed.

Lemma b64encode_length_group a b c s :
  String.length (b64encode (String a (String b (String c s)))) =
  4 + String.length (b64encode s).
Proof. by destruct a, b, c. Qed.
End base64.

Section base64_encoding.
Implicit Types (s : string).

Lemma b64decode_b64encode s : b64decode (b64encode s) = Some s.
Proof.
  induction s as [|a|a b|a b c s IH] using string_ind3;
    [done|apply b64_roundtrip_1|apply b64_roundtrip_2|].
  destruct (b64encode_group a b c s) as (c1 & c2 & c3 & c4 & -> & ->).
  by rewrite IH.
Qed.

Lemma b64encode_length s :
  String.length (b64encode s) = 4 * ((String.length s + 2) / 3).
Proof.
  induction s as [|a|a b|a b c s IH] using string_ind3;
    [done|by destruct a|by destruct a, b|].
  rewrite b64encode_length_group, IH. cbn [String.length].
  replace (S (S (S (String.length s))) + 2) with (String.length s + 2 + 1 * 3) by lia.
  rewrite Nat.div_add by done. lia.
Qed.

Lemma sextet_alphabet (b5 b4 b3 b2 b1 b0 : bool) :
  b64_alphabet (sextet b5 b4 b3 b2 b1 b0) = true.
Proof. by destruct b5, b4, b3, b2, b1, b0. Qed.

Lemma b64encode_alphabet s : str_all b64_alphabet (b64encode s) = true.
Proof.
  induction s as [|a|a b|a b c s IH] using string_ind3; [done|..].
  - destruct a. cbn [b64encode str_all]. by rewrite !sextet_alphabet.
  - destruct a, b. cbn [b64encode str_all]. by rewrite !sextet_alphabet.
  - destruct a, b, c. cbn [b64encode str_all]. by rewrite !sextet_alphabet, IH.
Qed.
End base64_encoding.

(** C10: base64 loses nothing: decoding the encoded text gives the text
    back, for every byte string; the encoded text is written in the
    alphabet of RFC 4648 and its padding character, and has four characters
    for every three bytes, the last group padded. *)
Theorem b64_roundtrip (s : string) :
  b64decode (b64encode s) = Some s ∧
  str_all b64_alphabet (b64encode s) = true ∧
  String.length (b64encode s) = 4 * ((String.length s + 2) / 3).
Proof.
  split_and!; [apply b64decode_b64encode|apply b64encode_alphabet|apply b64encode_length].
Qed.

(** ** The CSV writer read back *)
Section csv_reader.
Implicit Types (st : csv_state) (f s t : string) (c : ascii)
  (fs rec : list string) (recs : list (list string)).

Lemma csv_run_app st s t : csv_run st (s +:+ t) = csv_run (csv_run st s) t.
Proof.
  revert st; induction s as [|c s IH]; intros st; [done|].
  rewrite app_String. simpl. apply IH.
Qed.

Lemma snoc_char_app f c s : snoc_char f c +:+ s = f +:+ String c s.
Proof. unfold snoc_char. by rewrite app_assoc_s, app_String, app_empty_l. Qed.

(** A field without special characters is read as it is. *)
Lemma csv_run_plain st s :
  needs_quote s = false → s ≠ EmptyString →
  cs_mode st = FieldStart ∨ cs_mode st = Unquoted →
  csv_run st s = mkCsv Unquoted (cs_field st +:+ s) (cs_record st) (cs_records st).
Proof.
  revert st; induction s as [|c s IH]; intros st Hq Hs Hm; [done|].
  simpl in Hq. apply orb_false_iff in Hq as [Hc Hq].
  apply bool_decide_eq_false in Hc. simpl.
  assert (csv_step st c =
    mkCsv Unquoted (snoc_char (cs_field st) c) (cs_record st) (cs_records st)) as ->.
  { unfold csv_step, plain_step.
    destruct Hm as [-> | ->]; rewrite ?decide_False; set_solver. }
  destruct s as [|c' s]; [by unfold snoc_char|].
  rewrite IH by (done || by right). simpl. by rewrite snoc_char_app.
Qed.

Lemma csv_step_quoted st c :
  cs_mode st = Quoted →
  csv_step st c =
    if decide (c = dq) then mkCsv QuoteSeen (cs_field st) (cs_record st) (cs_records st)
    else mkCsv Quoted (snoc_char (cs_field st) c) (cs_record st) (cs_records st).
Proof. unfold csv_step. by intros ->. Qed.

Lemma csv_step_quote_seen st :
  cs_mode st = QuoteSeen →
  csv_step st dq = mkCsv Quoted (snoc_char (cs_field st) dq) (cs_record st) (cs_records st).
Proof. unfold csv_step. intros ->. by rewrite decide_True. Qed.

(** Inside quotes the escaped text is read as the text. *)
Lemma csv_run_escape st s :
  cs_mode st = Quoted →
  csv_run st (csv_escape s) = mkCsv Quoted (cs_field st +:+ s) (cs_record st) (cs_records st).
Proof.
  revert st; induction s as [|c s IH]; intros st Hm.
  - cbn [csv_escape csv_run]. rewrite app_empty_r. destruct st; simpl in *. by subst.
  - cbn [csv_escape]. case_decide as Hc; cbn [csv_run]; rewrite (csv_step_quoted st) by done.
    + subst c. rewrite decide_True by done. rewrite csv_step_quote_seen by done.
      rewrite IH by done. cbn [cs_field cs_record cs_records]. by rewrite snoc_char_app.
    + rewrite decide_False by done. rewrite IH by done.
      cbn [cs_field cs_record cs_records]. by rewrite snoc_char_app.
Qed.

(** After a written field the reader holds the field and is not inside
    quotes. *)
Lemma csv_run_field f rec recs :
  ∃ m, m ≠ Quoted ∧
    csv_run (mkCsv FieldStart EmptyString rec recs) (csv_field f) = mkCsv m f rec recs.
Proof.
  unfold csv_field. destruct (needs_quote f) eqn:Hq.
  - exists QuoteSeen. split; [done|]. cbn [csv_run].
    change (csv_step _ dq) with (mkCsv Quoted EmptyString rec recs).
    rewrite csv_run_app, csv_run_escape by done. cbn [csv_run].
    by rewrite csv_step_quoted, decide_True.
  - destruct (decide (f = EmptyString)) as [->|Hf]; [by exists FieldStart|].
    exists Unquoted. split; [done|]. rewrite csv_run_plain by (done || by left).
    simpl. by rewrite app_empty_l.
Qed.

Lemma csv_step_comma st :
  cs_mode st ≠ Quoted → csv_step st ","%char = end_field st.
Proof. by destruct st as [[] ???]. Qed.

Lemma csv_step_lf st :
  cs_mode st ≠ Quoted → csv_step st lf = end_record st.
Proof. by destruct st as [[] ???]. Qed.

(** After the written fields of a record the reader holds the record: the
    fields before the last, and the last as the current field. *)
Lemma csv_run_join f fs rec recs :
  ∃ st, cs_mode st ≠ Quoted ∧ cs_records st = recs ∧
    cs_record st ++ [cs_field st] = rec ++ f :: fs ∧
    csv_run (mkCsv FieldStart EmptyString rec recs) (csv_join (csv_field <$> f :: fs)) = st.
Proof.
  revert f rec; induction fs as [|g fs IH]; intros f rec.
  - destruct (csv_run_field f rec recs) as (m & ? & Hf).
    by exists (mkCsv m f rec recs).
  - destruct (csv_run_field f rec recs) as (m & ? & Hf).
    destruct (IH g (rec ++ [f])) as (st & ? & ? & Hr & Hg).
    exists st. split_and!; [done|done|by rewrite Hr, <-app_assoc|].
    change (csv_join (csv_field <$> f :: g :: fs)) with
      (csv_field f +:+ String ","%char (csv_join (csv_field <$> g :: fs))).
    rewrite csv_run_app, Hf. cbn [csv_run]. by rewrite csv_step_comma.
Qed.

(** A written record is read as the record. *)
Lemma csv_run_line fs recs :
  fs ≠ [] →
  csv_run (mkCsv FieldStart EmptyString [] recs) (csv_line fs) =
  mkCsv FieldStart EmptyString [] (recs ++ [fs]).
Proof.
  intros Hfs. destruct fs as [|f fs]; [done|].
  assert (csv_run (mkCsv FieldStart EmptyString [] recs)
            (csv_join (csv_field <$> f :: fs) +:+ String lf EmptyString) =
          mkCsv FieldStart EmptyString [] (recs ++ [f :: fs])) as Hgen.
  { destruct (csv_run_join f fs [] recs) as (st & ? & ? & Hr & Hf).
    rewrite csv_run_app, Hf. cbn [csv_run]. rewrite csv_step_lf by done.
    unfold end_record. by rewrite Hr; subst. }
  destruct f as [|c f]; [destruct fs|]; done.
Qed.

Lemma csv_run_lines rs recs :
  Forall (λ r, r ≠ []) rs →
  csv_run (mkCsv FieldStart EmptyString [] recs) (concat_lines (csv_line <$> rs)) =
  mkCsv FieldStart EmptyString [] (recs ++ rs).
Proof.
  intros Hrs. revert recs. induction Hrs as [|r rs Hr _ IH]; intros recs.
  - by rewrite app_nil_r.
  - csimpl. rewrite csv_run_app, csv_run_line, IH by done. by rewrite <-app_assoc.
Qed.
End csv_reader.

Section csv_records.
Context {fr : FloatRepr}.
Implicit Types (df : DataFrame).

Lemma csv_records_length df : length (csv_records df) = S (shape df).1.
Proof. unfold csv_records. simpl. by rewrite length_fmap, frame_rows_length. Qed.

Lemma csv_records_width df :
  frame_wf df → Forall (λ r, length r = (shape df).2) (csv_records df).
Proof.
  intros Hwf. unfold csv_records, shape, columns. simpl. constructor.
  - by rewrite length_fmap.
  - apply Forall_fmap. eapply Forall_impl; [by apply frame_rows_width|].
    intros r Hr. simpl. by rewrite length_fmap.
Qed.

Lemma csv_parse_to_csv df :
  frame_wf df → columns df ≠ [] → csv_parse (to_csv df) = csv_records df.
Proof.
  intros Hwf Hc. unfold csv_parse, to_csv, csv_init.
  rewrite csv_run_lines; [done|].
  eapply Forall_impl; [by apply csv_records_width|].
  intros r Hr ->. unfold shape, columns in *. simpl in *.
  destruct (df_cols df); simplify_eq/=.
Qed.
End csv_records.

(** C4: reading the written CSV text gives back the column names and the
    text of every cell, row by row, and leaves the reader at the start of a
    record with nothing pending, for every well-formed table with at least
    one column, whatever the cells hold (commas, quotes, line breaks, empty
    text). *)
Theorem csv_roundtrip `{fr : FloatRepr} (df : DataFrame) :
  frame_wf df → columns df ≠ [] →
  let records := columns df :: ((λ r : list cell, csv_cell <$> r) <$> frame_rows df) in
  csv_run csv_init (to_csv df) = mkCsv FieldStart EmptyString [] records ∧
  csv_parse (to_csv df) = records.
Proof.
  intros Hwf Hc records. split; [|by apply csv_parse_to_csv].
  unfold to_csv, csv_init. rewrite csv_run_lines; [done|].
  eapply Forall_impl; [by apply csv_records_width|].
  intros r Hr ->. unfold shape, columns in *. simpl in *.
  destruct (df_cols df); simplify_eq/=.
Qed.

Lemma csv_roundtrip_witness :
  let records := columns sample_stats ::
    ((λ r : list cell, csv_cell (fr := decimal_repr) <$> r) <$> frame_rows sample_stats) in
  csv_run csv_init (to_csv (fr := decimal_repr) sample_stats) =
    mkCsv FieldStart EmptyString [] records ∧
  csv_parse (to_csv (fr := decimal_repr) sample_stats) = records.
Proof.
  apply (csv_roundtrip (fr := decimal_repr) sample_stats);
    [by apply (bool_decide_unpack _)|done].
Defined.

(** The export and a CSV parse reproduce the row and column counts of
    the table: the text has one record per row after the header record, and
    every record has one field per column. *)
Theorem csv_roundtrip_shape `{fr : FloatRepr} (df : DataFrame) :
  frame_wf df → columns df ≠ [] →
  length (csv_parse (to_csv df)) = S (shape df).1 ∧
  Forall (λ r, length r = (shape df).2) (csv_parse (to_csv df)).
Proof.
  intros Hwf Hc. rewrite csv_parse_to_csv by done.
  split; [apply csv_records_length|by apply csv_records_width].
Qed.

Lemma csv_roundtrip_shape_witness :
  length (csv_parse (to_csv (fr := decimal_repr) sample_stats)) = S (shape sample_stats).1 ∧
  Forall (λ r, length r = (shape sample_stats).2)
    (csv_parse (to_csv (fr := decimal_repr) sample_stats)).
Proof.
  apply (csv_roundtrip_shape (fr := decimal_repr) sample_stats);
    [by apply (bool_decide_unpack _)|done].
Defined.

(** ** The link read back *)
Section download_lemmas.
Implicit Types (s t p : string) (c : ascii).

Lemma strip_prefix_app p s : strip_prefix p (p +:+ s) = Some s.
Proof.
  induction p as [|a p IH]; [done|]. rewrite app_String. cbn [strip_prefix].
  by rewrite decide_True.
Qed.

Lemma until_quote_app s t :
  str_all (λ c, bool_decide (c ≠ dq)) s = true →
  until_quote (s +:+ String dq t) = Some s.
Proof.
  induction s as [|c s IH];
    [intros _; rewrite app_empty_l; cbn [until_quote]; by rewrite decide_True|].
  rewrite app_String. cbn [until_quote str_all]. intros [Hc Hs]%andb_true_iff.
  apply bool_decide_eq_true in Hc. by rewrite decide_False, IH.
Qed.

Lemma b64encode_no_quote s : str_all (λ c, bool_decide (c ≠ dq)) (b64encode s) = true.
Proof.
  apply (str_all_impl b64_alphabet); [|apply b64encode_alphabet].
  intros c Hc. apply bool_decide_eq_true. by intros ->.
Qed.
End download_lemmas.

Section download_thm.
Context {fr : FloatRepr}.

Lemma filedownload_shape df :
  ∃ rest, filedownload df = href_prefix +:+ b64encode (to_csv df) +:+ String dq rest.
Proof.
  eexists. unfold filedownload, href_prefix. cbv zeta. simpl. reflexivity.
Qed.

Lemma download_payload_filedownload df :
  download_payload (filedownload df) = Some (b64encode (to_csv df)).
Proof.
  destruct (filedownload_shape df) as [rest ->]. unfold download_payload.
  rewrite strip_prefix_app. simpl. apply until_quote_app, b64encode_no_quote.
Qed.
End download_thm.


(** C34: what a click on the download link saves is the table: the link carries
    the base64 text of the CSV export between [base64,] and the closing
    quote of the attribute, and decoding it and reading the CSV gives back
    the column names and the text of every cell, row by row, for every
    well-formed table with at least one column. *)
Theorem download_roundtrip `{fr : FloatRepr} (df : DataFrame) :
  frame_wf df → columns df ≠ [] →
  download_payload (filedownload df) = Some (b64encode (to_csv df)) ∧
  (download_payload (filedownload df) ≫= b64decode) = Some (to_csv df) ∧
  download (filedownload df) =
    Some (columns df :: ((λ r : list cell, csv_cell <$> r) <$> frame_rows df)).
Proof.
  intros Hwf Hc. unfold download. rewrite download_payload_filedownload. simpl.
  rewrite b64decode_b64encode. simpl. by rewrite csv_parse_to_csv.
Qed.

Lemma download_roundtrip_witness :
  download_payload (filedownload (fr := decimal_repr) sample_filtered) =
    Some (b64encode (to_csv (fr := decimal_repr) sample_filtered)) ∧
  (download_payload (filedownload (fr := decimal_repr) sample_filtered) ≫= b64decode) =
    Some (to_csv (fr := decimal_repr) sample_filtered) ∧
  download (filedownload (fr := decimal_repr) sample_filtered) =
    Some (columns sample_filtered ::
          ((λ r : list cell, csv_cell (fr := decimal_repr) <$> r) <$>
             frame_rows sample_filtered)).
Proof.
  apply (download_roundtrip (fr := decimal_repr) sample_filtered);
    [by apply (bool_decide_unpack _)|done].
Defined.
