(* ===== verification/Charts.v ===== *)
(** * Charts: the chart selector

    Lines 66-153 of [src/eda.py]: the radio button over six chart kinds and
    the [if]/[elif] chain that draws the chosen chart from the filtered
    table.  Each branch is a run ([Streamlit.app]): a header, then a figure
    or a line of text when the columns or the numeric data it needs are
    missing.  The box-plot branch assigns to the filtered table (line 93),
    so every branch takes the table and returns it as the branch leaves
    it. *)

From S2P Require Import Prelude PyStr Frame Cleaner Loader Filter Stats Corr Streamlit.

(** ** The selector (lines 67-71) *)

Definition visualization_options : list string :=
  ["Intercorrelation Heatmap"; "Box Plot by Team"; "Top 10 Players by Points";
   "Points vs. Assists"; "Average Points by Age"; "Points by Team"].

(** [st.sidebar.radio(label, options)]: the option chosen, the first option
    at the start. *)
Definition radio (options : list string) (choice : option string) : option string :=
  selectbox options choice.

(** ** The branches *)
Section branches.
Context {np : NumParser}.

(** Lines 75-86 *)
Definition heatmap_branch (df : DataFrame) : app DataFrame :=
  emit (Header "Intercorrelation Matrix Heatmap");;
  let numeric_df := select_dtypes_number df in
  if negb (frame_empty numeric_df) then
    let corr := corr numeric_df in
    mask ← lift (triu_mask corr);
    p ← lift (sns_heatmap corr mask 1 true true "coolwarm");
    emit (Pyplot (mkFigure (7, 5) p None None
                    "Correlation Heatmap of Numeric Metrics" None));;
    mret df
  else
    emit (Write "No numeric data available for correlation.");;
    mret df.

(** Lines 92-102: the body of the loop, for one metric. *)
Definition boxplot_metric (metric : string) (df : DataFrame) : app DataFrame :=
  if has_column metric df then
    s ← lift (getitem metric df);
    let df := setitem metric (to_numeric s) df in
    p ← lift (sns_xy Boxplot "team" metric df);
    emit (Pyplot (mkFigure (12, 6) p (Some "Team") (Some metric)
                    ("Box Plot of " +:+ metric +:+ " by Team") (Some 90%Z)));;
    mret df
  else
    emit (Write ("Metric '" +:+ metric +:+ "' is not available in the dataset."));;
    mret df.

(** Line 90 *)
Definition metrics : list string := ["pts"; "reb"; "ast"].

(** Lines 89-102 *)
Definition boxplot_branch (df : DataFrame) : app DataFrame :=
  emit (Header "Box Plot by Team");;
  for_each boxplot_metric metrics df.

(** Lines 105-115 *)
Definition top10_branch (df : DataFrame) : app DataFrame :=
  emit (Header "Top 10 Players by Points Scored");;
  if has_column "pts" df && has_column "player" df then
    top_players ← lift (nlargest 10 "pts" df ≫= select_columns ["player"; "pts"]);
    p ← lift (sns_xy Barplot "pts" "player" top_players);
    emit (Pyplot (mkFigure (12, 8) p (Some "Points") (Some "Player")
                    "Top 10 Players by Points Scored" None));;
    mret df
  else
    emit (Write "The 'pts' or 'player' column is missing in the dataset.");;
    mret df.

(** Lines 118-127 *)
Definition scatter_branch (df : DataFrame) : app DataFrame :=
  emit (Header "Points vs. Assists");;
  if has_column "pts" df && has_column "ast" df then
    p ← lift (sns_xy Scatterplot "pts" "ast" df);
    emit (Pyplot (mkFigure (10, 6) p (Some "Points") (Some "Assists")
                    "Points vs. Assists" None));;
    mret df
  else
    emit (Write "The 'pts' or 'ast' columns are missing in the dataset.");;
    mret df.

(** Lines 130-140 *)
Definition age_branch (df : DataFrame) : app DataFrame :=
  emit (Header "Average Points Scored by Age");;
  if has_column "age" df && has_column "pts" df then
    age_points ← lift (groupby_mean "age" "pts" df);
    p ← lift (sns_xy Lineplot "age" "pts" age_points);
    emit (Pyplot (mkFigure (10, 6) p (Some "Age") (Some "Average Points")
                    "Average Points Scored by Age" None));;
    mret df
  else
    emit (Write "The 'age' or 'pts' columns are missing in the dataset.");;
    mret df.

(** Lines 143-153 *)
Definition team_branch (df : DataFrame) : app DataFrame :=
  emit (Header "Points Scored by Team");;
  if has_column "pts" df && has_column "team" df then
    p ← lift (sns_xy Boxplot "team" "pts" df);
    emit (Pyplot (mkFigure (12, 6) p (Some "Team") (Some "Points")
                    "Points Scored by Team" (Some 90%Z)));;
    mret df
  else
    emit (Write "The 'pts' or 'team' columns are missing in the dataset.");;
    mret df.

(** Lines 74-153: the [if]/[elif] chain on the value of the radio button. *)
Definition chart (visualization : option string) (df : DataFrame) : app DataFrame :=
  if decide (visualization = Some "Intercorrelation Heatmap") then heatmap_branch df
  else if decide (visualization = Some "Box Plot by Team") then boxplot_branch df
  else if decide (visualization = Some "Top 10 Players by Points") then top10_branch df
  else if decide (visualization = Some "Points vs. Assists") then scatter_branch df
  else if decide (visualization = Some "Average Points by Age") then age_branch df
  else if decide (visualization = Some "Points by Team") then team_branch df
  else mret df.

(** Lines 67-153 *)
Definition chart_stage (choice : option string) (df : DataFrame) : app DataFrame :=
  emit (SidebarHeader "Visualizations");;
  emit (SidebarRadio "Select a visualization:" visualization_options);;
  chart (radio visualization_options choice) df.
End branches.

(** ** What a branch promises

    Every branch but the box plots has one shape: a header, then one figure
    when its guard holds and a line of text when it does not; building the
    figure may raise. *)
Definition guarded_plot (header text : string) (guard : bool)
    (fig : result Figure) (df : DataFrame) : app DataFrame :=
  emit (Header header);;
  if guard then f ← lift fig; emit (Pyplot f);; mret df
  else emit (Write text);; mret df.

(** The page of a branch whose guard fails. *)
Definition fallback (header text : string) (df : DataFrame) : app DataFrame :=
  ([Header header; Write text], Ok df).

(** The figures of the four branches that plot two columns. *)
Definition top10_figure (df : DataFrame) : result Figure :=
  top_players ← nlargest 10 "pts" df ≫= select_columns ["player"; "pts"];
  p ← sns_xy Barplot "pts" "player" top_players;
  mret (mkFigure (12, 8) p (Some "Points") (Some "Player")
          "Top 10 Players by Points Scored" None).

Definition scatter_figure (df : DataFrame) : result Figure :=
  p ← sns_xy Scatterplot "pts" "ast" df;
  mret (mkFigure (10, 6) p (Some "Points") (Some "Assists") "Points vs. Assists" None).

Definition age_figure (df : DataFrame) : result Figure :=
  age_points ← groupby_mean "age" "pts" df;
  p ← sns_xy Lineplot "age" "pts" age_points;
  mret (mkFigure (10, 6) p (Some "Age") (Some "Average Points")
          "Average Points Scored by Age" None).

Definition team_figure (df : DataFrame) : result Figure :=
  p ← sns_xy Boxplot "team" "pts" df;
  mret (mkFigure (12, 6) p (Some "Team") (Some "Points")
          "Points Scored by Team" (Some 90%Z)).

(** The figure of the box plot of one metric, on the table after the
    conversion of the metric. *)
Definition boxplot_figure (metric : string) (df : DataFrame) : Figure :=
  mkFigure (12, 6) (Boxplot "team" metric df) (Some "Team") (Some metric)
    ("Box Plot of " +:+ metric +:+ " by Team") (Some 90%Z).

(** The table of the bar chart: the player and the points of the rows
    [nlargest] keeps. *)
Definition top_players (df : DataFrame) (player pts : Series) : DataFrame :=
  let ps := nlargest_positions 10 (s_values pts) in
  mkFrame (take_positions ps (df_index df))
    [("player", series_take ps player); ("pts", series_take ps pts)].

(** The metrics of the list that are columns of the table. *)
Definition present (ms : list string) (df : DataFrame) : list string :=
  filter (λ m, m ∈ columns df) ms.

(** The points column, when there is one, is numeric. *)
Definition numeric_points (df : DataFrame) : Prop :=
  ∀ pts, col_lookup "pts" (df_cols df) = Some pts → is_numeric (s_dtype pts) = true.

(** The choices whose branch calls neither [nlargest] nor [mean]. *)
Definition safe_choice (choice : option string) : Prop :=
  choice ≠ Some "Top 10 Players by Points" ∧ choice ≠ Some "Average Points by Age".

(** ** Reading a page *)

(** The figures and the lines of text of a page. *)
Definition figures (p : list element) : list Figure :=
  omap (λ e, match e with Pyplot f => Some f | _ => None end) p.

Definition texts (p : list element) : list string :=
  omap (λ e, match e with Write s => Some s | _ => None end) p.

(** ** Lemmas *)

(** ** The seaborn calls *)
Section sns.
Implicit Types (df : DataFrame) (x y : string).

Lemma sns_xy_Ok mk x y df :
  has_column x df = true → has_column y df = true →
  sns_xy mk x y df = Ok (mk x y df).
Proof. unfold sns_xy. by intros -> ->. Qed.

(** Two arrays of [n] rows and [m] columns have the same shape. *)
Lemma rect_same_shape n m (mask : list (list Q)) (rows : list (list rcell)) :
  rect n m mask → rect n m rows → same_shape mask rows = true.
Proof.
  intros [Hn Hm] [Hn' Hm']. unfold same_shape. apply bool_decide_eq_true.
  apply list_eq_same_length with n; rewrite ?length_fmap; [done..|].
  intros i x y _ (r & -> & Hr)%list_lookup_fmap_Some (r' & -> & Hr')%list_lookup_fmap_Some.
  rewrite Forall_lookup in Hm. rewrite Forall_lookup in Hm'.
  by rewrite (Hm i r), (Hm' i r').
Qed.

Lemma corr_square df :
  rect (length (df_cols df)) (length (df_cols df)) (m_rows (corr df)).
Proof.
  unfold corr. split; simpl; [by rewrite length_fmap|].
  apply Forall_fmap, Forall_true. intros c. simpl. by rewrite length_fmap.
Qed.

(** The mask of lines 79-80 on a correlation matrix. *)
Lemma triu_mask_corr df :
  triu_mask (corr df) = Ok (upper_triangle (length (df_cols df)) (length (df_cols df))).
Proof. apply triu_mask_upper_triangle, corr_square. Qed.

(** The heat map is always given a mask of the shape of the matrix. *)
Lemma sns_heatmap_corr df vmax sq an cmap :
  let mask := upper_triangle (length (df_cols df)) (length (df_cols df)) in
  sns_heatmap (corr df) mask vmax sq an cmap =
  Ok (Heatmap (corr df) mask vmax sq an cmap).
Proof.
  intros mask. unfold sns_heatmap, mask.
  by rewrite (rect_same_shape _ _ _ _ (upper_triangle_rect _ _) (corr_square df)).
Qed.
End sns.

(** ** The branches *)
Section branch_lemmas.
Context {np : NumParser}.
Implicit Types (df : DataFrame).

Lemma heatmap_branch_empty df :
  frame_empty (select_dtypes_number df) = true →
  heatmap_branch df =
    fallback "Intercorrelation Matrix Heatmap"
      "No numeric data available for correlation." df.
Proof. unfold heatmap_branch. by intros ->. Qed.

Lemma heatmap_branch_figure df :
  frame_empty (select_dtypes_number df) = false →
  let numeric_df := select_dtypes_number df in
  let n := length (df_cols numeric_df) in
  heatmap_branch df =
    ([Header "Intercorrelation Matrix Heatmap";
      Pyplot (mkFigure (7, 5)
        (Heatmap (corr numeric_df) (upper_triangle n n) 1 true true "coolwarm")
        None None "Correlation Heatmap of Numeric Metrics" None)], Ok df).
Proof.
  intros He numeric_df n. unfold heatmap_branch. rewrite He. cbv zeta. cbn [negb].
  by rewrite triu_mask_corr, lift_Ok_bind, sns_heatmap_corr.
Qed.

Lemma select_dtypes_object df :
  Forall (λ c, s_dtype c.2 = DObject) (df_cols df) →
  df_cols (select_dtypes_number df) = [].
Proof.
  intros Hd. unfold select_dtypes_number. simpl.
  apply filter_nil_Forall. eapply Forall_impl; [exact Hd|].
  intros [n s] Hs. simpl in *. by rewrite Hs.
Qed.

(** *** The shape of the branches *)
Lemma guarded_plot_fallback header text fig df :
  guarded_plot header text false fig df = fallback header text df.
Proof. done. Qed.

Lemma guarded_plot_Ok header text f df :
  guarded_plot header text true (Ok f) df = ([Header header; Pyplot f], Ok df).
Proof. done. Qed.

Lemma guarded_plot_Raise header text e df :
  guarded_plot header text true (Raise e) df = ([Header header], Raise e).
Proof. done. Qed.

Lemma guarded_plot_cases header text guard fig df :
  (guard = false ∧ guarded_plot header text guard fig df = fallback header text df) ∨
  (∃ f, guard = true ∧ fig = Ok f ∧
        guarded_plot header text guard fig df = ([Header header; Pyplot f], Ok df)) ∨
  (∃ e, guard = true ∧ fig = Raise e ∧
        guarded_plot header text guard fig df = ([Header header], Raise e)).
Proof. destruct guard, fig as [f|e]; naive_solver. Qed.

Lemma heatmap_branch_guarded df :
  let numeric_df := select_dtypes_number df in
  let n := length (df_cols numeric_df) in
  heatmap_branch df =
    guarded_plot "Intercorrelation Matrix Heatmap"
      "No numeric data available for correlation."
      (negb (frame_empty numeric_df))
      (Ok (mkFigure (7, 5)
             (Heatmap (corr numeric_df) (upper_triangle n n) 1 true true "coolwarm")
             None None "Correlation Heatmap of Numeric Metrics" None)) df.
Proof.
  intros numeric_df n. unfold numeric_df, n.
  destruct (frame_empty (select_dtypes_number df)) eqn:He.
  - by rewrite heatmap_branch_empty.
  - by rewrite heatmap_branch_figure.
Qed.

Lemma top10_branch_guarded df :
  top10_branch df =
    guarded_plot "Top 10 Players by Points Scored"
      "The 'pts' or 'player' column is missing in the dataset."
      (has_column "pts" df && has_column "player" df) (top10_figure df) df.
Proof.
  unfold top10_branch, guarded_plot, top10_figure.
  destruct (_ && _); [|done].
  destruct (nlargest 10 "pts" df ≫= select_columns _) as [t|e]; [|done].
  rewrite lift_bind. cbn [mbind result_bind].
  by destruct (sns_xy Barplot "pts" "player" t).
Qed.

Lemma scatter_branch_guarded df :
  scatter_branch df =
    guarded_plot "Points vs. Assists"
      "The 'pts' or 'ast' columns are missing in the dataset."
      (has_column "pts" df && has_column "ast" df) (scatter_figure df) df.
Proof.
  unfold scatter_branch, guarded_plot, scatter_figure.
  destruct (_ && _); [|done]. by destruct (sns_xy Scatterplot "pts" "ast" df).
Qed.

Lemma age_branch_guarded df :
  age_branch df =
    guarded_plot "Average Points Scored by Age"
      "The 'age' or 'pts' columns are missing in the dataset."
      (has_column "age" df && has_column "pts" df) (age_figure df) df.
Proof.
  unfold age_branch, guarded_plot, age_figure.
  destruct (_ && _); [|done].
  destruct (groupby_mean "age" "pts" df) as [t|e]; [|done].
  rewrite lift_bind. cbn [mbind result_bind].
  by destruct (sns_xy Lineplot "age" "pts" t).
Qed.

Lemma team_branch_guarded df :
  team_branch df =
    guarded_plot "Points Scored by Team"
      "The 'pts' or 'team' columns are missing in the dataset."
      (has_column "pts" df && has_column "team" df) (team_figure df) df.
Proof.
  unfold team_branch, guarded_plot, team_figure.
  destruct (_ && _); [|done]. by destruct (sns_xy Boxplot "team" "pts" df).
Qed.
End branch_lemmas.

(** *** The figures *)
Section figure_lemmas.
Implicit Types (df : DataFrame).

Lemma and_has_column a b df :
  has_column a df && has_column b df = true ↔
  has_column a df = true ∧ has_column b df = true.
Proof. apply andb_true_iff. Qed.

Lemma has_column_lookup name df :
  has_column name df = true ↔ is_Some (col_lookup name (df_cols df)).
Proof. unfold has_column, columns. by rewrite bool_decide_eq_true, col_lookup_is_Some. Qed.

Lemma scatter_figure_Ok df :
  has_column "pts" df && has_column "ast" df = true →
  scatter_figure df =
    Ok (mkFigure (10, 6) (Scatterplot "pts" "ast" df) (Some "Points") (Some "Assists")
          "Points vs. Assists" None).
Proof. intros [? ?]%and_has_column. unfold scatter_figure. by rewrite sns_xy_Ok. Qed.

Lemma team_figure_Ok df :
  has_column "pts" df && has_column "team" df = true →
  team_figure df =
    Ok (mkFigure (12, 6) (Boxplot "team" "pts" df) (Some "Team") (Some "Points")
          "Points Scored by Team" (Some 90%Z)).
Proof. intros [? ?]%and_has_column. unfold team_figure. by rewrite sns_xy_Ok. Qed.

Lemma select_columns_two a b df sa sb :
  col_lookup a (df_cols df) = Some sa → col_lookup b (df_cols df) = Some sb →
  select_columns [a; b] df = Ok (mkFrame (df_index df) [(a, sa); (b, sb)]).
Proof. intros Ha Hb. unfold select_columns, getitem. csimpl. by rewrite Ha, Hb. Qed.


Lemma top10_figure_Ok df player pts :
  col_lookup "player" (df_cols df) = Some player →
  col_lookup "pts" (df_cols df) = Some pts → is_numeric (s_dtype pts) = true →
  top10_figure df =
    Ok (mkFigure (12, 8) (Barplot "pts" "player" (top_players df player pts))
          (Some "Points") (Some "Player") "Top 10 Players by Points Scored" None).
Proof.
  intros Hpl Hpts Hn. unfold top10_figure.
  rewrite (nlargest_Ok 10 "pts" df pts) by done. cbn [mbind result_bind].
  rewrite (select_columns_two "player" "pts" _ (series_take _ player) (series_take _ pts))
    by (by rewrite take_rows_lookup, ?Hpl, ?Hpts).
  done.
Qed.

Lemma top10_figure_object df pts :
  col_lookup "pts" (df_cols df) = Some pts → s_dtype pts = DObject →
  top10_figure df = Raise (TypeError (nlargest_message "pts")).
Proof.
  intros Hpts Hd. unfold top10_figure. by rewrite (nlargest_object 10 "pts" df pts).
Qed.

(** The figure of the means by age, when [mean] does not raise. *)
Lemma age_figure_mean_table df age pts :
  groupby_mean "age" "pts" df = Ok (mean_table "age" "pts" age pts) →
  age_figure df =
    Ok (mkFigure (10, 6) (Lineplot "age" "pts" (mean_table "age" "pts" age pts))
          (Some "Age") (Some "Average Points") "Average Points Scored by Age" None).
Proof. intros Hg. unfold age_figure. by rewrite Hg. Qed.

Lemma age_figure_object df age pts :
  col_lookup "age" (df_cols df) = Some age →
  col_lookup "pts" (df_cols df) = Some pts → s_dtype pts = DObject →
  age_figure df =
    if existsb is_text (grouped_values (s_values age) (s_values pts))
    then Raise (TypeError "agg function failed [how->mean,dtype->object]")
    else Ok (mkFigure (10, 6) (Lineplot "age" "pts" (mean_table "age" "pts" age pts))
               (Some "Age") (Some "Average Points") "Average Points Scored by Age" None).
Proof.
  intros Ha Hp Hd. pose proof (groupby_mean_object "age" "pts" df age pts Ha Hp Hd) as Hg.
  destruct (existsb _ _); [|by apply age_figure_mean_table].
  unfold age_figure. by rewrite Hg.
Qed.
End figure_lemmas.

(** *** The box plots *)
Section boxplot_lemmas.
Context {np : NumParser}.
Implicit Types (df : DataFrame) (metric : string) (ms : list string).

Lemma has_column_setitem name name' s df :
  name ∈ columns df → has_column name' (setitem name s df) = has_column name' df.
Proof. intros Hin. unfold has_column. by rewrite setitem_columns. Qed.

Lemma boxplot_metric_present metric df s :
  col_lookup metric (df_cols df) = Some s → has_column "team" df = true →
  let df' := setitem metric (to_numeric s) df in
  boxplot_metric metric df = ([Pyplot (boxplot_figure metric df')], Ok df').
Proof.
  intros Hs Ht df'. unfold boxplot_metric.
  assert (has_column metric df = true) as Hm by (apply has_column_lookup; eauto).
  pose proof Hm as Hin%bool_decide_eq_true.
  rewrite Hm. unfold getitem. rewrite Hs. rewrite lift_bind. cbn [or_raise]. fold df'.
  rewrite sns_xy_Ok; [done|by unfold df'; rewrite has_column_setitem..].
Qed.

Lemma boxplot_metric_absent metric df :
  has_column metric df = false →
  boxplot_metric metric df =
    ([Write ("Metric '" +:+ metric +:+ "' is not available in the dataset.")], Ok df).
Proof. unfold boxplot_metric. by intros ->. Qed.

Lemma figures_cons e p : figures (e :: p) = figures [e] ++ figures p.
Proof. by destruct e. Qed.

Lemma texts_cons e p : texts (e :: p) = texts [e] ++ texts p.
Proof. by destruct e. Qed.


(** One iteration keeps the columns, shows one element, and shows a figure
    exactly when the metric is a column. *)
Lemma boxplot_metric_step metric df :
  has_column "team" df = true →
  ∃ e df', boxplot_metric metric df = ([e], Ok df') ∧ columns df' = columns df ∧
    df_index df' = df_index df ∧
    figures [e] = (if has_column metric df then [boxplot_figure metric df'] else []) ∧
    length (texts [e]) = (if has_column metric df then 0 else 1).
Proof.
  intros Ht. destruct (has_column metric df) eqn:Hm.
  - pose proof Hm as [s Hs]%has_column_lookup.
    pose proof Hm as Hin%bool_decide_eq_true.
    rewrite (boxplot_metric_present metric df s) by done.
    do 2 eexists. split_and!; [done|by apply setitem_columns|done..].
  - rewrite boxplot_metric_absent by done. by do 2 eexists.
Qed.

Lemma for_each_boxplot ms df :
  has_column "team" df = true →
  ∃ p df', for_each boxplot_metric ms df = (p, Ok df') ∧ columns df' = columns df ∧
    df_index df' = df_index df ∧
    length p = length ms ∧
    length (figures p) = length (present ms df) ∧
    length (texts p) = length ms - length (present ms df).
Proof.
  revert df; induction ms as [|m ms IH]; intros df Ht; [by exists [], df|].
  destruct (boxplot_metric_step m df Ht) as (e & df1 & He & Hc & Hi & Hf & Hx).
  destruct (IH df1) as (p & df' & Hp & Hc' & Hi' & Hl & Hfp & Hxp).
  { unfold has_column in *. by rewrite Hc. }
  exists (e :: p), df'. cbn [for_each]. rewrite He, app_bind_Ok, Hp. cbn [fst snd app].
  assert (present ms df1 = present ms df) as Hpr by (unfold present; by rewrite Hc).
  assert (length (present ms df) ≤ length ms) by apply length_filter.
  rewrite Hpr in *. unfold present in *. rewrite filter_cons.
  rewrite (figures_cons e p), (texts_cons e p).
  rewrite !length_app, Hf, Hx, Hfp, Hxp. unfold has_column.
  split_and!; [done|congruence|congruence|simpl; lia|..];
    case_bool_decide; rewrite ?decide_True, ?decide_False by done; simpl; lia.
Qed.

(** What one iteration leaves: the metric converted, if it is a column. *)
Lemma boxplot_metric_table metric df :
  has_column "team" df = true →
  ∃ e df', boxplot_metric metric df = ([e], Ok df') ∧
    (frame_wf df → frame_wf df') ∧
    ∀ name, col_lookup name (df_cols df') =
      if decide (name = metric) then to_numeric <$> col_lookup name (df_cols df)
      else col_lookup name (df_cols df).
Proof.
  intros Ht. destruct (has_column metric df) eqn:Hm.
  - pose proof Hm as [s Hs]%has_column_lookup.
    pose proof Hm as Hin%bool_decide_eq_true.
    rewrite (boxplot_metric_present metric df s) by done.
    do 2 eexists. split_and!; [done| |].
    + intros Hwf. apply setitem_wf; [done..|].
      by eapply to_numeric_ok, lookup_series_ok.
    + intros name. rewrite setitem_lookup.
      destruct (decide (name = metric)) as [->|Hne]; [by rewrite decide_True, Hs|].
      by rewrite decide_False.
  - rewrite boxplot_metric_absent by done. do 2 eexists. split_and!; [done..|].
    intros name. case_decide as He; [|done]. subst name.
    apply bool_decide_eq_false in Hm.
    by rewrite (proj2 (col_lookup_None metric (df_cols df))).
Qed.

(** What the loop leaves: every listed metric converted, the other columns
    as they were. *)
Lemma for_each_boxplot_table ms df p df' :
  has_column "team" df = true →
  for_each boxplot_metric ms df = (p, Ok df') →
  (frame_wf df → frame_wf df') ∧
  ∀ name, col_lookup name (df_cols df') =
    if decide (name ∈ ms) then to_numeric <$> col_lookup name (df_cols df)
    else col_lookup name (df_cols df).
Proof.
  revert df p; induction ms as [|m ms IH]; intros df p Ht.
  - intros [= <- <-]. split; [done|]. intros name. by rewrite decide_False by set_solver.
  - destruct (boxplot_metric_table m df Ht) as (e & df1 & He & Hwf & Hl).
    cbn [for_each]. rewrite He, app_bind_Ok.
    destruct (for_each boxplot_metric ms df1) as [p1 r1] eqn:Hp. cbn [fst snd].
    intros [= <- ->]. destruct (IH df1 p1) as [Hwf' Hl']; [|done|].
    { apply has_column_lookup. rewrite Hl. apply has_column_lookup in Ht.
      case_decide; [|done]. by apply fmap_is_Some. }
    split; [auto|]. intros name. rewrite Hl', Hl.
    destruct (decide (name = m)) as [->|Hne].
    + rewrite (decide_True (P := m ∈ m :: ms)) by left.
      case_decide; [|done]. destruct (col_lookup m (df_cols df)); [|done].
      simpl. by rewrite to_numeric_idemp.
    + repeat case_decide; set_solver.
Qed.
End boxplot_lemmas.

(** ** The properties of the chart selector *)

(** C7: a branch whose required columns are missing shows its header and
    the line of text that names them, and does not raise: the four branches
    that plot two columns, and the heat map without numeric data. *)
Theorem chart_missing_columns `{np : NumParser} (df : DataFrame) :
  (has_column "pts" df && has_column "player" df = false →
   chart (Some "Top 10 Players by Points") df =
     fallback "Top 10 Players by Points Scored"
       "The 'pts' or 'player' column is missing in the dataset." df) ∧
  (has_column "pts" df && has_column "ast" df = false →
   chart (Some "Points vs. Assists") df =
     fallback "Points vs. Assists"
       "The 'pts' or 'ast' columns are missing in the dataset." df) ∧
  (has_column "age" df && has_column "pts" df = false →
   chart (Some "Average Points by Age") df =
     fallback "Average Points Scored by Age"
       "The 'age' or 'pts' columns are missing in the dataset." df) ∧
  (has_column "pts" df && has_column "team" df = false →
   chart (Some "Points by Team") df =
     fallback "Points Scored by Team"
       "The 'pts' or 'team' columns are missing in the dataset." df) ∧
  (frame_empty (select_dtypes_number df) = true →
   chart (Some "Intercorrelation Heatmap") df =
     fallback "Intercorrelation Matrix Heatmap"
       "No numeric data available for correlation." df).
Proof.
  split_and!; intros Hg; unfold chart; simpl.
  - by rewrite top10_branch_guarded, Hg.
  - by rewrite scatter_branch_guarded, Hg.
  - by rewrite age_branch_guarded, Hg.
  - by rewrite team_branch_guarded, Hg.
  - by apply heatmap_branch_empty.
Qed.

(** C15: on a table with a team column the box-plot branch shows one element
    per metric of the list: a figure for each metric that is a column of
    the table and a line of text for each that is not; it does not raise,
    and it leaves the table with the same rows and column names, well
    formed if it was, the columns of the three metrics converted by
    [to_numeric] (the assignment of line 93) and every other column as it
    was. *)
Theorem boxplot_branch_page `{np : NumParser} (df : DataFrame) :
  has_column "team" df = true →
  ∃ p df', chart (Some "Box Plot by Team") df = (Header "Box Plot by Team" :: p, Ok df') ∧
    columns df' = columns df ∧ df_index df' = df_index df ∧
    length (figures p) = length (present metrics df) ∧
    length (texts p) = 3 - length (present metrics df) ∧
    (frame_wf df → frame_wf df') ∧
    ∀ name, col_lookup name (df_cols df') =
      if decide (name ∈ metrics) then to_numeric <$> col_lookup name (df_cols df)
      else col_lookup name (df_cols df).
Proof.
  intros Ht. destruct (for_each_boxplot metrics df Ht)
    as (p & df' & Hp & ? & ? & _ & ? & ?).
  destruct (for_each_boxplot_table metrics df p df' Ht Hp) as [? ?].
  exists p, df'. split_and!; [|done..].
  unfold chart. simpl. unfold boxplot_branch. by rewrite emit_bind, Hp.
Qed.

Lemma boxplot_branch_page_witness :
  ∃ p df', chart (np := decimal_parse) (Some "Box Plot by Team") sample_filtered =
      (Header "Box Plot by Team" :: p, Ok df') ∧
    columns df' = columns sample_filtered ∧ df_index df' = df_index sample_filtered ∧
    length (figures p) = length (present metrics sample_filtered) ∧
    length (texts p) = 3 - length (present metrics sample_filtered) ∧
    (frame_wf sample_filtered → frame_wf df') ∧
    ∀ name, col_lookup name (df_cols df') =
      if decide (name ∈ metrics)
      then to_numeric (np := decimal_parse) <$> col_lookup name (df_cols sample_filtered)
      else col_lookup name (df_cols sample_filtered).
Proof. apply (boxplot_branch_page (np := decimal_parse) sample_filtered). reflexivity. Defined.

(** C16: on a table whose points column has dtype object the Top 10 branch
    raises a [TypeError] after its header, although all its columns are
    present, and so does the Average Points by Age branch when a row with
    an age holds text in its points cell, as every row of a scraped table
    does: the run stops and no line of text is shown.  When the object
    column holds only numbers the means are computed and the line plot is
    shown. *)
Theorem chart_object_points_raises `{np : NumParser} (df : DataFrame) (pts : Series) :
  col_lookup "pts" (df_cols df) = Some pts → s_dtype pts = DObject →
  (has_column "player" df = true →
   chart (Some "Top 10 Players by Points") df =
     ([Header "Top 10 Players by Points Scored"],
      Raise (TypeError (nlargest_message "pts")))) ∧
  (∀ age, col_lookup "age" (df_cols df) = Some age →
     chart (Some "Average Points by Age") df =
       if existsb is_text (grouped_values (s_values age) (s_values pts))
       then ([Header "Average Points Scored by Age"],
             Raise (TypeError "agg function failed [how->mean,dtype->object]"))
       else ([Header "Average Points Scored by Age";
              Pyplot (mkFigure (10, 6)
                (Lineplot "age" "pts" (mean_table "age" "pts" age pts))
                (Some "Age") (Some "Average Points")
                "Average Points Scored by Age" None)], Ok df)) ∧
  (∀ age i a t, col_lookup "age" (df_cols df) = Some age →
     s_values age !! i = Some a → a ≠ CNaN → s_values pts !! i = Some (CStr t) →
     chart (Some "Average Points by Age") df =
       ([Header "Average Points Scored by Age"],
        Raise (TypeError "agg function failed [how->mean,dtype->object]"))).
Proof.
  intros Hp Hd.
  assert (has_column "pts" df = true) as Hpts by (apply has_column_lookup; eauto).
  assert (∀ age, col_lookup "age" (df_cols df) = Some age →
    chart (Some "Average Points by Age") df =
      guarded_plot "Average Points Scored by Age"
        "The 'age' or 'pts' columns are missing in the dataset." true (age_figure df) df)
    as Hage.
  { intros age Ha. unfold chart. simpl. rewrite age_branch_guarded, Hpts.
    by rewrite (proj2 (has_column_lookup "age" df)) by eauto. }
  split_and!.
  - intros Hc. unfold chart. simpl.
    by rewrite top10_branch_guarded, Hpts, Hc, (top10_figure_object df pts).
  - intros age Ha. rewrite (Hage age Ha), (age_figure_object df age pts) by done.
    by destruct (existsb _ _).
  - intros age i a t Ha Hi Hn Ht.
    rewrite (Hage age Ha), (age_figure_object df age pts) by done.
    by rewrite (grouped_values_text _ _ i a t).
Qed.

Lemma chart_object_points_raises_witness :
  let pts := obj [CStr "30.1"; CStr "10.0"; CStr "4.5"] in
  (has_column "player" sample_filtered = true →
   chart (np := decimal_parse) (Some "Top 10 Players by Points") sample_filtered =
     ([Header "Top 10 Players by Points Scored"],
      Raise (TypeError (nlargest_message "pts")))) ∧
  (∀ age, col_lookup "age" (df_cols sample_filtered) = Some age →
     chart (np := decimal_parse) (Some "Average Points by Age") sample_filtered =
       if existsb is_text (grouped_values (s_values age) (s_values pts))
       then ([Header "Average Points Scored by Age"],
             Raise (TypeError "agg function failed [how->mean,dtype->object]"))
       else ([Header "Average Points Scored by Age";
              Pyplot (mkFigure (10, 6)
                (Lineplot "age" "pts" (mean_table "age" "pts" age pts))
                (Some "Age") (Some "Average Points")
                "Average Points Scored by Age" None)], Ok sample_filtered)) ∧
  (∀ age i a t, col_lookup "age" (df_cols sample_filtered) = Some age →
     s_values age !! i = Some a → a ≠ CNaN → s_values pts !! i = Some (CStr t) →
     chart (np := decimal_parse) (Some "Average Points by Age") sample_filtered =
       ([Header "Average Points Scored by Age"],
        Raise (TypeError "agg function failed [how->mean,dtype->object]"))).
Proof.
  apply (chart_object_points_raises (np := decimal_parse) sample_filtered
           (obj [CStr "30.1"; CStr "10.0"; CStr "4.5"])); reflexivity.
Defined.

(** C27: on a table all of whose columns have dtype object, as every column
    of a page with repeated header rows has, the heat-map branch shows the
    line of text and never a heat map. *)
Theorem heatmap_object_only `{np : NumParser} (df : DataFrame) :
  Forall (λ c, s_dtype c.2 = DObject) (df_cols df) →
  chart (Some "Intercorrelation Heatmap") df =
    fallback "Intercorrelation Matrix Heatmap"
      "No numeric data available for correlation." df.
Proof.
  intros Hd. unfold chart. simpl. apply heatmap_branch_empty.
  unfold frame_empty. rewrite select_dtypes_object by done.
  apply orb_true_r.
Qed.

Lemma heatmap_object_only_witness :
  chart (np := decimal_parse) (Some "Intercorrelation Heatmap") sample_filtered =
    fallback "Intercorrelation Matrix Heatmap"
      "No numeric data available for correlation." sample_filtered.
Proof.
  apply (heatmap_object_only (np := decimal_parse) sample_filtered).
  by repeat constructor.
Defined.

(** C24: with a numeric points column and a player column the Top 10 branch
    shows one bar chart of points against player, over the player and the
    points of the ten rows [nlargest] keeps, in its order, and leaves the
    table as it is. *)
Theorem top10_branch_correct `{np : NumParser} (df : DataFrame) (player pts : Series) :
  col_lookup "player" (df_cols df) = Some player →
  col_lookup "pts" (df_cols df) = Some pts → is_numeric (s_dtype pts) = true →
  chart (Some "Top 10 Players by Points") df =
    ([Header "Top 10 Players by Points Scored";
      Pyplot (mkFigure (12, 8) (Barplot "pts" "player" (top_players df player pts))
                (Some "Points") (Some "Player") "Top 10 Players by Points Scored" None)],
     Ok df).
Proof.
  intros Hpl Hpts Hn. unfold chart. simpl.
  assert (has_column "pts" df = true) as Hp by (apply has_column_lookup; eauto).
  assert (has_column "player" df = true) as Hc by (apply has_column_lookup; eauto).
  by rewrite top10_branch_guarded, Hp, Hc, (top10_figure_Ok df player pts).
Qed.

Lemma top10_branch_correct_witness :
  let player := obj [CStr "A"; CStr "B"; CStr "C"; CStr "D"; CStr "E"] in
  let pts := mkSeries DFloat64
    [CFloat 10.5%Q; CFloat 30%Q; CFloat 4.5%Q; CFloat 30%Q; CFloat 12%Q] in
  chart (np := decimal_parse) (Some "Top 10 Players by Points") sample_points =
    ([Header "Top 10 Players by Points Scored";
      Pyplot (mkFigure (12, 8) (Barplot "pts" "player" (top_players sample_points player pts))
                (Some "Points") (Some "Player") "Top 10 Players by Points Scored" None)],
     Ok sample_points).
Proof.
  apply (top10_branch_correct (np := decimal_parse) sample_points); reflexivity.
Defined.

(** C28: the selector always runs one branch: whatever was chosen, the value
    of the radio button is one of the six options, the first at the start,
    and the page of the chart stage shows the header of a branch after the
    selector. *)
Theorem chart_dispatch `{np : NumParser} (choice : option string) (df : DataFrame) :
  radio visualization_options None = Some "Intercorrelation Heatmap" ∧
  ∃ v h rest, radio visualization_options choice = Some v ∧
    v ∈ visualization_options ∧
    page (chart (Some v) df) = Header h :: rest ∧
    page (chart_stage choice df) =
      SidebarHeader "Visualizations" ::
      SidebarRadio "Select a visualization:" visualization_options ::
      Header h :: rest.
Proof.
  split; [done|].
  destruct (selectbox_is_Some visualization_options choice) as [v Hv]; [done|].
  pose proof (selectbox_elem_of _ _ _ Hv) as Hin.
  exists v. unfold chart_stage, radio. rewrite Hv.
  cut (∃ h rest, page (chart (Some v) df) = Header h :: rest).
  { intros (h & rest & Hp). exists h, rest. split_and!; [done..|].
    unfold page in *. by rewrite !emit_bind; simpl; rewrite Hp. }
  unfold visualization_options in Hin. rewrite !elem_of_cons, elem_of_nil in Hin.
  destruct Hin as [->|[->|[->|[->|[->|[->|[]]]]]]]; unfold chart, page; simpl;
    by do 2 eexists.
Qed.

Section completes_lemmas.
Context {np : NumParser}.
Implicit Types (df : DataFrame).

Lemma age_figure_Ok df age pts :
  col_lookup "age" (df_cols df) = Some age →
  col_lookup "pts" (df_cols df) = Some pts → is_numeric (s_dtype pts) = true →
  age_figure df =
    Ok (mkFigure (10, 6) (Lineplot "age" "pts" (mean_table "age" "pts" age pts))
          (Some "Age") (Some "Average Points") "Average Points Scored by Age" None).
Proof. intros Ha Hp Hn. by apply age_figure_mean_table, groupby_mean_numeric. Qed.

Lemma completes_guarded header text guard fig df :
  completes (guarded_plot header text guard fig df) ↔ guard = false ∨ is_Ok fig.
Proof.
  unfold completes, is_Ok. destruct guard, fig as [f|e]; simpl; naive_solver.
Qed.

Lemma top10_branch_completes df : numeric_points df → completes (top10_branch df).
Proof.
  intros Hn. rewrite top10_branch_guarded, completes_guarded.
  destruct (has_column "pts" df && has_column "player" df) eqn:Hg; [right|by left].
  apply and_has_column in Hg as [[pts Hp]%has_column_lookup [pl Hpl]%has_column_lookup].
  rewrite (top10_figure_Ok df pl pts) by auto. by eexists.
Qed.

Lemma age_branch_completes df : numeric_points df → completes (age_branch df).
Proof.
  intros Hn. rewrite age_branch_guarded, completes_guarded.
  destruct (has_column "age" df && has_column "pts" df) eqn:Hg; [right|by left].
  apply and_has_column in Hg as [[age Ha]%has_column_lookup [pts Hp]%has_column_lookup].
  rewrite (age_figure_Ok df age pts) by auto. by eexists.
Qed.

Lemma scatter_branch_completes df : completes (scatter_branch df).
Proof.
  rewrite scatter_branch_guarded, completes_guarded.
  destruct (has_column "pts" df && has_column "ast" df) eqn:Hg; [right|by left].
  rewrite scatter_figure_Ok by done. by eexists.
Qed.

Lemma team_branch_completes df : completes (team_branch df).
Proof.
  rewrite team_branch_guarded, completes_guarded.
  destruct (has_column "pts" df && has_column "team" df) eqn:Hg; [right|by left].
  rewrite team_figure_Ok by done. by eexists.
Qed.

Lemma heatmap_branch_completes df : completes (heatmap_branch df).
Proof.
  rewrite heatmap_branch_guarded. apply completes_guarded.
  destruct (negb _); [right; by eexists|by left].
Qed.

Lemma boxplot_branch_completes df :
  has_column "team" df = true → completes (boxplot_branch df).
Proof.
  intros Ht. destruct (for_each_boxplot metrics df Ht) as (p & df' & Hp & _).
  unfold boxplot_branch. rewrite emit_bind, Hp. by eexists.
Qed.
End completes_lemmas.

(** C18: with a team column, and a points column that is numeric when it is
    there, the chart stage never raises: whatever is chosen, the run of the
    chosen branch completes.  (Completing means that neither pandas nor
    the script raises; what seaborn does with the data it is given is
    outside the model.) *)
Theorem chart_stage_completes `{np : NumParser} (choice : option string) (df : DataFrame) :
  has_column "team" df = true → numeric_points df →
  completes (chart_stage choice df).
Proof.
  intros Ht Hn. unfold chart_stage.
  rewrite !completes_bind. exists (). split; [done|].
  rewrite !completes_bind. exists (). split; [done|].
  unfold chart. repeat case_decide;
    auto using heatmap_branch_completes, boxplot_branch_completes, top10_branch_completes,
      scatter_branch_completes, age_branch_completes, team_branch_completes.
  by eexists.
Qed.

Lemma chart_stage_completes_witness :
  completes (chart_stage (np := decimal_parse) (Some "Average Points by Age") sample_points).
Proof.
  apply (chart_stage_completes (np := decimal_parse) _ sample_points); [reflexivity|].
  intros pts [= <-]. reflexivity.
Defined.

(** ** The table a branch returns *)
Section chart_results.
Context {np : NumParser}.
Implicit Types (df : DataFrame) (p : list element).

(** A guarded branch returns the table it was given. *)
Lemma guarded_plot_result header text guard fig df p df' :
  guarded_plot header text guard fig df = (p, Ok df') → df' = df.
Proof.
  destruct (guarded_plot_cases header text guard fig df)
    as [[_ ->]|[(f & _ & _ & ->)|(e & _ & _ & ->)]]; by intros [= _ <-].
Qed.

(** The table a branch returns has the column names of the table it was
    given, and is well formed if that table was. *)
Lemma chart_result v df p df' :
  has_column "team" df = true → chart v df = (p, Ok df') →
  columns df' = columns df ∧ (frame_wf df → frame_wf df').
Proof.
  intros Ht. unfold chart. repeat case_decide.
  - rewrite heatmap_branch_guarded. by intros ->%guarded_plot_result.
  - unfold boxplot_branch. rewrite emit_bind.
    destruct (for_each_boxplot metrics df Ht) as (q & df1 & Hq & Hc & _).
    destruct (for_each_boxplot_table metrics df q df1 Ht Hq) as [Hwf _].
    rewrite Hq. by intros [= _ <-].
  - rewrite top10_branch_guarded. by intros ->%guarded_plot_result.
  - rewrite scatter_branch_guarded. by intros ->%guarded_plot_result.
  - rewrite age_branch_guarded. by intros ->%guarded_plot_result.
  - rewrite team_branch_guarded. by intros ->%guarded_plot_result.
  - by intros [= _ <-].
Qed.

Lemma chart_stage_result choice df p df' :
  has_column "team" df = true → chart_stage choice df = (p, Ok df') →
  columns df' = columns df ∧ (frame_wf df → frame_wf df').
Proof.
  intros Ht. unfold chart_stage. rewrite !emit_bind. cbn [fst snd].
  destruct (chart _ df) as [q r] eqn:Hq. intros [= _ ->]. by eapply chart_result.
Qed.
End chart_results.

Section safe_branches.
Context {np : NumParser}.
Implicit Types (df : DataFrame).

Lemma radio_safe choice :
  safe_choice choice → safe_choice (radio visualization_options choice).
Proof.
  unfold radio, selectbox, safe_choice. intros [H1 H2].
  destruct choice as [v|]; [case_decide|]; simpl; split; congruence.
Qed.

Lemma chart_completes_safe v df :
  has_column "team" df = true → safe_choice v → completes (chart v df).
Proof.
  intros Ht [H1 H2]. unfold chart. repeat case_decide; try done;
    auto using heatmap_branch_completes, boxplot_branch_completes,
      scatter_branch_completes, team_branch_completes.
  by eexists.
Qed.

Lemma chart_stage_completes_safe choice df :
  has_column "team" df = true → safe_choice choice →
  completes (chart_stage choice df).
Proof.
  intros Ht Hs. unfold chart_stage.
  rewrite !completes_bind. exists (). split; [done|].
  rewrite !completes_bind. exists (). split; [done|].
  by apply chart_completes_safe, radio_safe.
Qed.
End safe_branches.


(** C25: with numeric data the heat-map branch shows one heat map of the
    correlation matrix of the numeric columns, labelled with their names,
    with the upper bound of the colour scale at 1 and a mask of the shape of
    the matrix that shows the cell of row [i] and column [j] exactly when
    [j < i]; the table is left as it is. *)
Theorem heatmap_branch_correct `{np : NumParser} (df : DataFrame) :
  frame_empty (select_dtypes_number df) = false →
  let numeric_df := select_dtypes_number df in
  let n := length (df_cols numeric_df) in
  ∃ mask,
    chart (Some "Intercorrelation Heatmap") df =
      ([Header "Intercorrelation Matrix Heatmap";
        Pyplot (mkFigure (7, 5)
          (Heatmap (corr numeric_df) mask 1 true true "coolwarm")
          None None "Correlation Heatmap of Numeric Metrics" None)], Ok df) ∧
    m_labels (corr numeric_df) = columns numeric_df ∧
    Forall (λ c, is_numeric (s_dtype c.2) = true) (df_cols numeric_df) ∧
    ∀ i j, i < n → j < n →
      is_Some (m_entry (corr numeric_df) i j) ∧
      mask_entry mask i j = Some (if decide (i ≤ j) then 1%Q else 0%Q).
Proof.
  intros He numeric_df n. exists (upper_triangle n n). split_and!.
  - unfold chart. rewrite decide_True by done. by rewrite heatmap_branch_figure.
  - done.
  - apply Forall_forall. by intros c [? _]%list_elem_of_filter.
  - intros i j Hi Hj.
    split; [by apply corr_entry_is_Some|by apply upper_triangle_entry].
Qed.

Lemma heatmap_branch_correct_witness :
  let numeric_df := select_dtypes_number sample_points in
  let n := length (df_cols numeric_df) in
  ∃ mask,
    chart (np := decimal_parse) (Some "Intercorrelation Heatmap") sample_points =
      ([Header "Intercorrelation Matrix Heatmap";
        Pyplot (mkFigure (7, 5)
          (Heatmap (corr numeric_df) mask 1 true true "coolwarm")
          None None "Correlation Heatmap of Numeric Metrics" None)], Ok sample_points) ∧
    m_labels (corr numeric_df) = columns numeric_df ∧
    Forall (λ c, is_numeric (s_dtype c.2) = true) (df_cols numeric_df) ∧
    ∀ i j, i < n → j < n →
      is_Some (m_entry (corr numeric_df) i j) ∧
      mask_entry mask i j = Some (if decide (i ≤ j) then 1%Q else 0%Q).
Proof. apply (heatmap_branch_correct (np := decimal_parse) sample_points). reflexivity. Defined.

(** C26: with an age column and a numeric points column the Average Points
    by Age branch shows one line plot of points against age over the table
    of the means of the points by age, one row per age in ascending order,
    and leaves the table as it is. *)
Theorem age_branch_correct `{np : NumParser} (df : DataFrame) (age pts : Series) :
  col_lookup "age" (df_cols df) = Some age →
  col_lookup "pts" (df_cols df) = Some pts → is_numeric (s_dtype pts) = true →
  chart (Some "Average Points by Age") df =
    ([Header "Average Points Scored by Age";
      Pyplot (mkFigure (10, 6) (Lineplot "age" "pts" (mean_table "age" "pts" age pts))
                (Some "Age") (Some "Average Points") "Average Points Scored by Age" None)],
     Ok df) ∧
  StronglySorted key_lt (group_keys (s_values age)) ∧
  shape (mean_table "age" "pts" age pts) = (length (group_keys (s_values age)), 2).
Proof.
  intros Ha Hp Hn.
  assert (has_column "age" df = true) as Hca by (apply has_column_lookup; eauto).
  assert (has_column "pts" df = true) as Hcp by (apply has_column_lookup; eauto).
  split_and!; [|apply group_keys_sorted|unfold shape; simpl; by rewrite length_seq].
  unfold chart. simpl. rewrite age_branch_guarded, Hca, Hcp. unfold age_figure.
  by rewrite (groupby_mean_numeric "age" "pts" df age pts).
Qed.

Lemma age_branch_correct_witness :
  let age := mkSeries DInt64 [CInt 25; CInt 31; CInt 25; CInt 22; CInt 31] in
  let pts := mkSeries DFloat64
    [CFloat 10.5%Q; CFloat 30%Q; CFloat 4.5%Q; CFloat 30%Q; CFloat 12%Q] in
  chart (np := decimal_parse) (Some "Average Points by Age") sample_points =
    ([Header "Average Points Scored by Age";
      Pyplot (mkFigure (10, 6) (Lineplot "age" "pts" (mean_table "age" "pts" age pts))
                (Some "Age") (Some "Average Points") "Average Points Scored by Age" None)],
     Ok sample_points) ∧
  StronglySorted key_lt (group_keys (s_values age)) ∧
  shape (mean_table "age" "pts" age pts) = (length (group_keys (s_values age)), 2).
Proof.
  apply (age_branch_correct (np := decimal_parse) sample_points); reflexivity.
Defined.
