(* ===== verification/App.v ===== *)
(** * App: the script from top to bottom

    One run of [src/eda.py] on the choices of the user: the page chrome
    (lines 9-28), the season selector and the cached load (lines 29-41), the
    column clean-up (lines 44-45), the two multi-selects and the row filter
    (lines 47-52), the presentation (lines 54-64) and the chart selector
    (lines 66-153).  A run returns the page it shows, the filtered table or
    the exception that stopped it, and the cache it leaves.  A session is a
    sequence of runs that share the cache. *)

From S2P Require Import Prelude PyStr Frame Cleaner Loader Filter.
From S2P Require Import Stats Corr Streamlit Presentation Charts.

(** ** The page chrome (lines 9-28) *)

(** Lines 19-26: the text under the title. *)
Definition intro : string :=
  "
            
Welcome to the NBA Player Stats Explorer! This interactive app lets you dive deep into NBA player statistics from various seasons. Using data from  [Basketball-reference.com](https://www.basketball-reference.com/), you can explore detailed stats, filter by team and position, and view a range of visualizations including heatmaps, box plots, and scatter plots. Whether you're analyzing player performance trends, comparing teams, or identifying top players, this app provides an intuitive interface to help you uncover insights and trends in NBA data.

            
* **Python libraries:** base64, pandas, streamlit, matplotlib, seaborn
* **Data source:** [Basketball-reference.com](https://www.basketball-reference.com/)
".

Definition page_chrome : app unit :=
  emit (PageConfig "NBA Statistics Explorer" "wide");;
  emit (Image
    "https://encrypted-tbn0.gstatic.com/images?q=tbn:ANd9GcRlXTzn3kr6AofzE1d78AQxWmitIP7ckNWQDg&s"
    400);;
  emit (Title "NBA Player Statistics Explorer");;
  emit (Markdown intro false);;
  emit (SidebarHeader "User Input Features").

(** ** The choices of the user

    What the widgets return in a run: for each, the choice made, or [None]
    while the widget is untouched. *)
Record inputs : Type := mkInputs {
  in_year : option Z;
  in_teams : option (list string);
  in_positions : option (list string);
  in_chart : option string
}.

(** Nothing chosen: the first visit of the page. *)
Definition no_input : inputs := mkInputs None None None None.

(** ** The script *)
Section script.
Context {fr : FloatRepr} {np : NumParser}.
Context (read_html : string → result (list DataFrame)).

(** Lines 44-153, on the table [load_data] returned. *)
Definition body (inp : inputs) (loaded : result DataFrame) : app DataFrame :=
  playerstats ← lift loaded;
  playerstats ← lift (prepare playerstats);
  sorted_unique_team ← lift (sorted_unique_team playerstats);
  emit (SidebarMultiselect "Team" sorted_unique_team sorted_unique_team);;
  let selected_team := multiselect sorted_unique_team sorted_unique_team (in_teams inp) in
  emit (SidebarMultiselect "Position" unique_pos unique_pos);;
  let selected_pos := multiselect unique_pos unique_pos (in_positions inp) in
  df_selected_team ← lift (filter_rows selected_team selected_pos playerstats);
  presentation df_selected_team;;
  chart_stage (in_chart inp) df_selected_team.

(** Lines 9-153: one run, from a cache to a page and a cache. *)
Definition script (inp : inputs) (cache : gmap Z DataFrame)
  : app DataFrame * gmap Z DataFrame :=
  let year := selected_year (in_year inp) in
  let loaded := load_data_cached read_html year cache in
  (page_chrome;;
   emit (SidebarSelectbox "Year" (pretty <$> year_options));;
   body inp loaded.1,
   loaded.2).

(** A session: the runs of a list of interactions, each on the cache the
    previous one left. *)
Fixpoint session (inps : list inputs) (cache : gmap Z DataFrame)
  : list (app DataFrame) * gmap Z DataFrame :=
  match inps with
  | [] => ([], cache)
  | inp :: inps =>
      let r := script inp cache in
      let rs := session inps r.2 in
      (r.1 :: rs.1, rs.2)
  end.

(** The caches a session can reach from the empty cache, one run at a
    time. *)
Inductive reachable_cache : gmap Z DataFrame → Prop :=
| reach_empty : reachable_cache ∅
| reach_run inp cache :
    reachable_cache cache → reachable_cache (script inp cache).2.
End script.

(** What every run shows first: the chrome and the season selector. *)
Definition preamble : list element :=
  page page_chrome ++ [SidebarSelectbox "Year" (pretty <$> year_options)].

(** ** Lemmas *)

(** ** The page of a run *)
Section script_lemmas.
Context {fr : FloatRepr} {np : NumParser}.
Context (read_html : string → result (list DataFrame)).
Implicit Types (inp : inputs) (cache : gmap Z DataFrame) (df : DataFrame).

Lemma script_unfold inp cache :
  script read_html inp cache =
    let loaded := load_data_cached read_html (selected_year (in_year inp)) cache in
    ((preamble ++ (body inp loaded.1).1, (body inp loaded.1).2), loaded.2).
Proof. done. Qed.

Lemma script_cache inp cache :
  (script read_html inp cache).2 =
  (load_data_cached read_html (selected_year (in_year inp)) cache).2.
Proof. done. Qed.

Lemma body_Raise inp e : body inp (Raise e) = ([], Raise e).
Proof. done. Qed.

(** The body on a loaded table, when the clean-up fails. *)
Lemma body_prepare_Raise inp df e :
  prepare df = Raise e → body inp (Ok df) = ([], Raise e).
Proof. intros He. unfold body. by rewrite lift_Ok_bind, He. Qed.

Lemma reachable_cache_cache_sound cache :
  reachable_cache read_html cache → cache_sound read_html cache.
Proof.
  induction 1 as [|inp cache _ IH]; [apply cache_sound_empty|].
  rewrite script_cache. by apply load_data_cached_sound.
Qed.
End script_lemmas.

(** ** The properties of a run *)

(** C12: the cache of a session is sound at every point: every table a
    reachable cache holds is what [load_data] returns for its year, and the
    cache a session leaves, whatever its interactions, is reachable. *)
Theorem reachable_cache_sound `{fr : FloatRepr} `{np : NumParser}
    (read_html : string → result (list DataFrame)) (cache : gmap Z DataFrame) :
  reachable_cache read_html cache →
  cache_sound read_html cache ∧
  ∀ inps, reachable_cache read_html (session read_html inps cache).2.
Proof.
  intros Hr. split; [by apply reachable_cache_cache_sound|].
  intros inps. revert cache Hr. induction inps as [|inp inps IH]; intros cache Hr; [done|].
  cbn [session snd]. by apply IH, reach_run.
Qed.

Lemma reachable_cache_sound_witness :
  let cache :=
    (script (fr := decimal_repr) (np := decimal_parse) sample_web no_input ∅).2 in
  cache_sound sample_web cache ∧
  ∀ inps, reachable_cache (fr := decimal_repr) (np := decimal_parse) sample_web
            (session (fr := decimal_repr) (np := decimal_parse) sample_web inps cache).2.
Proof.
  apply (reachable_cache_sound (fr := decimal_repr) (np := decimal_parse) sample_web).
  apply reach_run, reach_empty.
Defined.

(** C20: when the season cannot be loaded the run shows the chrome and the
    season selector, then stops with the exception of [load_data], and the
    cache is left as it was. *)
Theorem script_load_failure `{fr : FloatRepr} `{np : NumParser}
    (read_html : string → result (list DataFrame))
    (inp : inputs) (cache : gmap Z DataFrame) (e : exn) :
  cache_sound read_html cache →
  load_data read_html (selected_year (in_year inp)) = Raise e →
  script read_html inp cache = ((preamble, Raise e), cache).
Proof.
  intros Hc He. rewrite script_unfold. cbv zeta.
  pose proof (load_data_cached_result read_html (selected_year (in_year inp)) cache Hc) as Hr.
  rewrite He in Hr.
  destruct (load_data_cached read_html _ cache) as [r cache'] eqn:Hl. simpl in Hr. subst r.
  unfold load_data_cached in Hl. destruct (cache !! _); [done|].
  rewrite He in Hl. injection Hl as <-. cbn [fst snd]. rewrite body_Raise.
  cbn [fst snd]. by rewrite app_nil_r.
Qed.

Lemma script_load_failure_witness :
  script (fr := decimal_repr) (np := decimal_parse) sample_web
    (mkInputs (Some 2022%Z) None None None) ∅ = ((preamble, Raise IndexError), ∅).
Proof.
  apply (script_load_failure (fr := decimal_repr) (np := decimal_parse) sample_web
           (mkInputs (Some 2022%Z) None None None) ∅ IndexError);
    [apply cache_sound_empty|reflexivity].
Defined.

(** C21: a loaded table without a column whose normalised name is [team]
    stops the run with [KeyError team] right after the season selector:
    the missing column is a hard failure and no line of text names it. *)
Theorem script_missing_team `{fr : FloatRepr} `{np : NumParser}
    (read_html : string → result (list DataFrame))
    (inp : inputs) (cache : gmap Z DataFrame) (df : DataFrame) :
  (load_data_cached read_html (selected_year (in_year inp)) cache).1 = Ok df →
  "team" ∉ normalize_name <$> columns df →
  (script read_html inp cache).1 = (preamble, Raise (KeyError "team")).
Proof.
  intros Hl Ht. rewrite script_unfold. cbv zeta. rewrite Hl. cbn [fst snd].
  rewrite (body_prepare_Raise inp df (KeyError "team")); [cbn [fst snd]; by rewrite app_nil_r|].
  unfold prepare. apply team_as_text_Raise. by rewrite normalize_columns_columns.
Qed.

Lemma script_missing_team_witness :
  let old := mkFrame [0]
    [("Rk", obj [CStr "1"]); ("Player", obj [CStr "A"]); ("Age", obj [CStr "25"]);
     ("Tm", obj [CStr "BOS"]); ("Pos", obj [CStr "PG"])] in
  (script (fr := decimal_repr) (np := decimal_parse) (λ _, Ok [old]) no_input ∅).1 =
  (preamble, Raise (KeyError "team")).
Proof.
  intros old.
  apply (script_missing_team (fr := decimal_repr) (np := decimal_parse) (λ _, Ok [old])
           no_input ∅ (remove_columns ["Rk"] old)); [reflexivity|].
  by apply (bool_decide_unpack _).
Defined.

Section script_success.
Context {fr : FloatRepr} {np : NumParser}.
Implicit Types (inp : inputs) (df : DataFrame).

(** The body is the clean-up, the filter stage, the presentation and the
    chart stage, in this order. *)
Lemma body_filter_stage inp raw stats df :
  prepare raw = Ok stats →
  filter_stage (in_teams inp) (in_positions inp) stats = Ok df →
  ∃ options, sorted_unique_team stats = Ok options ∧
    body inp (Ok raw) =
      ([SidebarMultiselect "Team" options options;
        SidebarMultiselect "Position" unique_pos unique_pos] ++
       page (presentation df) ++ page (chart_stage (in_chart inp) df),
       (chart_stage (in_chart inp) df).2).
Proof.
  intros Hp. unfold filter_stage. intros (options & Ho & Hf)%bind_Ok.
  exists options. split; [done|]. unfold body.
  rewrite lift_Ok_bind, Hp, lift_Ok_bind, Ho, lift_Ok_bind, !emit_bind. cbn [fst snd].
  rewrite Hf, lift_Ok_bind.
  destruct (chart_stage (in_chart inp) df) as [w r]. by destruct r.
Qed.
End script_success.

(** C19: a run whose table loads, has distinct column names after the
    normalisation of line 44, a team column and a position column shows, in
    this order, the chrome, the season selector, the two multi-selects with
    every option selected by default, the presentation of the filtered
    table and the chart stage on the filtered table; the table presented
    is well formed when the loaded table was.  (When two names collide
    after line 44 pandas returns a table for the duplicated label, and line
    47 fails when the label is [team]; the model covers the tables without
    collision.) *)
Theorem script_page `{fr : FloatRepr} `{np : NumParser}
    (read_html : string → result (list DataFrame))
    (inp : inputs) (cache : gmap Z DataFrame) (raw stats df : DataFrame) :
  (load_data_cached read_html (selected_year (in_year inp)) cache).1 = Ok raw →
  NoDup (normalize_name <$> columns raw) →
  prepare raw = Ok stats →
  filter_stage (in_teams inp) (in_positions inp) stats = Ok df →
  (frame_wf raw → frame_wf df) ∧
  ∃ options, sorted_unique_team stats = Ok options ∧
    (script read_html inp cache).1 =
      (preamble ++
       [SidebarMultiselect "Team" options options;
        SidebarMultiselect "Position" unique_pos unique_pos] ++
       page (presentation df) ++ page (chart_stage (in_chart inp) df),
       (chart_stage (in_chart inp) df).2).
Proof.
  intros Hl Hn Hp Hf. split.
  - intros Hwf. apply filter_stage_inv in Hf as (o & _ & Hf).
    eapply filter_rows_wf; [|done]. by apply (prepare_Ok_wf raw).
  - destruct (body_filter_stage inp raw stats df Hp Hf) as (options & Ho & Hb).
    exists options. split; [done|]. rewrite script_unfold. cbv zeta.
    by rewrite Hl; cbn [fst snd]; rewrite Hb.
Qed.

Lemma script_page_witness :
  (frame_wf sample_clean → frame_wf sample_filtered) ∧
  ∃ options, sorted_unique_team sample_stats = Ok options ∧
    (script (fr := decimal_repr) (np := decimal_parse) sample_web no_input ∅).1 =
      (preamble ++
       [SidebarMultiselect "Team" options options;
        SidebarMultiselect "Position" unique_pos unique_pos] ++
       page (presentation (fr := decimal_repr) sample_filtered) ++
       page (chart_stage (np := decimal_parse) None sample_filtered),
       (chart_stage (np := decimal_parse) None sample_filtered).2).
Proof.
  apply (script_page (fr := decimal_repr) (np := decimal_parse) sample_web no_input ∅
           sample_clean sample_stats sample_filtered);
    [reflexivity|by apply (bool_decide_unpack _)|reflexivity..].
Defined.

(** C36: a second run with the same choices shows the same page without
    fetching again: on the cache the first run left, the page does not
    depend on the web any more. *)
Theorem script_rerun `{fr : FloatRepr} `{np : NumParser}
    (web1 web2 : string → result (list DataFrame))
    (inp : inputs) (cache : gmap Z DataFrame) :
  is_Ok (load_data_cached web1 (selected_year (in_year inp)) cache).1 →
  let cache' := (script web1 inp cache).2 in
  script web2 inp cache' = ((script web1 inp cache).1, cache').
Proof.
  intros [df Hdf] cache'. unfold cache'. rewrite !script_unfold. cbv zeta. cbn [fst snd].
  rewrite (load_data_cached_hit web2 _ _ df) by (by apply load_data_cached_stored).
  cbn [fst snd]. by rewrite Hdf.
Qed.

Lemma script_rerun_witness :
  let cache' :=
    (script (fr := decimal_repr) (np := decimal_parse) sample_web no_input ∅).2 in
  script (fr := decimal_repr) (np := decimal_parse) (λ url, Raise (LoadError url))
    no_input cache' =
  ((script (fr := decimal_repr) (np := decimal_parse) sample_web no_input ∅).1, cache').
Proof.
  apply (script_rerun (fr := decimal_repr) (np := decimal_parse) sample_web
           (λ url, Raise (LoadError url)) no_input ∅).
  by eexists.
Defined.

(** C11: the table that is shown, exported and charted keeps the invariant
    of the data model: it is well formed, no cell is missing, its column
    names are the normalised names, its rows are rows of the loaded table in
    their order, and its team column is text. *)
Theorem pipeline_invariant `{fr : FloatRepr}
    (tc pc : option (list string)) (raw stats df : DataFrame) :
  frame_wf raw → no_nan raw → NoDup (normalize_name <$> columns raw) →
  prepare raw = Ok stats → filter_stage tc pc stats = Ok df →
  frame_wf df ∧ no_nan df ∧ columns df = normalize_name <$> columns raw ∧
  df_index df `sublist_of` df_index raw ∧
  ∃ team, col_lookup "team" (df_cols df) = Some team ∧ all_str team.
Proof.
  intros Hwf Hnan Hn Hp (options & _ & Hf)%filter_stage_inv.
  destruct (prepare_Ok_wf raw stats Hwf Hn Hp) as [Hwf' Hi].
  destruct (prepare_team raw stats Hp) as (team & Ht & Hs).
  assert (no_nan stats) by (eapply team_as_text_no_nan, Hp; by apply normalize_columns_no_nan).
  split_and!.
  - by eapply filter_rows_wf.
  - by eapply filter_rows_no_nan.
  - by rewrite (filter_rows_columns _ _ stats df Hf), (prepare_columns raw).
  - apply filter_rows_inv in Hf as (? & ? & _ & _ & ->). rewrite <-Hi. apply select_sublist.
  - by eapply filter_rows_team_text.
Qed.

Lemma pipeline_invariant_witness :
  frame_wf sample_filtered ∧ no_nan sample_filtered ∧
  columns sample_filtered = normalize_name <$> columns sample_clean ∧
  df_index sample_filtered `sublist_of` df_index sample_clean ∧
  ∃ team, col_lookup "team" (df_cols sample_filtered) = Some team ∧ all_str team.
Proof.
  apply (pipeline_invariant (fr := decimal_repr) None None sample_clean sample_stats);
    [by apply (bool_decide_unpack _)..|reflexivity|reflexivity].
Defined.

(** C17: a run completes, for every choice of teams and positions and for the
    heat map, the box plots, the scatter plot and the points by team,
    whenever the season loads and its table has, after normalisation,
    distinct column names with [team] and [pos] among them; the table it
    ends with is then well formed, when the loaded table was, and has the
    normalised column names.  (When two names collide after line 44 pandas
    returns a table for the duplicated label, and line 47 fails when the
    label is [team]; the model covers the tables without collision.  Completing means that neither
    pandas nor the script raises; what seaborn does with the data it is
    given is outside the model.) *)
Theorem script_completes `{fr : FloatRepr} `{np : NumParser}
    (read_html : string → result (list DataFrame))
    (inp : inputs) (cache : gmap Z DataFrame) (raw : DataFrame) :
  (load_data_cached read_html (selected_year (in_year inp)) cache).1 = Ok raw →
  NoDup (normalize_name <$> columns raw) →
  "team" ∈ normalize_name <$> columns raw → "pos" ∈ normalize_name <$> columns raw →
  safe_choice (in_chart inp) →
  completes (script read_html inp cache).1 ∧
  (frame_wf raw → ∃ df, (script read_html inp cache).1.2 = Ok df ∧
     frame_wf df ∧ columns df = normalize_name <$> columns raw).
Proof.
  intros Hl Hn Ht Hpos Hsafe.
  destruct (team_as_text_Ok (normalize_columns raw)) as [stats Hp];
    [by rewrite normalize_columns_columns|].
  destruct (prepare_team raw stats Hp) as (team & Hteam & Hs).
  destruct (filter_stage_Ok (in_teams inp) (in_positions inp) stats team)
    as [df Hf]; [done..|by rewrite (prepare_columns raw)|].
  destruct (body_filter_stage inp raw stats df Hp Hf) as (options & _ & Hb).
  pose proof Hf as (o & _ & Hr)%filter_stage_inv.
  assert (has_column "team" df = true) as Hc.
  { unfold has_column. rewrite (filter_rows_columns _ _ stats df Hr).
    apply bool_decide_eq_true, col_lookup_is_Some. eauto. }
  rewrite script_unfold. cbv zeta. rewrite Hl. cbn [fst snd]. rewrite Hb. cbn [snd].
  pose proof (chart_stage_completes_safe (in_chart inp) df Hc Hsafe) as [df' Hdf].
  split; [by exists df'|]. intros Hwf. exists df'. split; [done|].
  destruct (chart_stage (in_chart inp) df) as [p r] eqn:Hch. simpl in Hdf. subst r.
  destruct (chart_stage_result _ df p df' Hc Hch) as [-> Hwf'].
  rewrite (filter_rows_columns _ _ stats df Hr), (prepare_columns raw) by done.
  split; [|done]. apply Hwf'. eapply filter_rows_wf; [|done].
  by apply (prepare_Ok_wf raw).
Qed.

Lemma script_completes_witness :
  let inp := mkInputs None (Some ["BOS"]) None (Some "Box Plot by Team") in
  completes (script (fr := decimal_repr) (np := decimal_parse) sample_web inp ∅).1 ∧
  (frame_wf sample_clean →
   ∃ df, (script (fr := decimal_repr) (np := decimal_parse) sample_web inp ∅).1.2 = Ok df ∧
     frame_wf df ∧ columns df = normalize_name <$> columns sample_clean).
Proof.
  apply (script_completes (fr := decimal_repr) (np := decimal_parse) sample_web
           (mkInputs None (Some ["BOS"]) None (Some "Box Plot by Team")) ∅ sample_clean);
    [reflexivity|by apply (bool_decide_unpack _)..|by split].
Defined.
